(** * AcuarelaArte front-end: a shallow embedding of the page scripts

    The development follows the four scripts of the site:
    - [js/components/ResponsiveMenu.js]  (module [ResponsiveMenu]),
    - [js/components/ThemeToggle.js]     (module [ThemeToggle]),
    - [js/utils/imageLoader.js]          (module [ImageLoader]),
    - [js/main.js]                       (module [Main]).

    The browser is an explicit value ([browser]): the document as a store of
    elements addressed by node handles, local storage as a finite map, the
    console and the dispatched custom events as traces, the pending timers
    with a virtual clock.  Methods run in a small state-and-exception monad
    whose state is the object the method is called on ([this]) together with
    the browser; a JavaScript [TypeError] on a null reference and a rejected
    dynamic [import()] are the two exceptions. *)

From Stdlib Require Import ZArith Floats Ascii String.
From stdpp Require Import gmap strings list pretty.

(** ** Elements and the document *)

(** A node handle is a reference to an element object.  [document.documentElement],
    [document.head] and [document.body] always exist; every other element
    lives in the store [others], in document order. *)
Inductive node := Html | Head | Body | Elem (i : nat).

#[global] Instance node_eq_dec : EqDecision node.
Proof. solve_decision. Defined.

Definition node_to_sum (n : node) : nat + nat :=
  match n with Html => inl 0 | Head => inl 1 | Body => inl 2 | Elem i => inr i end.

Definition node_of_sum (s : nat + nat) : option node :=
  match s with
  | inl 0 => Some Html | inl 1 => Some Head | inl 2 => Some Body
  | inl _ => None
  | inr i => Some (Elem i)
  end.

#[global] Instance node_countable : Countable node.
Proof.
  apply (inj_countable node_to_sum node_of_sum).
  by intros [].
Defined.

(** Content attributes (which the IDL properties [id], [src], [alt], [title],
    [name] and [dataset] reflect), the class list, and the inline style. *)
Record element := Element {
  tag : string;
  parent : option node;
  attrs : gmap string string;
  classList : list string;
  style : gmap string string;
  innerHTML : string
}.

Definition setAttribute (k v : string) (e : element) : element :=
  Element (tag e) (parent e) (<[k := v]> (attrs e)) (classList e) (style e) (innerHTML e).

Definition removeAttribute (k : string) (e : element) : element :=
  Element (tag e) (parent e) (delete k (attrs e)) (classList e) (style e) (innerHTML e).

Definition getAttribute (k : string) (e : element) : option string := attrs e !! k.

Definition contains_class (c : string) (e : element) : bool :=
  bool_decide (c ∈ classList e).

(** [classList.add]: a token already present is not added again. *)
Definition classList_add (c : string) (e : element) : element :=
  if contains_class c e then e
  else Element (tag e) (parent e) (attrs e) (classList e ++ [c]) (style e) (innerHTML e).

Definition classList_remove (c : string) (e : element) : element :=
  Element (tag e) (parent e) (attrs e)
          (filter (λ x, x ≠ c) (classList e)) (style e) (innerHTML e).

(** [el.style.prop = v]: the empty string removes the declaration. *)
Definition style_set (k v : string) (e : element) : element :=
  Element (tag e) (parent e) (attrs e) (classList e)
          (if bool_decide (v = "") then delete k (style e) else <[k := v]> (style e))
          (innerHTML e).

(** [el.innerHTML = markup] and [el.textContent = text]: the content is kept
    as text; the elements a markup would create are not put in the store. *)
Definition set_innerHTML (v : string) (e : element) : element :=
  Element (tag e) (parent e) (attrs e) (classList e) (style e) v.

(** Reading [el.style.prop] gives the empty string when nothing is declared. *)
Definition style_get (k : string) (e : element) : string := default "" (style e !! k).

Record document := Document {
  html : element;
  head : element;
  body : element;
  others : list element
}.

Definition lookup_node (n : node) (d : document) : option element :=
  match n with
  | Html => Some (html d)
  | Head => Some (head d)
  | Body => Some (body d)
  | Elem i => others d !! i
  end.

Definition alter_node (f : element → element) (n : node) (d : document) : document :=
  match n with
  | Html => Document (f (html d)) (head d) (body d) (others d)
  | Head => Document (html d) (f (head d)) (body d) (others d)
  | Body => Document (html d) (head d) (f (body d)) (others d)
  | Elem i => Document (html d) (head d) (body d) (alter f i (others d))
  end.

(** A handle is live when it refers to an element of the store; JavaScript
    references never dangle, so every handle a script holds is live. *)
Definition live (n : node) (d : document) : Prop := is_Some (lookup_node n d).

(** All elements in document order. *)
Definition elements (d : document) : list (node * element) :=
  (Html, html d) :: (Head, head d) :: (Body, body d)
    :: imap (λ i e, (Elem i, e)) (others d).

(** [document.createElement] followed by the insertion into the tree: the new
    element is put at the end of the store. *)
Definition append_element (e : element) (d : document) : node * document :=
  (Elem (length (others d)),
   Document (html d) (head d) (body d) (others d ++ [e])).

(** [a.contains(n)] for [n ≠ a]: [a] is reached from [n] through parents. *)
Fixpoint has_ancestor (fuel : nat) (d : document) (a n : node) : bool :=
  match fuel with
  | 0 => false
  | S fuel' =>
      match lookup_node n d with
      | Some e =>
          match parent e with
          | Some p => bool_decide (p = a) || has_ancestor fuel' d a p
          | None => false
          end
      | None => false
      end
  end.

Definition node_contains (d : document) (a n : node) : bool :=
  bool_decide (a = n) || has_ancestor (3 + length (others d)) d a n.

(** The CSS selectors the scripts use. *)
Inductive selector :=
| SelId (id : string)                    (* #id, getElementById *)
| SelTag (t : string)                    (* img *)
| SelClass (c : string)                  (* .nav-link *)
| SelAttr (a : string)                   (* [data-parallax] *)
| SelTagAttr (t a : string)              (* img[data-src] *)
| SelTagAttrEq (t a v : string)          (* meta[name="theme-color"] *)
| SelTagAttrPrefix (t a v : string)      (* a[href^="#"] *)
| SelFocusable.                          (* the list of setupFocusTrap *)

Definition matches (s : selector) (e : element) : bool :=
  match s with
  | SelId id => bool_decide (attrs e !! "id" = Some id)
  | SelTag t => bool_decide (tag e = t)
  | SelClass c => contains_class c e
  | SelAttr a => bool_decide (is_Some (attrs e !! a))
  | SelTagAttr t a => bool_decide (tag e = t) && bool_decide (is_Some (attrs e !! a))
  | SelTagAttrEq t a v => bool_decide (tag e = t) && bool_decide (attrs e !! a = Some v)
  | SelTagAttrPrefix t a v =>
      bool_decide (tag e = t)
      && match attrs e !! a with Some x => String.prefix v x | None => false end
  | SelFocusable =>
      (* a[href], button:not([disabled]), textarea:not([disabled]),
         input:not([disabled]), select:not([disabled]),
         [tabindex]:not([tabindex="-1"]) *)
      (bool_decide (tag e = "a") && bool_decide (is_Some (attrs e !! "href")))
      || (bool_decide (tag e ∈ ["button"; "textarea"; "input"; "select"])
          && bool_decide (attrs e !! "disabled" = None))
      || (bool_decide (is_Some (attrs e !! "tabindex"))
          && bool_decide (attrs e !! "tabindex" ≠ Some "-1"))
  end.

Definition querySelectorAll (s : selector) (d : document) : list node :=
  (filter (λ p, matches s p.2 = true) (elements d)).*1.

Definition querySelector (s : selector) (d : document) : option node :=
  list.head (querySelectorAll s d).

Definition getElementById (id : string) (d : document) : option node :=
  querySelector (SelId id) d.

(** [root.querySelectorAll(s)]: the proper descendants of [root] that match. *)
Definition querySelectorAll_in (root : node) (s : selector) (d : document) : list node :=
  (filter (λ p, matches s p.2 = true
                ∧ has_ancestor (3 + length (others d)) d root p.1 = true)
          (elements d)).*1.

Definition querySelector_in (root : node) (s : selector) (d : document) : option node :=
  list.head (querySelectorAll_in root s d).

(** ** The rest of the browser *)

Inductive level := Log | Warn | Error.

(** A console call: its level and its arguments rendered as text. *)
Definition log_entry : Type := level * list string.

Inductive detail :=
| DThemeChanged (theme : string) (timestamp : Z)
| DImageLoaded (src : string) (srcset : option string)
| DImageError (src : string) (retries : nat)
| DAppInitialized.

(** A dispatched [CustomEvent]: its type, its target ([None] is [document])
    and its detail. *)
Record custom_event := CustomEvent {
  ev_type : string;
  ev_target : option node;
  ev_detail : detail
}.

(** What a timer or an animation frame runs when it fires. *)
Inductive callback :=
| CbFocus (n : node)                     (* ResponsiveMenu.focusFirstMenuItem *)
| CbResizeCheck                          (* ResponsiveMenu.setupResizeListener *)
| CbRemoveClass (n : node) (c : string)  (* ThemeToggle.animateButton *)
| CbNextFrame (k : callback)             (* requestAnimationFrame(() => requestAnimationFrame(k)) *)
| CbLoadImage (img : node)               (* imageLoader.handleImageError *)
| CbSwapSrc (img : node) (src : string)  (* imageLoader.updateImageWithFade *)
| CbStats.                               (* main.initPerformanceMonitoring *)

#[global] Instance callback_eq_dec : EqDecision callback.
Proof. solve_decision. Defined.

Record timer := Timer {
  timer_id : nat;
  due : Z;
  timer_cb : callback
}.

(** A temporary [Image] whose [src] has been assigned: the browser will call
    [onload] or [onerror] of the load later. *)
Record pending_load := PendingLoad {
  pl_img : node;
  pl_src : string;
  pl_srcset : option string
}.

Record browser := Browser {
  doc : document;
  localStorage : gmap string string;
  console : list log_entry;
  dispatched : list custom_event;
  timers : list timer;
  nextTimer : nat;
  clock : Z;                             (* Date.now(), in ms *)
  frames : list callback;                (* requestAnimationFrame queue *)
  loads : list pending_load;
  activeElement : option node;
  innerWidth : Z;
  matchMedia : option bool;              (* None: no window.matchMedia;
                                            Some b: (prefers-color-scheme: dark).matches = b *)
  hasIntersectionObserver : bool;
  hostname : string;
  pathname : string;
  resolvable : list string;              (* module paths a dynamic import() resolves *)
  readyState : string                    (* document.readyState *)
}.

Definition upd_doc (f : document → document) (b : browser) : browser :=
  Browser (f (doc b)) (localStorage b) (console b) (dispatched b) (timers b)
          (nextTimer b) (clock b) (frames b) (loads b) (activeElement b)
          (innerWidth b) (matchMedia b) (hasIntersectionObserver b)
          (hostname b) (pathname b) (resolvable b) (readyState b).

Definition upd_storage (f : gmap string string → gmap string string) (b : browser) : browser :=
  Browser (doc b) (f (localStorage b)) (console b) (dispatched b) (timers b)
          (nextTimer b) (clock b) (frames b) (loads b) (activeElement b)
          (innerWidth b) (matchMedia b) (hasIntersectionObserver b)
          (hostname b) (pathname b) (resolvable b) (readyState b).

Definition upd_console (f : list log_entry → list log_entry) (b : browser) : browser :=
  Browser (doc b) (localStorage b) (f (console b)) (dispatched b) (timers b)
          (nextTimer b) (clock b) (frames b) (loads b) (activeElement b)
          (innerWidth b) (matchMedia b) (hasIntersectionObserver b)
          (hostname b) (pathname b) (resolvable b) (readyState b).

Definition upd_dispatched (f : list custom_event → list custom_event) (b : browser) : browser :=
  Browser (doc b) (localStorage b) (console b) (f (dispatched b)) (timers b)
          (nextTimer b) (clock b) (frames b) (loads b) (activeElement b)
          (innerWidth b) (matchMedia b) (hasIntersectionObserver b)
          (hostname b) (pathname b) (resolvable b) (readyState b).

Definition upd_timers (f : list timer → list timer) (b : browser) : browser :=
  Browser (doc b) (localStorage b) (console b) (dispatched b) (f (timers b))
          (nextTimer b) (clock b) (frames b) (loads b) (activeElement b)
          (innerWidth b) (matchMedia b) (hasIntersectionObserver b)
          (hostname b) (pathname b) (resolvable b) (readyState b).

Definition upd_frames (f : list callback → list callback) (b : browser) : browser :=
  Browser (doc b) (localStorage b) (console b) (dispatched b) (timers b)
          (nextTimer b) (clock b) (f (frames b)) (loads b) (activeElement b)
          (innerWidth b) (matchMedia b) (hasIntersectionObserver b)
          (hostname b) (pathname b) (resolvable b) (readyState b).

Definition upd_loads (f : list pending_load → list pending_load) (b : browser) : browser :=
  Browser (doc b) (localStorage b) (console b) (dispatched b) (timers b)
          (nextTimer b) (clock b) (frames b) (f (loads b)) (activeElement b)
          (innerWidth b) (matchMedia b) (hasIntersectionObserver b)
          (hostname b) (pathname b) (resolvable b) (readyState b).

Definition set_activeElement (n : option node) (b : browser) : browser :=
  Browser (doc b) (localStorage b) (console b) (dispatched b) (timers b)
          (nextTimer b) (clock b) (frames b) (loads b) n
          (innerWidth b) (matchMedia b) (hasIntersectionObserver b)
          (hostname b) (pathname b) (resolvable b) (readyState b).

Definition set_clock (t : Z) (b : browser) : browser :=
  Browser (doc b) (localStorage b) (console b) (dispatched b) (timers b)
          (nextTimer b) t (frames b) (loads b) (activeElement b)
          (innerWidth b) (matchMedia b) (hasIntersectionObserver b)
          (hostname b) (pathname b) (resolvable b) (readyState b).

(** The user resizes the window. *)
Definition set_innerWidth (w : Z) (b : browser) : browser :=
  Browser (doc b) (localStorage b) (console b) (dispatched b) (timers b)
          (nextTimer b) (clock b) (frames b) (loads b) (activeElement b)
          w (matchMedia b) (hasIntersectionObserver b)
          (hostname b) (pathname b) (resolvable b) (readyState b).

(** [setTimeout(cb, delay)]: a fresh identifier, due [delay] ms from now. *)
Definition setTimeout (cb : callback) (delay : Z) (b : browser) : nat * browser :=
  (nextTimer b,
   Browser (doc b) (localStorage b) (console b) (dispatched b)
           (timers b ++ [Timer (nextTimer b) (clock b + delay) cb])
           (S (nextTimer b)) (clock b) (frames b) (loads b) (activeElement b)
           (innerWidth b) (matchMedia b) (hasIntersectionObserver b)
           (hostname b) (pathname b) (resolvable b) (readyState b)).

(** [clearTimeout(id)]: [undefined] and unknown identifiers are ignored. *)
Definition clearTimeout (id : option nat) (b : browser) : browser :=
  match id with
  | None => b
  | Some i => upd_timers (filter (λ t, timer_id t ≠ i)) b
  end.

(** Element reads and writes through a handle. *)
Definition elem (n : node) (b : browser) : option element := lookup_node n (doc b).

Definition upd_elem (f : element → element) (n : node) (b : browser) : browser :=
  upd_doc (alter_node f n) b.

Definition has_class (n : node) (c : string) (b : browser) : bool :=
  match elem n b with Some e => contains_class c e | None => false end.

Definition attr (n : node) (k : string) (b : browser) : option string :=
  e ← elem n b; getAttribute k e.

Definition style_of (n : node) (k : string) (b : browser) : string :=
  match elem n b with Some e => style_get k e | None => "" end.

(** ** Methods: state of [this] and of the browser, with exceptions *)

Inductive exn :=
| TypeError (msg : string)       (* a property read on null, a call of undefined *)
| ReferenceError (name : string) (* a global that is not defined *)
| ImportError (path : string).   (* a dynamic import() that rejects *)

Inductive result (A : Type) :=
| Ok (a : A)
| Throw (e : exn).
Arguments Ok {A} a.
Arguments Throw {A} e.

Record st (S : Type) := St { this : S; br : browser }.
Arguments St {S} this br.
Arguments this {S} s.
Arguments br {S} s.

(** A method of an object of type [S] returning an [A].  The state reached
    when an exception is thrown is kept: JavaScript does not roll back. *)
Definition M (S A : Type) : Type := st S → result A * st S.

#[global] Instance M_ret {S} : MRet (M S) := λ A a s, (Ok a, s).

#[global] Instance M_bind {S} : MBind (M S) := λ A B f m s,
  match m s with
  | (Ok a, s') => f a s'
  | (Throw e, s') => (Throw e, s')
  end.

Definition throw {S A} (e : exn) : M S A := λ s, (Throw e, s).

(** [try { m } catch (e) { h e }] *)
Definition try_catch {S} (m : M S unit) (h : exn → M S unit) : M S unit := λ s,
  match m s with
  | (Ok a, s') => (Ok a, s')
  | (Throw e, s') => h e s'
  end.

Definition gets {S A} (f : S → A) : M S A := λ s, (Ok (f (this s)), s).
Definition modify {S} (f : S → S) : M S unit := λ s, (Ok (), St (f (this s)) (br s)).
Definition browse {S A} (f : browser → A) : M S A := λ s, (Ok (f (br s)), s).
Definition act {S} (f : browser → browser) : M S unit := λ s, (Ok (), St (this s) (f (br s))).

(** Reading a property of [o]: a [TypeError] when [o] is null. *)
Definition deref {S} (what : string) (o : option node) : M S node :=
  match o with
  | Some n => mret n
  | None => throw (TypeError ("Cannot read properties of null: " +:+ what))
  end.

Definition when {S} (c : bool) (m : M S unit) : M S unit := if c then m else mret ().

Definition console_call {S} (l : level) (args : list string) : M S unit :=
  act (upd_console (λ c, c ++ [(l, args)])).

Definition set_timeout {S} (cb : callback) (delay : Z) : M S nat := λ s,
  let '(id, b) := setTimeout cb delay (br s) in (Ok id, St (this s) b).

Definition dispatchEvent {S} (ev : custom_event) : M S unit :=
  act (upd_dispatched (λ l, l ++ [ev])).

(** [new C()]: runs the constructor on a fresh object, in the caller's
    browser; the caller gets the object unless the constructor throws. *)
Definition new {S T} (fresh : T) (ctor : M T unit) : M S T := λ s,
  match ctor (St fresh (br s)) with
  | (Ok _, s') => (Ok (this s'), St (this s) (br s'))
  | (Throw e, s') => (Throw e, St (this s) (br s'))
  end.

(** [list.forEach(f)] *)
Fixpoint for_each {S A} (l : list A) (f : A → M S unit) : M S unit :=
  match l with
  | [] => mret ()
  | x :: l' => f x;; for_each l' f
  end.

(** A method of a part [T] of the object [S], run from a method of [S]. *)
Definition zoom {S T A} (get : S → T) (set : T → S → S) (m : M T A) : M S A := λ s,
  let '(r, s') := m (St (get (this s)) (br s)) in
  (r, St (set (this s') (this s)) (br s')).

(** [document.createElement(tag)], the given properties, and the insertion
    under [parent]. *)
Definition create_element {S} (e : element) : M S node := λ s,
  let '(n, d) := append_element e (doc (br s)) in
  (Ok n, St (this s) (upd_doc (λ _, d) (br s))).

(** Code that is not part of these scripts, run on the browser. *)
Definition external {S A} (f : browser → result A * browser) : M S A := λ s,
  let '(r, b) := f (br s) in (r, St (this s) b).

(** [await import(path)]: the module is fetched and evaluated; the import
    rejects when the path does not resolve.  The awaited promise is taken to
    settle at once: no other task runs in between. *)
Definition import {S} (path : string) : M S unit :=
  rs ← browse resolvable;
  if bool_decide (path ∈ rs) then mret () else throw (ImportError path).

Definition exn_text (e : exn) : string :=
  match e with
  | TypeError m => "TypeError: " +:+ m
  | ReferenceError n => "ReferenceError: " +:+ n +:+ " is not defined"
  | ImportError p => "TypeError: Failed to fetch dynamically imported module: " +:+ p
  end.

(** * js/components/ResponsiveMenu.js *)

Module ResponsiveMenu.

Record t := Menu {
  menuToggle : option node;
  navMenu : option node;
  body : node;
  isOpen : bool;
  desktopBreakpoint : Z;
  resizeTimer : option nat;            (* [let resizeTimer] of setupResizeListener *)
  listening : bool                     (* init() has registered the listeners *)
}.

Definition set_isOpen (v : bool) (m : t) : t :=
  Menu (menuToggle m) (navMenu m) (body m) v (desktopBreakpoint m)
       (resizeTimer m) (listening m).

Definition set_resizeTimer (v : option nat) (m : t) : t :=
  Menu (menuToggle m) (navMenu m) (body m) (isOpen m) (desktopBreakpoint m)
       v (listening m).

Definition set_listening (v : bool) (m : t) : t :=
  Menu (menuToggle m) (navMenu m) (body m) (isOpen m) (desktopBreakpoint m)
       (resizeTimer m) v.

(** The object before the constructor body has run. *)
Definition fresh : t := Menu None None Body false 0 None false.

Definition focusFirstMenuItem : M t unit :=
  nav ← gets navMenu ≫= deref "querySelector";
  firstLink ← browse (λ b, querySelector_in nav (SelClass "nav-link") (doc b));
  match firstLink with
  | Some l => _ ← set_timeout (CbFocus l) 100; mret ()
  | None => mret ()
  end.

Definition openMenu : M t unit :=
  modify (set_isOpen true);;
  nav ← gets navMenu ≫= deref "classList";
  act (upd_elem (classList_add "active") nav);;
  bd ← gets body;
  act (upd_elem (classList_add "menu-open") bd);;
  tog ← gets menuToggle ≫= deref "setAttribute";
  act (upd_elem (setAttribute "aria-expanded" "true") tog);;
  act (upd_elem (setAttribute "aria-label" "Cerrar menú de navegación") tog);;
  act (upd_elem (style_set "overflow" "hidden") bd);;
  focusFirstMenuItem;;
  console_call Log ["📱 Menú abierto"].

Definition closeMenu : M t unit :=
  modify (set_isOpen false);;
  nav ← gets navMenu ≫= deref "classList";
  act (upd_elem (classList_remove "active") nav);;
  bd ← gets body;
  act (upd_elem (classList_remove "menu-open") bd);;
  tog ← gets menuToggle ≫= deref "setAttribute";
  act (upd_elem (setAttribute "aria-expanded" "false") tog);;
  act (upd_elem (setAttribute "aria-label" "Abrir menú de navegación") tog);;
  act (upd_elem (style_set "overflow" "") bd);;
  console_call Log ["📱 Menú cerrado"].

Definition toggleMenu : M t unit :=
  open ← gets isOpen;
  if (open : bool) then closeMenu else openMenu.

(** The [click] listener of every [.nav-link]. *)
Definition onLinkClick : M t unit :=
  w ← browse innerWidth;
  bp ← gets desktopBreakpoint;
  when (bool_decide (w < bp)%Z) closeMenu.

(** The [click] listener of [document]. *)
Definition onDocumentClick (target : node) : M t unit :=
  open ← gets isOpen;
  if negb open then mret () else
  tog ← gets menuToggle ≫= deref "contains";
  inTog ← browse (λ b, node_contains (doc b) tog target);
  if (inTog : bool) then mret () else
  nav ← gets navMenu ≫= deref "contains";
  inNav ← browse (λ b, node_contains (doc b) nav target);
  if (inNav : bool) then mret () else closeMenu.

(** The [resize] listener of [window]. *)
Definition onResize : M t unit :=
  old ← gets resizeTimer;
  act (clearTimeout old);;
  id ← set_timeout CbResizeCheck 150;
  modify (set_resizeTimer (Some id)).

(** The function the resize timer runs. *)
Definition resizeCheck : M t unit :=
  w ← browse innerWidth;
  bp ← gets desktopBreakpoint;
  open ← gets isOpen;
  when (bool_decide (w >= bp)%Z && open)
    (closeMenu;;
     console_call Log ["🖥️ Menú cerrado por cambio a vista desktop"]).

(** The first [keydown] listener of [document]. *)
Definition onKeydown (key : string) : M t unit :=
  open ← gets isOpen;
  when (bool_decide (key = "Escape") && open)
    (closeMenu;;
     tog ← gets menuToggle ≫= deref "focus";
     act (set_activeElement (Some tog))).

(** The second [keydown] listener of [document] (setupFocusTrap). *)
Definition onTrapKeydown (key : string) (shiftKey : bool) : M t unit :=
  open ← gets isOpen;
  if negb open || bool_decide (key ≠ "Tab") then mret () else
  nav ← gets navMenu ≫= deref "querySelectorAll";
  focusableElements ← browse (λ b, querySelectorAll_in nav SelFocusable (doc b));
  match focusableElements with
  | [] => mret ()
  | firstElement :: _ =>
      let lastElement := default firstElement (last focusableElements) in
      active ← browse activeElement;
      if shiftKey && bool_decide (active = Some firstElement)
      then act (set_activeElement (Some lastElement))
      else if negb shiftKey && bool_decide (active = Some lastElement)
      then act (set_activeElement (Some firstElement))
      else mret ()
  end.

Definition init : M t unit :=
  _ ← gets menuToggle ≫= deref "addEventListener";
  _ ← gets navMenu ≫= deref "querySelectorAll";
  modify (set_listening true);;
  console_call Log ["✅ ResponsiveMenu inicializado correctamente"].

Definition constructor : M t unit :=
  mt ← browse (λ b, getElementById "menuToggle" (doc b));
  nm ← browse (λ b, getElementById "navMenu" (doc b));
  modify (λ _, Menu mt nm Body false 1024 None false);;
  if bool_decide (mt = None) || bool_decide (nm = None)
  then console_call Warn
         ["ResponsiveMenu: Elementos requeridos no encontrados (menuToggle o navMenu)"]
  else init.

Definition getState : M t bool := gets isOpen.

Definition destroy : M t unit :=
  open ← gets isOpen;
  when open closeMenu;;
  console_call Log ["🗑️ ResponsiveMenu destruido"].

(** What happens to one menu: the listeners, the timers it set, and the
    three public methods. *)
Inductive event :=
| EToggleClick
| ELinkClick
| EDocumentClick (target : node)
| EResize
| EKeydown (key : string) (shiftKey : bool)
| ETimer (id : nat)
| ECallOpen
| ECallClose
| ECallToggle.

Definition run_callback (cb : callback) : M t unit :=
  match cb with
  | CbFocus n => act (set_activeElement (Some n))
  | CbResizeCheck => resizeCheck
  | _ => mret ()
  end.

(** A timer fires: it leaves the pending list, then its function runs. *)
Definition fire (id : nat) : M t unit :=
  ts ← browse timers;
  match list_find (λ x, timer_id x = id) ts with
  | Some (_, tm) =>
      act (upd_timers (filter (λ x, timer_id x ≠ id)));;
      act (λ b, set_clock (Z.max (clock b) (due tm)) b);;
      run_callback (timer_cb tm)
  | None => mret ()
  end.

Definition handle (e : event) : M t unit :=
  match e with
  | EToggleClick => l ← gets listening; when l toggleMenu
  | ELinkClick => l ← gets listening; when l onLinkClick
  | EDocumentClick x => l ← gets listening; when l (onDocumentClick x)
  | EResize => l ← gets listening; when l onResize
  | EKeydown k shift =>
      l ← gets listening; when l (onKeydown k;; onTrapKeydown k shift)
  | ETimer id => fire id
  | ECallOpen => openMenu
  | ECallClose => closeMenu
  | ECallToggle => toggleMenu
  end.

(** The timers that will run the resize check. *)
Definition pending_checks (b : browser) : list timer :=
  filter (λ tm, timer_cb tm = CbResizeCheck) (timers b).


(** What happens on the page of one menu, in order: an event, the user
    changing the width of the window, or time passing. *)
Inductive happening :=
| Event (e : event)
| Width (w : Z)
| Wait (dt : Z).

(** The state after one happening; an exception thrown by a listener is
    reported by the browser and does not stop what follows. *)
Definition after_one (s : st t) (h : happening) : st t :=
  match h with
  | Event e => (handle e s).2
  | Width w => St (this s) (set_innerWidth w (br s))
  | Wait dt => St (this s) (set_clock (clock (br s) + dt) (br s))
  end.

Definition after_all (hs : list happening) (s : st t) : st t :=
  foldl after_one s hs.

(** Every method of the class and every listener it registers. *)
Inductive operation :=
| Constructor
| Init
| ToggleMenu
| OpenMenu
| CloseMenu
| FocusFirstMenuItem
| GetState
| Destroy
| Handle (e : event).

Definition run (o : operation) : M t unit :=
  match o with
  | Constructor => constructor
  | Init => init
  | ToggleMenu => toggleMenu
  | OpenMenu => openMenu
  | CloseMenu => closeMenu
  | FocusFirstMenuItem => focusFirstMenuItem
  | GetState => _ ← getState; mret ()
  | Destroy => destroy
  | Handle e => handle e
  end.

(** The module's top-level code: [window.responsiveMenu] is created only
    when both elements exist.  [None] stands for the property staying unset. *)
Definition autoInit : M (option t) unit :=
  mt ← browse (λ b, getElementById "menuToggle" (doc b));
  nm ← browse (λ b, getElementById "navMenu" (doc b));
  if bool_decide (is_Some mt) && bool_decide (is_Some nm)
  then m ← new fresh constructor; modify (λ _, Some m)
  else mret ().

End ResponsiveMenu.

(** * js/components/ThemeToggle.js *)

(** The values a caller can pass where the script expects a theme name. *)
Inductive jsval :=
| JUndefined
| JNull
| JBool (b : bool)
| JNum (z : Z)
| JStr (s : string)
| JObject.

Definition truthy (v : jsval) : bool :=
  match v with
  | JUndefined | JNull => false
  | JBool b => b
  | JNum z => negb (z =? 0)%Z
  | JStr s => negb (bool_decide (s = ""))
  | JObject => true
  end.

(** The text a template literal [`${v}`] produces. *)
Definition to_string (v : jsval) : string :=
  match v with
  | JUndefined => "undefined"
  | JNull => "null"
  | JBool true => "true"
  | JBool false => "false"
  | JNum z => pretty z
  | JStr s => s
  | JObject => "[object Object]"
  end.

Module ThemeToggle.

(** [this.themes] and [this.themeColors] are assigned once by the
    constructor and never written again: they are constants here. *)
Definition LIGHT : string := "light".
Definition DARK : string := "dark".

Definition themeColors (theme : string) : option string :=
  if bool_decide (theme = "light") then Some "#FEFEFE"
  else if bool_decide (theme = "dark") then Some "#1A1A1A"
  else None.

Record t := Toggle {
  toggleButton : option node;
  htmlElement : node;
  metaThemeColor : option node;
  listening : bool;                    (* setupEventListeners has run *)
  watching : bool                      (* watchSystemPreference has subscribed *)
}.

Definition set_metaThemeColor (v : option node) (x : t) : t :=
  Toggle (toggleButton x) (htmlElement x) v (listening x) (watching x).

Definition set_listening (v : bool) (x : t) : t :=
  Toggle (toggleButton x) (htmlElement x) (metaThemeColor x) v (watching x).

Definition set_watching (v : bool) (x : t) : t :=
  Toggle (toggleButton x) (htmlElement x) (metaThemeColor x) (listening x) v.

Definition fresh : t := Toggle None Html None false false.

(** [localStorage.getItem], [setItem], [removeItem]. *)
Definition getItem (k : string) : M t (option string) :=
  browse (λ b, localStorage b !! k).
Definition setItem (k v : string) : M t unit :=
  act (upd_storage (insert k v)).
Definition removeItem (k : string) : M t unit :=
  act (upd_storage (delete k)).

Definition getInitialTheme : M t string :=
  savedTheme ← getItem "theme";
  match savedTheme with
  | Some s =>
      if truthy (JStr s) && (bool_decide (s = LIGHT) || bool_decide (s = DARK))
      then mret s
      else
        mm ← browse matchMedia;
        match mm with
        | Some true => mret DARK
        | _ => mret LIGHT
        end
  | None =>
      mm ← browse matchMedia;
      match mm with
      | Some true => mret DARK
      | _ => mret LIGHT
      end
  end.

Definition getCurrentTheme : M t string :=
  h ← gets htmlElement;
  theme ← browse (attr h "data-theme");
  match theme with
  | Some s => if truthy (JStr s) then mret s else mret LIGHT
  | None => mret LIGHT
  end.

Definition updateMetaThemeColor (theme : string) : M t unit :=
  meta ← gets metaThemeColor;
  (match meta with
   | Some _ => mret ()
   | None =>
       n ← create_element (Element "meta" (Some Head) {["name" := "theme-color"]} [] ∅ "");
       modify (set_metaThemeColor (Some n))
   end);;
  let color := themeColors theme in
  m ← gets metaThemeColor ≫= deref "setAttribute";
  act (upd_elem (setAttribute "content" (default "undefined" color)) m).

Definition updateAriaAttributes : M t unit :=
  currentTheme ← getCurrentTheme;
  let label := if bool_decide (currentTheme = LIGHT)
               then "Cambiar a modo oscuro" else "Cambiar a modo claro" in
  btn ← gets toggleButton ≫= deref "setAttribute";
  act (upd_elem (setAttribute "aria-label" label) btn);;
  act (upd_elem (setAttribute "aria-pressed"
                   (to_string (JBool (bool_decide (currentTheme = DARK))))) btn);;
  act (upd_elem (setAttribute "title" label) btn).

Definition dispatchThemeChangeEvent (theme : string) : M t unit :=
  now ← browse clock;
  dispatchEvent (CustomEvent "themeChanged" None (DThemeChanged theme now)).

(** [setTheme(theme, saveToStorage = true)]; a caller that leaves the second
    argument out passes [true]. *)
Definition setTheme (theme : jsval) (saveToStorage : bool) : M t unit :=
  match theme with
  | JStr s =>
      if bool_decide (s ≠ LIGHT) && bool_decide (s ≠ DARK)
      then console_call Error ["❌ Tema inválido: " +:+ to_string theme]
      else
        h ← gets htmlElement;
        act (upd_elem (setAttribute "data-theme" s) h);;
        when saveToStorage (setItem "theme" s);;
        updateMetaThemeColor s;;
        updateAriaAttributes;;
        dispatchThemeChangeEvent s
  | _ => console_call Error ["❌ Tema inválido: " +:+ to_string theme]
  end.

Definition animateButton : M t unit :=
  btn ← gets toggleButton ≫= deref "classList";
  act (upd_elem (classList_add "theme-toggle-active") btn);;
  _ ← set_timeout (CbRemoveClass btn "theme-toggle-active") 300;
  mret ().

Definition toggleTheme : M t unit :=
  currentTheme ← getCurrentTheme;
  let newTheme := if bool_decide (currentTheme = LIGHT) then DARK else LIGHT in
  setTheme (JStr newTheme) true;;
  animateButton;;
  console_call Log ["🔄 Tema cambiado: " +:+ currentTheme +:+ " → " +:+ newTheme].

Definition applyThemeWithoutTransition (theme : string) : M t unit :=
  h ← gets htmlElement;
  act (upd_elem (classList_add "theme-transition-disabled") h);;
  setTheme (JStr theme) false;;
  act (upd_frames (λ q, q ++ [CbNextFrame (CbRemoveClass h "theme-transition-disabled")])).

Definition setupEventListeners : M t unit :=
  _ ← gets toggleButton ≫= deref "addEventListener";
  modify (set_listening true).

Definition watchSystemPreference : M t unit :=
  mm ← browse matchMedia;
  match mm with
  | None => mret ()
  | Some _ => modify (set_watching true)
  end.

(** The [change] listener of the media query. *)
Definition onSystemPreferenceChange (matches : bool) : M t unit :=
  saved ← getItem "theme";
  if negb (truthy (from_option JStr JNull saved))
  then
    let newTheme := if matches then DARK else LIGHT in
    setTheme (JStr newTheme) true;;
    console_call Log ["🔄 Tema actualizado por preferencia del sistema: " +:+ newTheme]
  else mret ().

(** The [keydown] listener of [document]. *)
Definition onKeydown (ctrlKey metaKey shiftKey : bool) (key : string) : M t unit :=
  when ((ctrlKey || metaKey) && shiftKey && bool_decide (key = "D")) toggleTheme.

(** The [setTheme] listener of [document]; [detail] is [e.detail.theme] when
    [e.detail] is an object. *)
Definition onSetThemeEvent (detail : option jsval) : M t unit :=
  match detail with
  | Some th => when (truthy th) (setTheme th true)
  | None => mret ()
  end.

Definition initialize : M t unit :=
  initialTheme ← getInitialTheme;
  applyThemeWithoutTransition initialTheme;;
  setupEventListeners;;
  watchSystemPreference;;
  updateAriaAttributes;;
  console_call Log ["🎨 Tema inicial: " +:+ initialTheme].

Definition constructor : M t unit :=
  btn ← browse (λ b, getElementById "themeToggle" (doc b));
  meta ← browse (λ b, querySelector (SelTagAttrEq "meta" "name" "theme-color") (doc b));
  modify (λ _, Toggle btn Html meta false false);;
  match btn with
  | None => console_call Warn
              ["⚠️ ThemeToggle: Botón de tema no encontrado. ID esperado: 'themeToggle'"]
  | Some _ =>
      initialize;;
      console_call Log ["✅ ThemeToggle: Inicializado correctamente"]
  end.

Definition getTheme : M t string := getCurrentTheme.

Definition setThemePublic (theme : jsval) : M t unit := setTheme theme true.

Definition resetToSystemPreference : M t unit :=
  removeItem "theme";;
  mm ← browse matchMedia;
  match mm with
  | None => throw (TypeError "window.matchMedia is not a function")
  | Some dark =>
      let systemTheme := if (dark : bool) then DARK else LIGHT in
      setTheme (JStr systemTheme) false;;
      console_call Log ["🔄 Tema reseteado a preferencia del sistema: " +:+ systemTheme]
  end.

Definition destroy : M t unit := console_call Log ["🗑️ ThemeToggle: Destruido"].

(** Every method of the class, every listener it registers and every
    function it hands to a timer or to an animation frame. *)
Inductive operation :=
| Constructor
| Initialize
| GetInitialTheme
| ApplyThemeWithoutTransition (theme : string)
| SetupEventListeners
| WatchSystemPreference
| ToggleTheme
| SetTheme (theme : jsval) (saveToStorage : bool)
| GetCurrentTheme
| UpdateMetaThemeColor (theme : string)
| UpdateAriaAttributes
| AnimateButton
| DispatchThemeChangeEvent (theme : string)
| GetTheme
| SetThemePublic (theme : jsval)
| ResetToSystemPreference
| Destroy
| OnToggleClick
| OnKeydown (ctrlKey metaKey shiftKey : bool) (key : string)
| OnSetThemeEvent (detail : option jsval)
| OnSystemPreferenceChange (matches : bool)
| RunCallback (cb : callback).

Definition run_callback (cb : callback) : M t unit :=
  match cb with
  | CbRemoveClass n c => act (upd_elem (classList_remove c) n)
  | CbNextFrame k => act (upd_frames (λ q, q ++ [k]))
  | _ => mret ()
  end.

Definition run (o : operation) : M t unit :=
  match o with
  | Constructor => constructor
  | Initialize => initialize
  | GetInitialTheme => _ ← getInitialTheme; mret ()
  | ApplyThemeWithoutTransition th => applyThemeWithoutTransition th
  | SetupEventListeners => setupEventListeners
  | WatchSystemPreference => watchSystemPreference
  | ToggleTheme => toggleTheme
  | SetTheme th save => setTheme th save
  | GetCurrentTheme => _ ← getCurrentTheme; mret ()
  | UpdateMetaThemeColor th => updateMetaThemeColor th
  | UpdateAriaAttributes => updateAriaAttributes
  | AnimateButton => animateButton
  | DispatchThemeChangeEvent th => dispatchThemeChangeEvent th
  | GetTheme => _ ← getTheme; mret ()
  | SetThemePublic th => setThemePublic th
  | ResetToSystemPreference => resetToSystemPreference
  | Destroy => destroy
  | OnToggleClick => toggleTheme
  | OnKeydown c m s k => onKeydown c m s k
  | OnSetThemeEvent d => onSetThemeEvent d
  | OnSystemPreferenceChange m => onSystemPreferenceChange m
  | RunCallback cb => run_callback cb
  end.

End ThemeToggle.

(** * js/utils/imageLoader.js *)

(** [Math.floor] and [Math.round] on binary64 numbers.  Below 2^52 in
    magnitude, adding and subtracting 2^52 gives the nearest integer, from
    which the floor follows; from 2^52 on every number is an integer.  NaN and
    the infinities come out unchanged. *)
Definition two52 : float := 0x1p52%float.

Definition Math_floor (x : float) : float :=
  let a := PrimFloat.abs x in
  if PrimFloat.leb two52 a then x
  else
    let r := PrimFloat.sub (PrimFloat.add a two52) two52 in
    let f := if PrimFloat.ltb a r then PrimFloat.sub r 1%float else r in
    if PrimFloat.ltb x 0%float
    then (if PrimFloat.eqb f a then PrimFloat.opp f
          else PrimFloat.opp (PrimFloat.add f 1%float))
    else f.

(** The nearest integer, a tie going up. *)
Definition Math_round (x : float) : float :=
  let f := Math_floor x in
  if PrimFloat.leb 0.5%float (PrimFloat.sub x f) then PrimFloat.add f 1%float else f.

(** A [length] as a Number. *)
Definition number_of_nat (n : nat) : float :=
  PrimFloat.of_uint63 (Uint63.of_Z (Z.of_nat n)).

Module ImageLoader.

Record config := Config {
  rootMargin : string;
  threshold : float;
  lazyClass : string;
  loadingClass : string;
  loadedClass : string;
  errorClass : string;
  placeholderClass : string;
  maxRetries : nat;
  retryDelay : Z
}.

Definition CONFIG : config := {|
  rootMargin := "50px";
  threshold := 0x1.47ae147ae147bp-7%float;   (* 0.01 *)
  lazyClass := "lazy-load";
  loadingClass := "image-loading";
  loadedClass := "image-loaded";
  errorClass := "image-error";
  placeholderClass := "lazy-placeholder";
  maxRetries := 3;
  retryDelay := 1000
|}.

(** The module's two variables: [retryMap], and [imageObserver] with the
    targets it observes ([None] is null). *)
Record t := Loader {
  retryMap : gmap node nat;
  imageObserver : option (list node)
}.

Definition set_retryMap (f : gmap node nat → gmap node nat) (x : t) : t :=
  Loader (f (retryMap x)) (imageObserver x).

Definition set_imageObserver (o : option (list node)) (x : t) : t :=
  Loader (retryMap x) o.

Definition initial : t := Loader ∅ None.

(** [if (s)] on a value that is a string or undefined. *)
Definition nonempty (o : option string) : bool :=
  match o with Some s => negb (bool_decide (s = "")) | None => false end.

Definition loadImage (img : node) : M t unit :=
  src ← browse (attr img "data-src");
  srcset ← browse (attr img "data-srcset");
  match src with
  | Some s =>
      if negb (nonempty src)
      then console_call Warn ["Imagen sin data-src:"; "[object HTMLImageElement]"]
      else
        act (upd_elem (classList_remove (placeholderClass CONFIG)) img);;
        act (upd_elem (classList_add (loadingClass CONFIG)) img);;
        act (upd_loads (λ l, l ++ [PendingLoad img s srcset]))
  | None => console_call Warn ["Imagen sin data-src:"; "[object HTMLImageElement]"]
  end.

Definition handleImageLoaded (img : node) (src : string) (srcset : option string)
  : M t unit :=
  act (upd_elem (setAttribute "src" src) img);;
  when (nonempty srcset)
    (act (upd_elem (setAttribute "srcset" (default "" srcset)) img));;
  originalAlt ← browse (attr img "data-alt");
  when (nonempty originalAlt)
    (act (upd_elem (setAttribute "alt" (default "" originalAlt)) img));;
  act (upd_elem (classList_remove (loadingClass CONFIG)) img);;
  act (upd_elem (classList_add (loadedClass CONFIG)) img);;
  act (upd_elem (removeAttribute "data-src") img);;
  act (upd_elem (removeAttribute "data-srcset") img);;
  modify (set_retryMap (delete img));;
  dispatchEvent (CustomEvent "imageLoaded" (Some img) (DImageLoaded src srcset));;
  console_call Log ["✅ Imagen cargada:"; src].

Definition handleImageError (img : node) (src : string) : M t unit :=
  retries ← gets (λ x, default 0 (retryMap x !! img));
  if bool_decide (retries < maxRetries CONFIG)
  then
    modify (set_retryMap (insert img (retries + 1)));;
    console_call Warn
      ["⚠️ Error cargando imagen (intento " +:+ pretty (retries + 1) +:+ "/"
         +:+ pretty (maxRetries CONFIG) +:+ "):"; src];;
    _ ← set_timeout (CbLoadImage img) (retryDelay CONFIG * Z.of_nat (retries + 1));
    mret ()
  else
    console_call Error ["❌ Error definitivo cargando imagen:"; src];;
    act (upd_elem (classList_remove (loadingClass CONFIG)) img);;
    act (upd_elem (classList_add (errorClass CONFIG)) img);;
    fallback ← browse (attr img "data-fallback");
    (if nonempty fallback
     then act (upd_elem (setAttribute "src" (default "" fallback)) img)
     else act (upd_elem (setAttribute "alt" "Error al cargar imagen") img));;
    dispatchEvent (CustomEvent "imageError" (Some img) (DImageError src retries));;
    modify (set_retryMap (delete img)).

Definition loadAllImagesImmediately : M t unit :=
  lazyImages ← browse (λ b, querySelectorAll (SelTagAttr "img" "data-src") (doc b));
  for_each lazyImages (λ img,
    src ← browse (attr img "data-src");
    srcset ← browse (attr img "data-srcset");
    when (nonempty src) (act (upd_elem (setAttribute "src" (default "" src)) img));;
    when (nonempty srcset)
      (act (upd_elem (setAttribute "srcset" (default "" srcset)) img));;
    act (upd_elem (removeAttribute "data-src") img);;
    act (upd_elem (removeAttribute "data-srcset") img));;
  console_call Log ["⚡ Cargadas todas las imágenes inmediatamente (fallback)"].

Definition observeImages : M t unit :=
  lazyImages ← browse (λ b, querySelectorAll (SelTagAttr "img" "data-src") (doc b));
  for_each lazyImages (λ img,
    act (upd_elem (classList_add (placeholderClass CONFIG)) img);;
    alt ← browse (attr img "alt");
    when (negb (nonempty alt))
      (act (upd_elem (setAttribute "alt" "Imagen cargando...") img));;
    obs ← gets imageObserver;
    match obs with
    | Some l => modify (set_imageObserver (Some (l ++ [img])))
    | None => throw (TypeError "Cannot read properties of null: observe")
    end);;
  console_call Log ["📸 Observando " +:+ pretty (length lazyImages) +:+ " imágenes lazy"].

Definition initImageLoader : M t unit :=
  io ← browse hasIntersectionObserver;
  if negb io
  then
    console_call Warn ["IntersectionObserver no soportado, cargando todas las imágenes"];;
    loadAllImagesImmediately
  else
    modify (set_imageObserver (Some []));;
    observeImages;;
    console_call Log ["✅ Image Loader inicializado"].

(** The observer's callback, for the entries the browser reports: each is a
    target with its [isIntersecting]. *)
Definition handleIntersection (entries : list (node * bool)) : M t unit :=
  for_each entries (λ entry,
    when entry.2
      (loadImage entry.1;;
       modify (λ x, set_imageObserver
                      (filter (λ n, n ≠ entry.1) <$> imageObserver x) x))).

Definition preloadCriticalImages (urls : list string) : M t unit :=
  match urls with
  | [] => mret ()
  | _ =>
      for_each urls (λ url,
        _ ← create_element
              (Element "link" (Some Head)
                 (<["href" := url]> (<["as" := "image"]> {["rel" := "preload"]})) [] ∅ "");
        mret ());;
      console_call Log ["⚡ Precargadas " +:+ pretty (length urls) +:+ " imágenes críticas"]
  end.

Definition loadImagesInContainer (containerSelector : selector) (shown : string)
  : M t unit :=
  container ← browse (λ b, querySelector containerSelector (doc b));
  match container with
  | None => console_call Warn ["Contenedor no encontrado:"; shown]
  | Some c =>
      images ← browse (λ b, querySelectorAll_in c (SelTagAttr "img" "data-src") (doc b));
      for_each images loadImage;;
      console_call Log ["📸 Cargadas " +:+ pretty (length images) +:+ " imágenes en:"; shown]
  end.

Definition updateImageWithFade (img : node) (newSrc : string) : M t unit :=
  act (upd_elem (style_set "transition" "opacity 0.3s ease") img);;
  act (upd_elem (style_set "opacity" "0") img);;
  _ ← set_timeout (CbSwapSrc img newSrc) 300;
  mret ().

Record stats := Stats {
  total : nat;
  lazy : nat;
  loaded : nat;
  loading : nat;
  errors : nat;
  pending : Z;
  percentage : float
}.

Definition getLoadingStats : M t stats :=
  allImages ← browse (λ b, querySelectorAll (SelTag "img") (doc b));
  lazyImages ← browse (λ b, querySelectorAll (SelTagAttr "img" "data-src") (doc b));
  loadedImages ← browse (λ b, querySelectorAll (SelClass (loadedClass CONFIG)) (doc b));
  errorImages ← browse (λ b, querySelectorAll (SelClass (errorClass CONFIG)) (doc b));
  loadingImages ← browse (λ b, querySelectorAll (SelClass (loadingClass CONFIG)) (doc b));
  mret {|
    total := length allImages;
    lazy := length lazyImages;
    loaded := length loadedImages;
    loading := length loadingImages;
    errors := length errorImages;
    pending := (Z.of_nat (length lazyImages) - Z.of_nat (length loadedImages)
                - Z.of_nat (length errorImages))%Z;
    percentage :=
      Math_round (PrimFloat.mul
                    (PrimFloat.div (number_of_nat (length loadedImages))
                                   (number_of_nat (length allImages)))
                    100%float)
  |}.

Definition cleanup : M t unit :=
  modify (set_imageObserver None);;
  modify (set_retryMap (λ _, ∅));;
  console_call Log ["🧹 Image Loader limpiado"].

Definition loadPlaceholders : M t unit := initImageLoader.

(** The module's top-level code.  While the document is loading the
    initialisation waits for [DOMContentLoaded] ([onDOMContentLoaded]). *)
Definition autoInit : M t unit :=
  rs ← browse readyState;
  if bool_decide (rs = "loading") then mret () else initImageLoader.

Definition onDOMContentLoaded : M t unit := initImageLoader.

(** The browser reports the outcome of the [i]-th pending load. *)
Definition complete (i : nat) (ok : bool) : M t unit :=
  ls ← browse loads;
  match ls !! i with
  | Some l =>
      act (upd_loads (delete i));;
      if ok then handleImageLoaded (pl_img l) (pl_src l) (pl_srcset l)
      else handleImageError (pl_img l) (pl_src l)
  | None => mret ()
  end.

Definition run_callback (cb : callback) : M t unit :=
  match cb with
  | CbLoadImage img => loadImage img
  | CbSwapSrc img src =>
      (* the [load] listener installed next only restores the opacity *)
      act (upd_elem (setAttribute "src" src) img)
  | _ => mret ()
  end.

(** A timer fires: it leaves the pending list, then its function runs. *)
Definition fire (id : nat) : M t unit :=
  ts ← browse timers;
  match list_find (λ x, timer_id x = id) ts with
  | Some (_, tm) =>
      act (upd_timers (filter (λ x, timer_id x ≠ id)));;
      act (λ b, set_clock (Z.max (clock b) (due tm)) b);;
      run_callback (timer_cb tm)
  | None => mret ()
  end.

(** Every function of the module and every callback it registers. *)
Inductive operation :=
| InitImageLoader
| ObserveImages
| HandleIntersection (entries : list (node * bool))
| LoadImage (img : node)
| HandleImageLoaded (img : node) (src : string) (srcset : option string)
| HandleImageError (img : node) (src : string)
| LoadAllImagesImmediately
| PreloadCriticalImages (urls : list string)
| LoadImagesInContainer (containerSelector : selector) (shown : string)
| UpdateImageWithFade (img : node) (newSrc : string)
| GetLoadingStats
| Cleanup
| LoadPlaceholders
| AutoInit
| Complete (i : nat) (ok : bool)
| Fire (id : nat).

Definition run (o : operation) : M t unit :=
  match o with
  | InitImageLoader => initImageLoader
  | ObserveImages => observeImages
  | HandleIntersection es => handleIntersection es
  | LoadImage img => loadImage img
  | HandleImageLoaded img src srcset => handleImageLoaded img src srcset
  | HandleImageError img src => handleImageError img src
  | LoadAllImagesImmediately => loadAllImagesImmediately
  | PreloadCriticalImages urls => preloadCriticalImages urls
  | LoadImagesInContainer sel shown => loadImagesInContainer sel shown
  | UpdateImageWithFade img src => updateImageWithFade img src
  | GetLoadingStats => _ ← getLoadingStats; mret ()
  | Cleanup => cleanup
  | LoadPlaceholders => loadPlaceholders
  | AutoInit => autoInit
  | Complete i ok => complete i ok
  | Fire id => fire id
  end.

End ImageLoader.

(** * js/main.js *)

(** [s.split('/').pop()] *)
Fixpoint last_segment (acc s : string) : string :=
  match s with
  | EmptyString => acc
  | String c r =>
      if bool_decide (c = "/"%char) then last_segment "" r
      else last_segment (acc +:+ String c "") r
  end.

(** [s.replace(pat, '')]: the first occurrence of [pat] is removed. *)
Fixpoint remove_first (pat s : string) : string :=
  if String.prefix pat s then String.substring (String.length pat)
                                (String.length s - String.length pat) s
  else match s with
       | EmptyString => EmptyString
       | String c r => String c (remove_first pat r)
       end.

Module Main.

Record features_t := Features {
  lazyLoading : bool;
  darkMode : bool;
  analytics : bool
}.

Record config := Config {
  name : string;
  version : string;
  debug : bool;
  features : features_t
}.

(** [APP_CONFIG]; [debug] is read from [window.location] when the module is
    evaluated, and the location does not change while the page lives. *)
Definition APP_CONFIG (b : browser) : config := {|
  name := "AcuarelaArte";
  version := "1.0.0";
  debug := bool_decide (hostname b = "localhost");
  features := {| lazyLoading := true; darkMode := true; analytics := false |}
|}.

Record state_t := State {
  isInitialized : bool;
  currentPage : string;
  theme : string;
  menuOpen : bool
}.

Section app.
(** The classes of [Gallery.js], [Lightbox.js] and [FormValidator.js] are
    not part of the scripts at hand: their instances are of an unknown
    type, and their constructors and [cleanup] are unknown code. *)
Variable component : Type.
Variable Gallery : browser → result component * browser.
Variable Lightbox : browser → result component * browser.
Variable FormValidator : string → browser → result component * browser.
Variable component_cleanup : component → browser → result unit * browser.
(** The text of [`translateY(${-(scrolled * speed)}px)`] for a
    [data-parallax] value and a scroll offset. *)
Variable translateY : option string → float → string.

Record modules_t := Modules {
  themeToggle : option ThemeToggle.t;
  responsiveMenu : option ResponsiveMenu.t;
  gallery : option component;
  lightbox : option component;
  formValidator : option component
}.

(** The application object together with what the modules it imports keep
    at top level, and the listeners it has registered. *)
Record t := App {
  state : state_t;
  modules : modules_t;
  loader : ImageLoader.t;                        (* imageLoader.js variables *)
  window_responsiveMenu : option ResponsiveMenu.t;
  menuModuleEvaluated : bool;                    (* ResponsiveMenu.js has run *)
  waitingForDOM : bool;                          (* DOMContentLoaded listener *)
  animated : list node;                          (* scroll-animation observer *)
  parallax : list node;
  accordions : list node;
  anchors : list node;
  imageErrorListener : bool;
  statsInterval : option nat
}.

Definition upd_state (f : state_t → state_t) (a : t) : t :=
  App (f (state a)) (modules a) (loader a) (window_responsiveMenu a)
      (menuModuleEvaluated a) (waitingForDOM a) (animated a) (parallax a)
      (accordions a) (anchors a) (imageErrorListener a) (statsInterval a).

Definition upd_modules (f : modules_t → modules_t) (a : t) : t :=
  App (state a) (f (modules a)) (loader a) (window_responsiveMenu a)
      (menuModuleEvaluated a) (waitingForDOM a) (animated a) (parallax a)
      (accordions a) (anchors a) (imageErrorListener a) (statsInterval a).

Definition set_loader (l : ImageLoader.t) (a : t) : t :=
  App (state a) (modules a) l (window_responsiveMenu a)
      (menuModuleEvaluated a) (waitingForDOM a) (animated a) (parallax a)
      (accordions a) (anchors a) (imageErrorListener a) (statsInterval a).

Definition set_window_responsiveMenu (m : option ResponsiveMenu.t) (a : t) : t :=
  App (state a) (modules a) (loader a) m
      (menuModuleEvaluated a) (waitingForDOM a) (animated a) (parallax a)
      (accordions a) (anchors a) (imageErrorListener a) (statsInterval a).

Definition set_menuModuleEvaluated (v : bool) (a : t) : t :=
  App (state a) (modules a) (loader a) (window_responsiveMenu a)
      v (waitingForDOM a) (animated a) (parallax a)
      (accordions a) (anchors a) (imageErrorListener a) (statsInterval a).

Definition set_waitingForDOM (v : bool) (a : t) : t :=
  App (state a) (modules a) (loader a) (window_responsiveMenu a)
      (menuModuleEvaluated a) v (animated a) (parallax a)
      (accordions a) (anchors a) (imageErrorListener a) (statsInterval a).

Definition set_animated (v : list node) (a : t) : t :=
  App (state a) (modules a) (loader a) (window_responsiveMenu a)
      (menuModuleEvaluated a) (waitingForDOM a) v (parallax a)
      (accordions a) (anchors a) (imageErrorListener a) (statsInterval a).

Definition set_parallax (v : list node) (a : t) : t :=
  App (state a) (modules a) (loader a) (window_responsiveMenu a)
      (menuModuleEvaluated a) (waitingForDOM a) (animated a) v
      (accordions a) (anchors a) (imageErrorListener a) (statsInterval a).

Definition set_accordions (v : list node) (a : t) : t :=
  App (state a) (modules a) (loader a) (window_responsiveMenu a)
      (menuModuleEvaluated a) (waitingForDOM a) (animated a) (parallax a)
      v (anchors a) (imageErrorListener a) (statsInterval a).

Definition set_anchors (v : list node) (a : t) : t :=
  App (state a) (modules a) (loader a) (window_responsiveMenu a)
      (menuModuleEvaluated a) (waitingForDOM a) (animated a) (parallax a)
      (accordions a) v (imageErrorListener a) (statsInterval a).

Definition set_imageErrorListener (v : bool) (a : t) : t :=
  App (state a) (modules a) (loader a) (window_responsiveMenu a)
      (menuModuleEvaluated a) (waitingForDOM a) (animated a) (parallax a)
      (accordions a) (anchors a) v (statsInterval a).

Definition set_statsInterval (v : option nat) (a : t) : t :=
  App (state a) (modules a) (loader a) (window_responsiveMenu a)
      (menuModuleEvaluated a) (waitingForDOM a) (animated a) (parallax a)
      (accordions a) (anchors a) (imageErrorListener a) v.

Definition set_themeToggle (v : option ThemeToggle.t) (m : modules_t) : modules_t :=
  Modules v (responsiveMenu m) (gallery m) (lightbox m) (formValidator m).
Definition set_responsiveMenu (v : option ResponsiveMenu.t) (m : modules_t) : modules_t :=
  Modules (themeToggle m) v (gallery m) (lightbox m) (formValidator m).
Definition set_gallery (v : option component) (m : modules_t) : modules_t :=
  Modules (themeToggle m) (responsiveMenu m) v (lightbox m) (formValidator m).
Definition set_lightbox (v : option component) (m : modules_t) : modules_t :=
  Modules (themeToggle m) (responsiveMenu m) (gallery m) v (formValidator m).
Definition set_formValidator (v : option component) (m : modules_t) : modules_t :=
  Modules (themeToggle m) (responsiveMenu m) (gallery m) (lightbox m) v.

Definition set_isInitialized (v : bool) (s : state_t) : state_t :=
  State v (currentPage s) (theme s) (menuOpen s).
Definition set_theme (v : string) (s : state_t) : state_t :=
  State (isInitialized s) (currentPage s) v (menuOpen s).

(** The module variables of imageLoader.js before its code runs, no
    [window.responsiveMenu], and an application object not yet built. *)
Definition fresh : t :=
  App (State false "" "" false) (Modules None None None None None)
      ImageLoader.initial None false false [] [] [] [] false None.

Definition log (args : list string) : M t unit :=
  dbg ← browse (λ b, debug (APP_CONFIG b));
  when dbg (console_call Log ("[AcuarelaArte]" :: args)).

Definition getCurrentPage : M t string :=
  path ← browse pathname;
  let page := remove_first ".html" (last_segment "" path) in
  mret (if bool_decide (page = "") then "index" else page).

Definition getCriticalImages : M t (list string) :=
  heroImage ← browse (λ b, querySelector (SelClass "hero-img") (doc b));
  match heroImage with
  | Some h =>
      src ← browse (attr h "data-src");
      if ImageLoader.nonempty src then mret [default "" src] else mret []
  | None => mret []
  end.

Definition in_loader {A} (m : M ImageLoader.t A) : M t A := zoom loader set_loader m.

Definition loadCoreModules : M t unit :=
  log ["📦 Cargando módulos core..."];;
  lazyOn ← browse (λ b, lazyLoading (features (APP_CONFIG b)));
  when lazyOn
    (in_loader ImageLoader.initImageLoader;;
     criticalImages ← getCriticalImages;
     when (bool_decide (0 < length criticalImages))
       (in_loader (ImageLoader.preloadCriticalImages criticalImages)));;
  themeToggleEl ← browse (λ b, getElementById "themeToggle" (doc b));
  darkOn ← browse (λ b, darkMode (features (APP_CONFIG b)));
  when (bool_decide (is_Some themeToggleEl) && darkOn)
    (import "./components/ThemeToggle.js";;
     x ← new ThemeToggle.fresh ThemeToggle.constructor;
     modify (upd_modules (set_themeToggle (Some x))));;
  menuToggleEl ← browse (λ b, getElementById "menuToggle" (doc b));
  when (bool_decide (is_Some menuToggleEl))
    (import "./components/ResponsiveMenu.js";;
     evaluated ← gets menuModuleEvaluated;
     when (negb evaluated)
       (modify (set_menuModuleEvaluated true);;
        zoom window_responsiveMenu set_window_responsiveMenu ResponsiveMenu.autoInit);;
     x ← new ResponsiveMenu.fresh ResponsiveMenu.constructor;
     modify (upd_modules (set_responsiveMenu (Some x))));;
  log ["✅ Módulos core cargados"].

(** [loadCoreModules] as the second copy of main.js has it
    (src/unnamed/part_003): the block of the responsive menu is commented
    out there. *)
Definition loadCoreModules_part_003 : M t unit :=
  log ["📦 Cargando módulos core..."];;
  lazyOn ← browse (λ b, lazyLoading (features (APP_CONFIG b)));
  when lazyOn
    (in_loader ImageLoader.initImageLoader;;
     criticalImages ← getCriticalImages;
     when (bool_decide (0 < length criticalImages))
       (in_loader (ImageLoader.preloadCriticalImages criticalImages)));;
  themeToggleEl ← browse (λ b, getElementById "themeToggle" (doc b));
  darkOn ← browse (λ b, darkMode (features (APP_CONFIG b)));
  when (bool_decide (is_Some themeToggleEl) && darkOn)
    (import "./components/ThemeToggle.js";;
     x ← new ThemeToggle.fresh ThemeToggle.constructor;
     modify (upd_modules (set_themeToggle (Some x))));;
  log ["✅ Módulos core cargados"].

Definition initScrollAnimations : M t unit :=
  els ← browse (λ b, querySelectorAll (SelClass "fade-in-up") (doc b));
  match els with
  | [] => mret ()
  | _ =>
      io ← browse hasIntersectionObserver;
      if negb io then throw (ReferenceError "IntersectionObserver")
      else modify (set_animated els)
  end.

Definition initParallax : M t unit :=
  els ← browse (λ b, querySelectorAll (SelAttr "data-parallax") (doc b));
  modify (set_parallax els).

Definition initAccordions : M t unit :=
  buttons ← browse (λ b, querySelectorAll (SelClass "expand-technique") (doc b));
  modify (set_accordions buttons).

Definition initTimeline : M t unit := mret ().

Definition loadHomeModules : M t unit :=
  log ["🏠 Cargando módulos de Home..."];;
  initScrollAnimations;;
  parallaxElements ← browse (λ b, querySelectorAll (SelAttr "data-parallax") (doc b));
  when (bool_decide (0 < length parallaxElements)) initParallax.

Definition loadPortfolioModules : M t unit :=
  log ["🖼️ Cargando módulos de Portafolio..."];;
  galleryElement ← browse (λ b, getElementById "galleryGrid" (doc b));
  when (bool_decide (is_Some galleryElement))
    (import "./components/Gallery.js";;
     x ← external Gallery;
     modify (upd_modules (set_gallery (Some x))));;
  lightboxElement ← browse (λ b, getElementById "lightbox" (doc b));
  when (bool_decide (is_Some lightboxElement))
    (import "./components/Lightbox.js";;
     x ← external Lightbox;
     modify (upd_modules (set_lightbox (Some x)))).

Definition loadTechniquesModules : M t unit :=
  log ["📚 Cargando módulos de Técnicas..."];;
  initAccordions.

Definition loadProgressModules : M t unit :=
  log ["📈 Cargando módulos de Progreso..."];;
  initTimeline.

Definition loadContactModules : M t unit :=
  log ["📧 Cargando módulos de Contacto..."];;
  contactForm ← browse (λ b, getElementById "contactForm" (doc b));
  when (bool_decide (is_Some contactForm))
    (import "./components/FormValidator.js";;
     x ← external (FormValidator "contactForm");
     modify (upd_modules (set_formValidator (Some x)))).

Definition loadMaterialsModules : M t unit :=
  log ["🛒 Cargando módulos de Materiales..."].

Definition loadPageModules : M t unit :=
  page ← gets (λ a, currentPage (state a));
  log ["📄 Cargando módulos para: " +:+ page];;
  if bool_decide (page = "index") then loadHomeModules
  else if bool_decide (page = "portafolio") then loadPortfolioModules
  else if bool_decide (page = "tecnicas") then loadTechniquesModules
  else if bool_decide (page = "progreso") then loadProgressModules
  else if bool_decide (page = "contacto") then loadContactModules
  else if bool_decide (page = "materiales") then loadMaterialsModules
  else log ["⚠️ Página sin módulos específicos"].

Definition initSmoothScroll : M t unit :=
  links ← browse (λ b, querySelectorAll (SelTagAttrPrefix "a" "href" "#") (doc b));
  modify (set_anchors links).

Definition handleImageErrors : M t unit := modify (set_imageErrorListener true).

Definition initPerformanceMonitoring : M t unit :=
  id ← set_timeout CbStats 5000;
  modify (set_statsInterval (Some id)).

Definition initGlobalListeners : M t unit :=
  initSmoothScroll;;
  handleImageErrors;;
  dbg ← browse (λ b, debug (APP_CONFIG b));
  when dbg initPerformanceMonitoring.

Definition applyTheme (th : string) : M t unit :=
  act (upd_elem (setAttribute "data-theme" th) Html);;
  modify (upd_state (set_theme th)).

Definition handleInitError (error : exn) : M t unit :=
  _ ← create_element
        (Element "div" (Some Body) ∅ ["init-error"] ∅
           "<p>⚠️ Error al cargar la aplicación. Por favor, recarga la página.</p><button onclick='location.reload()'>Recargar</button>");
  mret ().

(** The [try] block of [init]. *)
Definition init_try : M t unit :=
  log ["🚀 Inicializando AcuarelaArte App..."];;
  loadCoreModules;;
  loadPageModules;;
  initGlobalListeners;;
  th ← gets (λ a, theme (state a));
  applyTheme th;;
  modify (upd_state (set_isInitialized true));;
  log ["✅ App inicializada correctamente"];;
  page ← gets (λ a, currentPage (state a));
  log ["📄 Página actual: " +:+ page];;
  dispatchEvent (CustomEvent "appInitialized" None DAppInitialized).

(** The [catch] block of [init]. *)
Definition init_catch (error : exn) : M t unit :=
  console_call Error ["❌ Error inicializando aplicación:"; exn_text error];;
  handleInitError error.

Definition init : M t unit := try_catch init_try init_catch.

Definition constructor : M t unit :=
  page ← getCurrentPage;
  saved ← browse (λ b, localStorage b !! "theme");
  let th := if ImageLoader.nonempty saved then default "" saved else "light" in
  modify (upd_state (λ _, State false page th false));;
  modify (upd_modules (λ _, Modules None None None None None));;
  rs ← browse readyState;
  if bool_decide (rs = "loading") then modify (set_waitingForDOM true) else init.

(** The module's code: the static import of imageLoader.js is evaluated
    first, then the application object is built. *)
Definition main : M t unit :=
  in_loader ImageLoader.autoInit;;
  constructor.

Definition onDOMContentLoaded : M t unit :=
  in_loader ImageLoader.onDOMContentLoaded;;
  w ← gets waitingForDOM;
  when w init.

(** The listener of [imageError] on [document]. *)
Definition onImageError (shown : string) : M t unit :=
  l ← gets imageErrorListener;
  when l (log ["⚠️ Error cargando imagen:"; shown]).

(** The callback of the scroll-animation observer. *)
Definition onAnimate (entries : list (node * bool)) : M t unit :=
  for_each entries (λ entry,
    when entry.2
      (act (upd_elem (classList_add "animate-in") entry.1);;
       modify (λ a, set_animated (filter (λ n, n ≠ entry.1) (animated a)) a))).

(** The [scroll] listener of initParallax, at [window.pageYOffset = scrolled]. *)
Definition onScroll (scrolled : float) : M t unit :=
  els ← gets parallax;
  for_each els (λ el,
    speed ← browse (attr el "data-parallax");
    act (upd_elem (style_set "transform" (translateY speed scrolled)) el)).

(** The [click] listener of an accordion button whose previous sibling is
    [content]. *)
Definition onAccordionClick (button : node) (content : option node) : M t unit :=
  expanded ← browse (attr button "aria-expanded");
  let isExpanded := bool_decide (expanded = Some "true") in
  act (upd_elem (setAttribute "aria-expanded" (to_string (JBool (negb isExpanded))))
                button);;
  c ← deref "style" content;
  act (upd_elem (style_set "display" (if isExpanded then "none" else "block")) c);;
  act (upd_elem (set_innerHTML (if isExpanded then "Ver Tutorial Completo"
                                else "Ocultar Tutorial")) button).

(** The interval of initPerformanceMonitoring. *)
Definition onStatsInterval : M t unit :=
  _ ← in_loader ImageLoader.getLoadingStats;
  log ["📊 Image Loading Stats:"; "[object Object]"].

Definition cleanup : M t unit :=
  ms ← gets modules;
  let clean (o : option component) : M t unit :=
    match o with
    | Some c => external (component_cleanup c)
    | None => mret ()
    end in
  clean (gallery ms);;
  clean (lightbox ms);;
  clean (formValidator ms).

(** Every method of the class and every listener it registers; the
    smooth-scroll listener only scrolls the viewport, which is not part of
    the browser state here. *)
Inductive operation :=
| MainModule
| Constructor
| Init
| LoadCoreModules
| LoadPageModules
| LoadHomeModules
| LoadPortfolioModules
| LoadTechniquesModules
| LoadProgressModules
| LoadContactModules
| LoadMaterialsModules
| InitGlobalListeners
| InitSmoothScroll
| HandleImageErrors
| InitScrollAnimations
| InitParallax
| InitAccordions
| InitTimeline
| InitPerformanceMonitoring
| GetCurrentPage
| GetCriticalImages
| ApplyTheme (th : string)
| HandleInitError (error : exn)
| LogArgs (args : list string)
| Cleanup
| OnDOMContentLoaded
| OnImageError (shown : string)
| OnAnimate (entries : list (node * bool))
| OnScroll (scrolled : float)
| OnAccordionClick (button : node) (content : option node)
| OnStatsInterval.

Definition run (o : operation) : M t unit :=
  match o with
  | MainModule => main
  | Constructor => constructor
  | Init => init
  | LoadCoreModules => loadCoreModules
  | LoadPageModules => loadPageModules
  | LoadHomeModules => loadHomeModules
  | LoadPortfolioModules => loadPortfolioModules
  | LoadTechniquesModules => loadTechniquesModules
  | LoadProgressModules => loadProgressModules
  | LoadContactModules => loadContactModules
  | LoadMaterialsModules => loadMaterialsModules
  | InitGlobalListeners => initGlobalListeners
  | InitSmoothScroll => initSmoothScroll
  | HandleImageErrors => handleImageErrors
  | InitScrollAnimations => initScrollAnimations
  | InitParallax => initParallax
  | InitAccordions => initAccordions
  | InitTimeline => initTimeline
  | InitPerformanceMonitoring => initPerformanceMonitoring
  | GetCurrentPage => _ ← getCurrentPage; mret ()
  | GetCriticalImages => _ ← getCriticalImages; mret ()
  | ApplyTheme th => applyTheme th
  | HandleInitError e => handleInitError e
  | LogArgs args => log args
  | Cleanup => cleanup
  | OnDOMContentLoaded => onDOMContentLoaded
  | OnImageError shown => onImageError shown
  | OnAnimate es => onAnimate es
  | OnScroll y => onScroll y
  | OnAccordionClick b c => onAccordionClick b c
  | OnStatsInterval => onStatsInterval
  end.
End app.

Arguments App {component}.
Arguments Modules {component}.
Arguments state {component}.
Arguments modules {component}.
Arguments loader {component}.
Arguments window_responsiveMenu {component}.
Arguments menuModuleEvaluated {component}.
Arguments waitingForDOM {component}.
Arguments animated {component}.
Arguments parallax {component}.
Arguments accordions {component}.
Arguments anchors {component}.
Arguments imageErrorListener {component}.
Arguments statsInterval {component}.
Arguments themeToggle {component}.
Arguments responsiveMenu {component}.
Arguments gallery {component}.
Arguments lightbox {component}.
Arguments formValidator {component}.

End Main.

(** * Sample pages

    Concrete pages on which the theorems below are instantiated. *)

Module Samples.

Definition el (t : string) (p : node) (a : list (string * string)) (c : list string)
  : element :=
  Element t (Some p) (list_to_map a) c ∅ "".

(** A page with the menu, the theme button and two lazy images. *)
Definition page_doc : document := {|
  html := Element "html" None ∅ [] ∅ "";
  head := Element "head" (Some Html) ∅ [] ∅ "";
  body := Element "body" (Some Html) ∅ [] ∅ "";
  others := [
    el "button" Body [("id", "menuToggle")] [];                          (* Elem 0 *)
    el "nav" Body [("id", "navMenu")] [];                                (* Elem 1 *)
    el "a" (Elem 1) [("href", "index.html")] ["nav-link"];               (* Elem 2 *)
    el "a" (Elem 1) [("href", "#obras")] ["nav-link"];                   (* Elem 3 *)
    el "button" Body [("id", "themeToggle")] [];                         (* Elem 4 *)
    el "img" Body [("data-src", "a.jpg"); ("data-fallback", "f.jpg")] []; (* Elem 5 *)
    el "img" Body [("data-src", "b.jpg"); ("data-fallback", "")] []      (* Elem 6 *)
  ]
|}.

Definition page : browser := {|
  doc := page_doc;
  localStorage := ∅;
  console := [];
  dispatched := [];
  timers := [];
  nextTimer := 0;
  clock := 0;
  frames := [];
  loads := [];
  activeElement := None;
  innerWidth := 1280;
  matchMedia := Some true;
  hasIntersectionObserver := true;
  hostname := "localhost";
  pathname := "/portafolio.html";
  resolvable := ["./components/ThemeToggle.js"; "./components/ResponsiveMenu.js"];
  readyState := "complete"
|}.

Definition with_doc (d : document) : browser := upd_doc (λ _, d) page.

(** A document without any element besides the three every document has. *)
Definition bare_doc : document := {|
  html := Element "html" None ∅ [] ∅ "";
  head := Element "head" (Some Html) ∅ [] ∅ "";
  body := Element "body" (Some Html) ∅ [] ∅ "";
  others := []
|}.

Definition menu : ResponsiveMenu.t :=
  ResponsiveMenu.Menu (Some (Elem 0)) (Some (Elem 1)) Body false 1024 None true.

(** The menu the constructor builds on the page. *)
Definition menu_state : st ResponsiveMenu.t :=
  (ResponsiveMenu.constructor (St ResponsiveMenu.fresh page)).2.


(** No image, and one element that carries the class of loaded images. *)
Definition stray_doc : document := {|
  html := Element "html" None ∅ [] ∅ "";
  head := Element "head" (Some Html) ∅ [] ∅ "";
  body := Element "body" (Some Html) ∅ [] ∅ "";
  others := [el "div" Body [] ["image-loaded"]]
|}.

(** The home page, with an element named [galleryGrid] on it. *)
Definition home_doc : document := {|
  html := Element "html" None ∅ [] ∅ "";
  head := Element "head" (Some Html) ∅ [] ∅ "";
  body := Element "body" (Some Html) ∅ [] ∅ "";
  others := [el "div" Body [("id", "galleryGrid")] []]
|}.

Definition home : browser := {|
  doc := home_doc;
  localStorage := ∅;
  console := [];
  dispatched := [];
  timers := [];
  nextTimer := 0;
  clock := 0;
  frames := [];
  loads := [];
  activeElement := None;
  innerWidth := 1280;
  matchMedia := Some false;
  hasIntersectionObserver := true;
  hostname := "acuarelaarte.example";
  pathname := "/index.html";
  resolvable := ["./components/ThemeToggle.js"; "./components/ResponsiveMenu.js";
                 "./components/Gallery.js"; "./components/Lightbox.js";
                 "./components/FormValidator.js"];
  readyState := "complete"
|}.


(** Stand-ins for the classes that are not at hand: an instance is a unit,
    building one does nothing. *)
Definition no_component : browser → result unit * browser := λ b, (Ok (), b).

Definition app_main : M (Main.t unit) unit :=
  Main.main unit no_component no_component (λ _, no_component).

Definition app_init : M (Main.t unit) unit :=
  Main.init unit no_component no_component (λ _, no_component).

(** The application object as the constructor leaves it on the portfolio page. *)
Definition app : Main.t unit :=
  Main.App (Main.State false "portafolio" "light" false)
           (Main.Modules None None None None None)
           ImageLoader.initial None false false [] [] [] [] false None.

Definition toggle : ThemeToggle.t :=
  ThemeToggle.Toggle (Some (Elem 4)) Html None true true.

End Samples.

(** * Part II: properties *)

(** ** Lists *)

Section list_facts.
Context {A : Type} (P : A → Prop) `{!∀ x, Decision (P x)}.

Lemma filter_none (l : list A) : (∀ x, x ∈ l → ¬ P x) → filter P l = [].
Proof.
  induction l as [|x l IH]; [done|]. intros Hl.
  rewrite filter_cons_False by (apply Hl; left).
  apply IH. intros y Hy. apply Hl. by right.
Qed.

End list_facts.

(** ** Elements under the primitive updates *)

Section element_facts.
Implicit Types (e : element) (c k v : string).

Lemma contains_class_add c c' e :
  contains_class c (classList_add c' e) = bool_decide (c = c') || contains_class c e.
Proof.
  unfold classList_add. destruct (contains_class c' e) eqn:Hc'.
  - destruct (decide (c = c')) as [->|Hne].
    + by rewrite Hc', bool_decide_eq_true_2.
    + by rewrite (bool_decide_eq_false_2 _ Hne).
  - unfold contains_class in *. simpl.
    apply bool_decide_eq_false in Hc'.
    apply eq_true_iff_eq.
    rewrite orb_true_iff, !bool_decide_eq_true, elem_of_app, list_elem_of_singleton.
    tauto.
Qed.

Lemma contains_class_remove c c' e :
  contains_class c (classList_remove c' e) = bool_decide (c ≠ c') && contains_class c e.
Proof.
  unfold classList_remove, contains_class. simpl.
  apply eq_true_iff_eq.
  rewrite andb_true_iff, !bool_decide_eq_true, list_elem_of_filter.
  tauto.
Qed.

Lemma contains_class_setAttribute c k v e :
  contains_class c (setAttribute k v e) = contains_class c e.
Proof. done. Qed.

Lemma contains_class_removeAttribute c k e :
  contains_class c (removeAttribute k e) = contains_class c e.
Proof. done. Qed.

Lemma contains_class_style_set c k v e :
  contains_class c (style_set k v e) = contains_class c e.
Proof. done. Qed.

Lemma getAttribute_setAttribute k k' v e :
  getAttribute k (setAttribute k' v e)
  = if decide (k' = k) then Some v else getAttribute k e.
Proof. unfold getAttribute. simpl. apply lookup_insert. Qed.

Lemma getAttribute_removeAttribute k k' e :
  getAttribute k (removeAttribute k' e)
  = if decide (k' = k) then None else getAttribute k e.
Proof. unfold getAttribute. simpl. apply lookup_delete. Qed.

Lemma getAttribute_classList_add k c e :
  getAttribute k (classList_add c e) = getAttribute k e.
Proof. unfold classList_add. by destruct (contains_class c e). Qed.

Lemma getAttribute_classList_remove k c e :
  getAttribute k (classList_remove c e) = getAttribute k e.
Proof. done. Qed.

Lemma getAttribute_style_set k k' v e :
  getAttribute k (style_set k' v e) = getAttribute k e.
Proof. done. Qed.

Lemma style_get_style_set k k' v e :
  style_get k (style_set k' v e) = if decide (k' = k) then v else style_get k e.
Proof.
  unfold style_get, style_set. simpl.
  case_bool_decide as Hv.
  - rewrite lookup_delete. destruct (decide (k' = k)); simpl; congruence.
  - rewrite lookup_insert. by destruct (decide (k' = k)).
Qed.

Lemma style_get_classList_add k c e : style_get k (classList_add c e) = style_get k e.
Proof. unfold classList_add. by destruct (contains_class c e). Qed.

Lemma style_get_classList_remove k c e : style_get k (classList_remove c e) = style_get k e.
Proof. done. Qed.

Lemma style_get_setAttribute k k' v e : style_get k (setAttribute k' v e) = style_get k e.
Proof. done. Qed.

Lemma style_get_removeAttribute k k' e : style_get k (removeAttribute k' e) = style_get k e.
Proof. done. Qed.
End element_facts.

Create Rewrite HintDb elem_rw.
#[global] Hint Rewrite contains_class_add contains_class_remove
  contains_class_setAttribute contains_class_removeAttribute contains_class_style_set
  getAttribute_setAttribute getAttribute_removeAttribute
  getAttribute_classList_add getAttribute_classList_remove getAttribute_style_set
  style_get_style_set style_get_classList_add style_get_classList_remove
  style_get_setAttribute style_get_removeAttribute : elem_rw.

(** ** The store under the browser updates *)

Section store_facts.
Implicit Types (b : browser) (d : document) (n : node) (f : element → element).

Lemma lookup_alter_node f n n' d :
  lookup_node n (alter_node f n' d)
  = if decide (n' = n) then f <$> lookup_node n d else lookup_node n d.
Proof.
  destruct n, n'; simpl; try done.
  rewrite list_lookup_alter. repeat case_decide; naive_solver.
Qed.

Lemma elem_upd_elem f n n' b :
  elem n (upd_elem f n' b)
  = if decide (n' = n) then f <$> elem n b else elem n b.
Proof. apply lookup_alter_node. Qed.

Lemma elem_upd_console g n b : elem n (upd_console g b) = elem n b.
Proof. done. Qed.
Lemma elem_upd_storage g n b : elem n (upd_storage g b) = elem n b.
Proof. done. Qed.
Lemma elem_upd_dispatched g n b : elem n (upd_dispatched g b) = elem n b.
Proof. done. Qed.
Lemma elem_upd_timers g n b : elem n (upd_timers g b) = elem n b.
Proof. done. Qed.
Lemma elem_upd_frames g n b : elem n (upd_frames g b) = elem n b.
Proof. done. Qed.
Lemma elem_upd_loads g n b : elem n (upd_loads g b) = elem n b.
Proof. done. Qed.
Lemma elem_set_activeElement o n b : elem n (set_activeElement o b) = elem n b.
Proof. done. Qed.
Lemma elem_set_clock z n b : elem n (set_clock z b) = elem n b.
Proof. done. Qed.
Lemma elem_setTimeout cb z n b : elem n (setTimeout cb z b).2 = elem n b.
Proof. done. Qed.
Lemma elem_clearTimeout o n b : elem n (clearTimeout o b) = elem n b.
Proof. by destruct o. Qed.

Lemma live_alter_node f n n' d : live n d → live n (alter_node f n' d).
Proof.
  unfold live. rewrite lookup_alter_node.
  case_decide; [rewrite fmap_is_Some|]; done.
Qed.
End store_facts.

#[global] Hint Rewrite elem_upd_elem elem_upd_console elem_upd_storage
  elem_upd_dispatched elem_upd_timers elem_upd_frames elem_upd_loads
  elem_set_activeElement elem_set_clock elem_setTimeout elem_clearTimeout : elem_rw.

(** ** Relations every step of a method respects *)

(** [stable R m]: whatever [m] does, and whether it returns or throws, the
    state it ends in is related by [R] to the state it started from. *)
Definition stable {S A} (R : relation (st S)) (m : M S A) : Prop :=
  ∀ s, R s (m s).2.

Section stable.
Context {S : Type} (R : relation (st S)) `{!PreOrder R}.

Lemma stable_ret {A} (a : A) : stable R (mret a).
Proof. intros s. simpl. reflexivity. Qed.

Lemma stable_throw {A} e : stable R (throw e : M S A).
Proof. intros s. simpl. reflexivity. Qed.

Lemma stable_bind {A B} (m : M S A) (f : A → M S B) :
  stable R m → (∀ a, stable R (f a)) → stable R (m ≫= f).
Proof.
  intros Hm Hf s. unfold mbind, M_bind. specialize (Hm s).
  destruct (m s) as [[a|e] s1]; simpl in *; [|done].
  etrans; [exact Hm|apply Hf].
Qed.

Lemma stable_gets {A} (f : S → A) : stable R (gets f).
Proof. intros s. simpl. reflexivity. Qed.

Lemma stable_browse {A} (f : browser → A) : stable R (browse f).
Proof. intros s. simpl. reflexivity. Qed.

Lemma stable_deref what o : stable R (deref what o).
Proof. destruct o; [apply stable_ret|apply stable_throw]. Qed.

Lemma stable_when (c : bool) m : stable R m → stable R (when c m).
Proof. destruct c; [done|]. intros _. apply stable_ret. Qed.


Lemma stable_for_each {A} (l : list A) (f : A → M S unit) :
  (∀ x, stable R (f x)) → stable R (for_each l f).
Proof.
  intros Hf. induction l as [|x l IH]; simpl.
  - apply stable_ret.
  - apply stable_bind; [apply Hf|by intros _].
Qed.

Lemma stable_try_catch m h :
  stable R m → (∀ e, stable R (h e)) → stable R (try_catch m h).
Proof.
  intros Hm Hh s. unfold try_catch. specialize (Hm s).
  destruct (m s) as [[a|e] s1]; simpl in *; [done|].
  etrans; [exact Hm|apply Hh].
Qed.
End stable.

(** [preserves Q m]: the same for a relation [Q] on the browser alone. *)
Definition preserves {S A} (Q : relation browser) (m : M S A) : Prop :=
  stable (λ s s', Q (br s) (br s')) m.

Section preserves.
Context (Q : relation browser) `{!PreOrder Q}.

#[local] Instance preserves_preorder S : PreOrder (λ s s' : st S, Q (br s) (br s')).
Proof. split; [intros s; reflexivity|intros s1 s2 s3 ??; by etrans]. Qed.

Lemma preserves_ret {S A} (a : A) : preserves Q (mret a : M S A).
Proof. apply stable_ret, _. Qed.
Lemma preserves_throw {S A} e : preserves Q (throw e : M S A).
Proof. apply stable_throw, _. Qed.
Lemma preserves_bind {S A B} (m : M S A) (f : A → M S B) :
  preserves Q m → (∀ a, preserves Q (f a)) → preserves Q (m ≫= f).
Proof. apply stable_bind, _. Qed.
Lemma preserves_gets {S A} (f : S → A) : preserves Q (gets f).
Proof. apply stable_gets, _. Qed.
Lemma preserves_browse {S A} (f : browser → A) : preserves Q (browse f : M S A).
Proof. apply stable_browse, _. Qed.
Lemma preserves_modify {S} (f : S → S) : preserves Q (modify f).
Proof. intros s. simpl. reflexivity. Qed.
Lemma preserves_deref {S} what o : preserves Q (deref what o : M S node).
Proof. apply stable_deref, _. Qed.
Lemma preserves_when {S} (c : bool) (m : M S unit) :
  preserves Q m → preserves Q (when c m).
Proof. apply stable_when, _. Qed.
Lemma preserves_if {S A} (c : bool) (m1 m2 : M S A) :
  preserves Q m1 → preserves Q m2 → preserves Q (if c then m1 else m2).
Proof. by destruct c. Qed.
Lemma preserves_for_each {S A} (l : list A) (f : A → M S unit) :
  (∀ x, preserves Q (f x)) → preserves Q (for_each l f).
Proof. apply stable_for_each, _. Qed.
Lemma preserves_try_catch {S} (m : M S unit) h :
  preserves Q m → (∀ e, preserves Q (h e)) → preserves Q (try_catch m h).
Proof. apply stable_try_catch, _. Qed.

Lemma preserves_act {S} (f : browser → browser) :
  (∀ b, Q b (f b)) → preserves Q (act f : M S unit).
Proof. intros Hf s. simpl. apply Hf. Qed.

Lemma preserves_zoom {S T A} (get : S → T) set (m : M T A) :
  preserves Q m → preserves Q (zoom get set m).
Proof.
  intros Hm s. unfold zoom. specialize (Hm (St (get (this s)) (br s))).
  by destruct (m _) as [r s1].
Qed.

Lemma preserves_new {S T} (x : T) (ctor : M T unit) :
  preserves Q ctor → preserves Q (new x ctor : M S T).
Proof.
  intros Hm s. unfold new. specialize (Hm (St x (br s))).
  by destruct (ctor _) as [[|] s1].
Qed.

Lemma preserves_external {S A} (f : browser → result A * browser) :
  (∀ b, Q b (f b).2) → preserves Q (external f : M S A).
Proof.
  intros Hf s. unfold external. specialize (Hf (br s)).
  by destruct (f _) as [r b1].
Qed.
End preserves.

(** ** What a script observes of an element, under updates of the store *)

Section observations.
Implicit Types (b : browser) (n : node) (f : element → element) (c k v : string).

Lemma has_class_upd_frame n c f n' b :
  (∀ e, contains_class c (f e) = contains_class c e) →
  has_class n c (upd_elem f n' b) = has_class n c b.
Proof.
  intros Hf. unfold has_class. rewrite elem_upd_elem.
  destruct (decide (n' = n)); [|done]. by destruct (elem n b); simpl.
Qed.

Lemma has_class_upd_set n c f b (v : bool) :
  (∀ e, contains_class c (f e) = v) → live n (doc b) →
  has_class n c (upd_elem f n b) = v.
Proof.
  intros Hf [e He]. unfold has_class. rewrite elem_upd_elem, decide_True by done.
  unfold elem. rewrite He. simpl. apply Hf.
Qed.

Lemma attr_upd_frame n k f n' b :
  (∀ e, getAttribute k (f e) = getAttribute k e) →
  attr n k (upd_elem f n' b) = attr n k b.
Proof.
  intros Hf. unfold attr. rewrite elem_upd_elem.
  destruct (decide (n' = n)); [|done]. by destruct (elem n b); simpl.
Qed.

Lemma attr_upd_set n k f b o :
  (∀ e, getAttribute k (f e) = o) → live n (doc b) →
  attr n k (upd_elem f n b) = o.
Proof.
  intros Hf [e He]. unfold attr. rewrite elem_upd_elem, decide_True by done.
  unfold elem. rewrite He. simpl. apply Hf.
Qed.

Lemma style_of_upd_frame n k f n' b :
  (∀ e, style_get k (f e) = style_get k e) →
  style_of n k (upd_elem f n' b) = style_of n k b.
Proof.
  intros Hf. unfold style_of. rewrite elem_upd_elem.
  destruct (decide (n' = n)); [|done]. by destruct (elem n b); simpl.
Qed.

Lemma style_of_upd_set n k f b v :
  (∀ e, style_get k (f e) = v) → live n (doc b) →
  style_of n k (upd_elem f n b) = v.
Proof.
  intros Hf [e He]. unfold style_of. rewrite elem_upd_elem, decide_True by done.
  unfold elem. rewrite He. simpl. apply Hf.
Qed.

Lemma live_upd_elem n f n' b : live n (doc b) → live n (doc (upd_elem f n' b)).
Proof. apply live_alter_node. Qed.
End observations.

(** Side conditions of the lemmas above, for the primitive updates at
    literal class names and keys. *)
Ltac frame_side := intros ?; autorewrite with elem_rw; reflexivity.

(** ** Relations on the browser that the bookkeeping respects *)

(** A relation that ignores the console, the dispatched events, the timers,
    the animation frames, the pending loads, the focus and the clock. *)
Class Framed (Q : relation browser) : Prop := {
  framed_preorder :: PreOrder Q;
  framed_console g b : Q b (upd_console g b);
  framed_dispatched g b : Q b (upd_dispatched g b);
  framed_timers g b : Q b (upd_timers g b);
  framed_setTimeout cb z b : Q b (setTimeout cb z b).2;
  framed_frames g b : Q b (upd_frames g b);
  framed_loads g b : Q b (upd_loads g b);
  framed_activeElement o b : Q b (set_activeElement o b);
  framed_clock z b : Q b (set_clock z b)
}.

Section framed.
Context (Q : relation browser) `{!Framed Q}.

Lemma preserves_console_call {S} l args : preserves Q (console_call l args : M S unit).
Proof. apply preserves_act. intros b. apply framed_console. Qed.

Lemma preserves_dispatchEvent {S} ev : preserves Q (dispatchEvent ev : M S unit).
Proof. apply preserves_act. intros b. apply framed_dispatched. Qed.

Lemma preserves_set_timeout {S} cb z : preserves Q (set_timeout cb z : M S nat).
Proof. intros s. apply (framed_setTimeout cb z (br s)). Qed.

Lemma preserves_import {S} path : preserves Q (import path : M S unit).
Proof.
  unfold import. apply preserves_bind; [apply _|apply preserves_browse; apply _|].
  intros rs. apply preserves_if; [apply preserves_ret|apply preserves_throw]; apply _.
Qed.

Lemma preserves_clearTimeout {S} o : preserves Q (act (clearTimeout o) : M S unit).
Proof.
  apply preserves_act. intros b. destruct o; simpl; [|reflexivity].
  apply framed_timers.
Qed.
End framed.

(** [pres lem]: applies a lemma of this section, its instance premise closed
    by resolution, and introduces the bound result of a continuation. *)
Ltac pres lem :=
  first [ apply lem; [apply _ | ..] | apply lem ];
  try match goal with |- ∀ _, preserves _ _ => intros ? end.

Ltac head_of t :=
  lazymatch t with
  | ?f _ => head_of f
  | _ => t
  end.

(** One step of a proof that a method preserves [Q], chosen by the shape of
    the method; a call of another method is unfolded.  [leaf] closes the
    updates of the store and of local storage and the calls of code from
    outside, which depend on [Q]. *)
Ltac preserves_step leaf :=
  match goal with
  | |- preserves _ (mbind _ _) => pres preserves_bind
  | |- preserves _ (mret _) => pres preserves_ret
  | |- preserves _ (throw _) => pres preserves_throw
  | |- preserves _ (gets _) => pres preserves_gets
  | |- preserves _ (browse _) => pres preserves_browse
  | |- preserves _ (modify _) => pres preserves_modify
  | |- preserves _ (deref _ _) => pres preserves_deref
  | |- preserves _ (console_call _ _) => pres preserves_console_call
  | |- preserves _ (dispatchEvent _) => pres preserves_dispatchEvent
  | |- preserves _ (set_timeout _ _) => pres preserves_set_timeout
  | |- preserves _ (import _) => pres preserves_import
  | |- preserves _ (act (clearTimeout _)) => pres preserves_clearTimeout
  | |- preserves _ (act _) =>
      first
        [ pres preserves_act;
          [ intros ?;
            first [ apply framed_console | apply framed_dispatched | apply framed_timers
                  | apply framed_frames | apply framed_loads | apply framed_activeElement
                  | apply framed_clock ] ]
        | leaf ]
  | |- preserves _ (create_element _) => leaf
  | |- preserves _ (external _) => leaf
  | |- preserves _ (when _ _) => pres preserves_when
  | |- preserves _ (for_each _ _) => pres preserves_for_each
  | |- preserves _ (try_catch _ _) => pres preserves_try_catch
  | |- preserves _ (zoom _ _ _) => pres preserves_zoom
  | |- preserves _ (new _ _) => pres preserves_new
  | |- preserves _ (if _ then _ else _) => pres preserves_if
  | |- preserves _ (match ?x with _ => _ end) => destruct x
  | |- preserves _ (let _ := _ in _) => cbv zeta
  | |- preserves _ ((fun _ => _) _) => cbv beta
  | |- preserves _ ?m => let h := head_of m in progress unfold h
  end.

Ltac preserves_auto leaf := repeat preserves_step leaf.

Section establish.
Context {S : Type} (Q : relation browser) `{!PreOrder Q}.


Lemma preserves_create_element e :
  (∀ b, Q b (upd_doc (λ _, (append_element e (doc b)).2) b)) →
  preserves Q (create_element e : M S node).
Proof. intros He s. apply He. Qed.
End establish.

Lemma elem_append n e0 b :
  live n (doc b) →
  elem n (upd_doc (λ _, (append_element e0 (doc b)).2) b) = elem n b.
Proof.
  intros [e He]. destruct n; try done. unfold elem in *. simpl in *.
  by rewrite lookup_app_l by (by eapply lookup_lt_Some).
Qed.

(** ** Queries under updates of the store *)

Section queries.
Implicit Types (d : document) (n : node) (f : element → element) (s : selector).

Lemma elements_lookup d i :
  elements d !! i
  = match i with
    | 0 => Some (Html, html d)
    | 1 => Some (Head, head d)
    | 2 => Some (Body, body d)
    | S (S (S j)) => (λ e, (Elem j, e)) <$> others d !! j
    end.
Proof.
  destruct i as [|[|[|j]]]; try done. unfold elements. simpl.
  by rewrite list_lookup_imap.
Qed.

Lemma elements_alter_node f n d :
  elements (alter_node f n d)
  = (λ p, (p.1, if decide (p.1 = n) then f p.2 else p.2)) <$> elements d.
Proof.
  apply list_eq. intros i. rewrite list_lookup_fmap, !elements_lookup.
  destruct i as [|[|[|j]]]; simpl.
  - by destruct n.
  - by destruct n.
  - by destruct n.
  - destruct n as [| | |k]; simpl; try by destruct (others d !! j).
    rewrite list_lookup_alter.
    destruct (decide (k = j)) as [->|Hne]; destruct (others d !! j); simpl; try done.
    + by rewrite decide_True.
    + rewrite decide_False; [done|congruence].
Qed.

Lemma elements_append e d :
  elements (append_element e d).2 = elements d ++ [(Elem (length (others d)), e)].
Proof.
  unfold elements, append_element. simpl. rewrite imap_app. simpl.
  by rewrite Nat.add_0_r.
Qed.

Lemma filter_fmap_fst (P : node * element → Prop) `{!∀ p, Decision (P p)}
    (h : node * element → node * element) (l : list (node * element)) :
  (∀ p, (h p).1 = p.1) → (∀ p, P (h p) ↔ P p) →
  (filter P (h <$> l)).*1 = (filter P l).*1.
Proof.
  intros H1 HP. induction l as [|p l IH]; [done|]. rewrite fmap_cons.
  destruct (decide (P p)) as [Hp|Hp].
  - rewrite (filter_cons_True P (h p)) by (by apply HP).
    rewrite (filter_cons_True P p) by done.
    rewrite !fmap_cons, H1. f_equal. exact IH.
  - rewrite (filter_cons_False P (h p)) by (by rewrite HP).
    rewrite (filter_cons_False P p) by done. exact IH.
Qed.

Lemma querySelectorAll_alter s f n d :
  (∀ e, matches s (f e) = matches s e) →
  querySelectorAll s (alter_node f n d) = querySelectorAll s d.
Proof.
  intros Hf. unfold querySelectorAll. rewrite elements_alter_node.
  apply (filter_fmap_fst (λ p, matches s p.2 = true)); [done|].
  intros p. simpl. destruct (decide (p.1 = n)); [by rewrite Hf|done].
Qed.

Lemma querySelectorAll_append s e d :
  querySelectorAll s (append_element e d).2
  = querySelectorAll s d
    ++ (if matches s e then [Elem (length (others d))] else []).
Proof.
  unfold querySelectorAll. rewrite elements_append, filter_app, fmap_app.
  f_equal. destruct (matches s e) eqn:He.
  - by rewrite filter_cons_True, filter_nil.
  - rewrite filter_cons_False; [done|]. simpl. by rewrite He.
Qed.

Lemma matches_id_frame id f :
  (∀ e, getAttribute "id" (f e) = getAttribute "id" e) →
  ∀ e, matches (SelId id) (f e) = matches (SelId id) e.
Proof. intros Hf e. simpl. unfold getAttribute in Hf. by rewrite Hf. Qed.
End queries.

(** The element each identifier names is the same. *)
Definition ids_kept (b b' : browser) : Prop :=
  ∀ id, getElementById id (doc b') = getElementById id (doc b).

#[global] Instance ids_kept_framed : Framed ids_kept.
Proof.
  split; try (by intros; intros id).
  split; [by intros b id|]. intros b1 b2 b3 H12 H23 id. by rewrite H23, H12.
Qed.

Lemma ids_kept_upd_elem f n b :
  (∀ e, getAttribute "id" (f e) = getAttribute "id" e) →
  ids_kept b (upd_elem f n b).
Proof.
  intros Hf id. unfold getElementById, querySelector. simpl.
  by rewrite querySelectorAll_alter by (by apply matches_id_frame).
Qed.

Lemma ids_kept_append e b :
  attrs e !! "id" = None →
  ids_kept b (upd_doc (λ _, (append_element e (doc b)).2) b).
Proof.
  intros He id. unfold getElementById, querySelector.
  change (doc (upd_doc _ b)) with ((append_element e (doc b)).2).
  rewrite querySelectorAll_append. simpl. rewrite He.
  rewrite bool_decide_eq_false_2 by done. by rewrite app_nil_r.
Qed.

Lemma ids_kept_storage g b : ids_kept b (upd_storage g b).
Proof. by intros id. Qed.

Ltac ids_leaf :=
  first
    [ pres preserves_act; [intros ?; apply ids_kept_storage]
    | pres preserves_act; [intros ?; apply ids_kept_upd_elem; frame_side]
    | pres preserves_create_element; [intros ?; apply ids_kept_append; reflexivity] ].

(** ** Parts of the object that a method leaves alone *)

(** [keeps g m]: the part [g] of [this] is the same after [m], whether [m]
    returns or throws. *)
Definition keeps {S A X} (g : S → X) (m : M S A) : Prop :=
  stable (λ s s', g (this s') = g (this s)) m.

Section keeps.
Context {S X : Type} (g : S → X).

#[local] Instance keeps_preorder : PreOrder (λ s s' : st S, g (this s') = g (this s)).
Proof. split; [by intros s|intros s1 s2 s3 ??; congruence]. Qed.

Lemma keeps_ret {A} (a : A) : keeps g (mret a).
Proof. apply stable_ret, _. Qed.
Lemma keeps_throw {A} e : keeps g (throw e : M S A).
Proof. apply stable_throw, _. Qed.
Lemma keeps_bind {A B} (m : M S A) (f : A → M S B) :
  keeps g m → (∀ a, keeps g (f a)) → keeps g (m ≫= f).
Proof. apply stable_bind, _. Qed.
Lemma keeps_gets {A} (f : S → A) : keeps g (gets f).
Proof. apply stable_gets, _. Qed.
Lemma keeps_browse {A} (f : browser → A) : keeps g (browse f).
Proof. apply stable_browse, _. Qed.
Lemma keeps_deref what o : keeps g (deref what o).
Proof. apply stable_deref, _. Qed.
Lemma keeps_when (c : bool) m : keeps g m → keeps g (when c m).
Proof. apply stable_when, _. Qed.
Lemma keeps_if {A} (c : bool) (m1 m2 : M S A) :
  keeps g m1 → keeps g m2 → keeps g (if c then m1 else m2).
Proof. by destruct c. Qed.
Lemma keeps_for_each {A} (l : list A) (f : A → M S unit) :
  (∀ x, keeps g (f x)) → keeps g (for_each l f).
Proof. apply stable_for_each, _. Qed.
Lemma keeps_try_catch m h :
  keeps g m → (∀ e, keeps g (h e)) → keeps g (try_catch m h).
Proof. apply stable_try_catch, _. Qed.

Lemma keeps_act f : keeps g (act f).
Proof. by intros s. Qed.
Lemma keeps_console_call l args : keeps g (console_call l args).
Proof. by intros s. Qed.
Lemma keeps_dispatchEvent ev : keeps g (dispatchEvent ev).
Proof. by intros s. Qed.
Lemma keeps_set_timeout cb z : keeps g (set_timeout cb z).
Proof. by intros s. Qed.
Lemma keeps_create_element e : keeps g (create_element e).
Proof. by intros s. Qed.
Lemma keeps_import path : keeps g (import path).
Proof.
  unfold import. apply keeps_bind; [apply keeps_browse|].
  intros rs. apply keeps_if; [apply keeps_ret|apply keeps_throw].
Qed.
Lemma keeps_external {A} (f : browser → result A * browser) : keeps g (external f).
Proof. intros s. unfold external. by destruct (f _). Qed.
Lemma keeps_new {T} (x : T) (ctor : M T unit) : keeps g (new x ctor).
Proof. intros s. unfold new. by destruct (ctor _) as [[|] ?]. Qed.

Lemma keeps_modify f : (∀ a, g (f a) = g a) → keeps g (modify f).
Proof. intros Hf s. apply Hf. Qed.

Lemma keeps_zoom {T A} (get : S → T) set (m : M T A) :
  (∀ t a, g (set t a) = g a) → keeps g (zoom get set m).
Proof. intros Hs s. unfold zoom. destruct (m _) as [r s1]. apply Hs. Qed.
End keeps.

Ltac keeps_step :=
  match goal with
  | |- ∀ _, keeps _ _ => intros ?
  | |- keeps _ (mbind _ _) => apply keeps_bind
  | |- keeps _ (mret _) => apply keeps_ret
  | |- keeps _ (throw _) => apply keeps_throw
  | |- keeps _ (gets _) => apply keeps_gets
  | |- keeps _ (browse _) => apply keeps_browse
  | |- keeps _ (deref _ _) => apply keeps_deref
  | |- keeps _ (console_call _ _) => apply keeps_console_call
  | |- keeps _ (dispatchEvent _) => apply keeps_dispatchEvent
  | |- keeps _ (set_timeout _ _) => apply keeps_set_timeout
  | |- keeps _ (create_element _) => apply keeps_create_element
  | |- keeps _ (import _) => apply keeps_import
  | |- keeps _ (external _) => apply keeps_external
  | |- keeps _ (new _ _) => apply keeps_new
  | |- keeps _ (act _) => apply keeps_act
  | |- keeps _ (modify _) => apply keeps_modify; intros []; reflexivity
  | |- keeps _ (zoom _ _ _) => apply keeps_zoom; intros ? []; reflexivity
  | |- keeps _ (when _ _) => apply keeps_when
  | |- keeps _ (for_each _ _) => apply keeps_for_each
  | |- keeps _ (try_catch _ _) => apply keeps_try_catch
  | |- keeps _ (if _ then _ else _) => apply keeps_if
  | |- keeps _ (match ?x with _ => _ end) => destruct x
  | |- keeps _ (let _ := _ in _) => cbv zeta
  | |- keeps _ ((fun _ => _) _) => cbv beta
  | |- keeps _ ?m => let h := head_of m in progress unfold h
  end.

Ltac keeps_auto := repeat keeps_step.

(** ** What holds after a method, on return and on throw *)

Definition post {S A} (m : M S A) (s : st S)
    (Rok : A → st S → Prop) (Rthrow : st S → Prop) : Prop :=
  match m s with
  | (Ok a, s') => Rok a s'
  | (Throw _, s') => Rthrow s'
  end.

Section post.
Context {S : Type}.

Lemma post_bind {A B} (m : M S A) (f : A → M S B) s
    (P : A → st S → Prop) (Rok : B → st S → Prop) (Rthrow : st S → Prop) :
  post m s P Rthrow →
  (∀ a s1, P a s1 → post (f a) s1 Rok Rthrow) →
  post (m ≫= f) s Rok Rthrow.
Proof.
  unfold post, mbind, M_bind. intros Hm Hf.
  destruct (m s) as [[a|e] s1]; [by apply Hf|done].
Qed.

Lemma post_mono {A} (m : M S A) s (P P' : A → st S → Prop) (T T' : st S → Prop) :
  post m s P T → (∀ a s1, P a s1 → P' a s1) → (∀ s1, T s1 → T' s1) →
  post m s P' T'.
Proof. unfold post. destruct (m s) as [[a|e] s1]; auto. Qed.

(** A step that respects [R] keeps an invariant that [R] carries along. *)
Lemma post_stable {A} (R : relation (st S)) (I : st S → Prop) (m : M S A) s :
  stable R m → (∀ s1 s2, I s1 → R s1 s2 → I s2) → I s →
  post m s (λ _, I) I.
Proof.
  unfold post. intros Hm HI Hs. specialize (Hm s).
  destruct (m s) as [[a|e] s1]; simpl in *; eauto.
Qed.

Lemma post_browse {A} (f : browser → A) s (Rok : A → st S → Prop) Rthrow :
  Rok (f (br s)) s → post (browse f) s Rok Rthrow.
Proof. done. Qed.

Lemma post_gets {A} (f : S → A) s (Rok : A → st S → Prop) Rthrow :
  Rok (f (this s)) s → post (gets f) s Rok Rthrow.
Proof. done. Qed.

Lemma post_modify (f : S → S) s (Rok : unit → st S → Prop) Rthrow :
  Rok () (St (f (this s)) (br s)) → post (modify f) s Rok Rthrow.
Proof. done. Qed.

Lemma post_when (c : bool) (m : M S unit) s (Rok : unit → st S → Prop) Rthrow :
  (c = true → post m s Rok Rthrow) → (c = false → Rok () s) →
  post (when c m) s Rok Rthrow.
Proof. destruct c; simpl; auto. intros _ H. by apply H. Qed.
End post.

Section post_reads.
Context {S : Type}.

Lemma post_browse_bind {A B} (f : browser → A) (k : A → M S B) s
    (Rok : B → st S → Prop) Rthrow :
  post (k (f (br s))) s Rok Rthrow → post (browse f ≫= k) s Rok Rthrow.
Proof. done. Qed.

Lemma post_gets_bind {A B} (f : S → A) (k : A → M S B) s
    (Rok : B → st S → Prop) Rthrow :
  post (k (f (this s))) s Rok Rthrow → post (gets f ≫= k) s Rok Rthrow.
Proof. done. Qed.
End post_reads.

(** ** Handles that queries return *)

Lemma elements_live n e d : (n, e) ∈ elements d → lookup_node n d = Some e.
Proof.
  intros [i Hi]%list_elem_of_lookup. rewrite elements_lookup in Hi.
  destruct i as [|[|[|j]]]; simpl in Hi.
  - by injection Hi as <- <-.
  - by injection Hi as <- <-.
  - by injection Hi as <- <-.
  - destruct (others d !! j) as [e'|] eqn:He; [|done].
    simpl in Hi. by injection Hi as <- <-.
Qed.

Lemma querySelectorAll_elem s n d :
  n ∈ querySelectorAll s d ↔ ∃ e, lookup_node n d = Some e ∧ (n, e) ∈ elements d
                                   ∧ matches s e = true.
Proof.
  unfold querySelectorAll. rewrite list_elem_of_fmap. split.
  - intros ([n' e] & -> & [Hm Hin]%list_elem_of_filter). simpl in *.
    exists e. split; [by apply elements_live|done].
  - intros (e & _ & Hin & Hm). exists (n, e). split; [done|].
    by apply list_elem_of_filter.
Qed.

Lemma querySelectorAll_live s n d : n ∈ querySelectorAll s d → live n d.
Proof. rewrite querySelectorAll_elem. intros (e & He & _). by exists e. Qed.

Lemma querySelector_live s n d : querySelector s d = Some n → live n d.
Proof.
  unfold querySelector. intros H. apply (querySelectorAll_live s).
  destruct (querySelectorAll s d) as [|n' l]; [done|].
  simpl in H. injection H as ->. left.
Qed.

Lemma getElementById_live id n d : getElementById id d = Some n → live n d.
Proof. apply querySelector_live. Qed.

Lemma getElementById_id id n d :
  getElementById id d = Some n →
  ∃ e, lookup_node n d = Some e ∧ attrs e !! "id" = Some id.
Proof.
  unfold getElementById, querySelector. intros H.
  assert (n ∈ querySelectorAll (SelId id) d) as Hin.
  { destruct (querySelectorAll (SelId id) d) as [|n' l]; [done|].
    simpl in H. injection H as ->. left. }
  apply querySelectorAll_elem in Hin as (e & He & _ & Hm).
  exists e. split; [done|]. simpl in Hm. by apply bool_decide_eq_true in Hm.
Qed.

(** ** Invariants *)

(** [maintains J m]: from a state in [J], [m] ends in [J], whether it returns
    or throws. *)
Definition maintains {S A} (J : st S → Prop) (m : M S A) : Prop :=
  ∀ s, J s → J (m s).2.

Section maintains.
Context {S : Type} (J : st S → Prop).

Lemma maintains_ret {A} (a : A) : maintains J (mret a).
Proof. by intros s. Qed.
Lemma maintains_throw {A} e : maintains J (throw e : M S A).
Proof. by intros s. Qed.
Lemma maintains_gets {A} (f : S → A) : maintains J (gets f).
Proof. by intros s. Qed.
Lemma maintains_browse {A} (f : browser → A) : maintains J (browse f).
Proof. by intros s. Qed.
Lemma maintains_deref what o : maintains J (deref what o).
Proof. destruct o; by intros s. Qed.

Lemma maintains_bind {A B} (m : M S A) (f : A → M S B) :
  maintains J m → (∀ a, maintains J (f a)) → maintains J (m ≫= f).
Proof.
  intros Hm Hf s Hs. unfold mbind, M_bind. specialize (Hm s Hs).
  destruct (m s) as [[a|e] s1]; simpl in *; [by apply Hf|done].
Qed.

Lemma maintains_when (c : bool) m : maintains J m → maintains J (when c m).
Proof. destruct c; [done|]. by intros _ s. Qed.

Lemma maintains_if {A} (c : bool) (m1 m2 : M S A) :
  maintains J m1 → maintains J m2 → maintains J (if c then m1 else m2).
Proof. by destruct c. Qed.

Lemma maintains_for_each {A} (l : list A) (f : A → M S unit) :
  (∀ x, maintains J (f x)) → maintains J (for_each l f).
Proof.
  intros Hf. induction l as [|x l IH]; simpl; [by intros s|].
  apply maintains_bind; [apply Hf|by intros _].
Qed.

Lemma maintains_try_catch m h :
  maintains J m → (∀ e, maintains J (h e)) → maintains J (try_catch m h).
Proof.
  intros Hm Hh s Hs. unfold try_catch. specialize (Hm s Hs).
  destruct (m s) as [[a|e] s1]; simpl in *; [done|by apply Hh].
Qed.

Lemma maintains_stable {A} (R : relation (st S)) (m : M S A) :
  stable R m → (∀ s s', J s → R s s' → J s') → maintains J m.
Proof. intros Hm HJ s Hs. eapply HJ; [exact Hs|apply Hm]. Qed.

Lemma maintains_act f :
  (∀ s, J s → J (St (this s) (f (br s)))) → maintains J (act f).
Proof. intros Hf s Hs. by apply Hf. Qed.

Lemma maintains_modify f :
  (∀ s, J s → J (St (f (this s)) (br s))) → maintains J (modify f).
Proof. intros Hf s Hs. by apply Hf. Qed.
End maintains.

(** One step of a proof that a method maintains [J]; [leaf] closes the
    updates and the calls that have a lemma of their own. *)
Ltac maintains_step leaf :=
  match goal with
  | |- ∀ _, maintains _ _ => intros ?
  | |- maintains _ _ => leaf
  | |- maintains _ (mbind _ _) => apply maintains_bind
  | |- maintains _ (mret _) => apply maintains_ret
  | |- maintains _ (throw _) => apply maintains_throw
  | |- maintains _ (gets _) => apply maintains_gets
  | |- maintains _ (browse _) => apply maintains_browse
  | |- maintains _ (deref _ _) => apply maintains_deref
  | |- maintains _ (when _ _) => apply maintains_when
  | |- maintains _ (for_each _ _) => apply maintains_for_each
  | |- maintains _ (try_catch _ _) => apply maintains_try_catch
  | |- maintains _ (if _ then _ else _) => apply maintains_if
  | |- maintains _ (match ?x with _ => _ end) => destruct x
  | |- maintains _ (let _ := _ in _) => cbv zeta
  | |- maintains _ ((fun _ => _) _) => cbv beta
  | |- maintains _ ?m => let h := head_of m in progress unfold h
  end.

Ltac maintains_auto leaf := repeat maintains_step leaf.

(** The document is the same. *)
Definition same_doc (b b' : browser) : Prop := doc b' = doc b.

#[global] Instance same_doc_framed : Framed same_doc.
Proof.
  split; try (by intros; unfold same_doc).
  split; [by intros b|]. intros b1 b2 b3 H12 H23. unfold same_doc in *. congruence.
Qed.

Lemma same_doc_clearTimeout o b : same_doc b (clearTimeout o b).
Proof. by destruct o. Qed.
(** ** The responsive menu *)

Module MenuFacts.
Import ResponsiveMenu.

(** The browser after [openMenu] and after [closeMenu], [focus] being
    what focusFirstMenuItem schedules. *)
Definition opened (nav tog bd : node) (b : browser) : browser :=
  let b1 := upd_elem (classList_add "active") nav b in
  let b2 := upd_elem (classList_add "menu-open") bd b1 in
  let b3 := upd_elem (setAttribute "aria-expanded" "true") tog b2 in
  let b4 := upd_elem (setAttribute "aria-label" "Cerrar menú de navegación") tog b3 in
  let b5 := upd_elem (style_set "overflow" "hidden") bd b4 in
  let b6 := match querySelector_in nav (SelClass "nav-link") (doc b5) with
            | Some l => (setTimeout (CbFocus l) 100 b5).2
            | None => b5
            end in
  upd_console (λ c, c ++ [(Log, ["📱 Menú abierto"])]) b6.

Definition closed (nav tog bd : node) (b : browser) : browser :=
  let b1 := upd_elem (classList_remove "active") nav b in
  let b2 := upd_elem (classList_remove "menu-open") bd b1 in
  let b3 := upd_elem (setAttribute "aria-expanded" "false") tog b2 in
  let b4 := upd_elem (setAttribute "aria-label" "Abrir menú de navegación") tog b3 in
  let b5 := upd_elem (style_set "overflow" "") bd b4 in
  upd_console (λ c, c ++ [(Log, ["📱 Menú cerrado"])]) b5.

Lemma openMenu_run m b nav tog :
  navMenu m = Some nav → menuToggle m = Some tog →
  openMenu (St m b) = (Ok (), St (set_isOpen true m) (opened nav tog (body m) b)).
Proof.
  intros Hn Ht. destruct m; simpl in *; subst.
  unfold openMenu, focusFirstMenuItem, opened, console_call, set_timeout,
    act, modify, gets, browse, deref, mbind, M_bind, mret, M_ret; simpl.
  by destruct (querySelector_in nav _ _).
Qed.

Lemma closeMenu_run m b nav tog :
  navMenu m = Some nav → menuToggle m = Some tog →
  closeMenu (St m b) = (Ok (), St (set_isOpen false m) (closed nav tog (body m) b)).
Proof. intros Hn Ht. destruct m; simpl in *; subst. reflexivity. Qed.

Lemma opened_obs nav tog bd b0 (P : browser → Prop) :
  (∀ b, P b → P (upd_console (λ c, c ++ [(Log, ["📱 Menú abierto"])]) b)) →
  (∀ b cb, P b → P (setTimeout cb 100 b).2) →
  P (upd_elem (style_set "overflow" "hidden") bd
       (upd_elem (setAttribute "aria-label" "Cerrar menú de navegación") tog
          (upd_elem (setAttribute "aria-expanded" "true") tog
             (upd_elem (classList_add "menu-open") bd
                (upd_elem (classList_add "active") nav b0))))) →
  P (opened nav tog bd b0).
Proof.
  intros Hc Ht HP. unfold opened. cbv zeta. apply Hc.
  destruct (querySelector_in _ _ _); [by apply Ht|done].
Qed.

Lemma closed_obs nav tog bd b0 (P : browser → Prop) :
  (∀ b, P b → P (upd_console (λ c, c ++ [(Log, ["📱 Menú cerrado"])]) b)) →
  P (upd_elem (style_set "overflow" "") bd
       (upd_elem (setAttribute "aria-label" "Abrir menú de navegación") tog
          (upd_elem (setAttribute "aria-expanded" "false") tog
             (upd_elem (classList_remove "menu-open") bd
                (upd_elem (classList_remove "active") nav b0))))) →
  P (closed nav tog bd b0).
Proof. intros Hc HP. by apply Hc. Qed.

Lemma openMenu_spec m b nav tog :
  navMenu m = Some nav → menuToggle m = Some tog →
  live nav (doc b) → live tog (doc b) → live (body m) (doc b) →
  ∃ b', openMenu (St m b) = (Ok (), St (set_isOpen true m) b')
        ∧ has_class nav "active" b' = true
        ∧ has_class (body m) "menu-open" b' = true
        ∧ attr tog "aria-expanded" b' = Some "true"
        ∧ style_of (body m) "overflow" b' = "hidden".
Proof.
  intros Hn Ht Ln Lt Lb. eexists. split; [by apply openMenu_run|].
  repeat split; apply opened_obs; try done.
  - rewrite !has_class_upd_frame by frame_side.
    by apply has_class_upd_set; [frame_side|].
  - rewrite !has_class_upd_frame by frame_side.
    apply has_class_upd_set; [frame_side|]. by apply live_upd_elem.
  - rewrite !attr_upd_frame by frame_side.
    apply attr_upd_set; [frame_side|]. by do 2 apply live_upd_elem.
  - apply style_of_upd_set; [frame_side|]. by do 4 apply live_upd_elem.
Qed.

Lemma closeMenu_spec m b nav tog :
  navMenu m = Some nav → menuToggle m = Some tog →
  live nav (doc b) → live tog (doc b) → live (body m) (doc b) →
  ∃ b', closeMenu (St m b) = (Ok (), St (set_isOpen false m) b')
        ∧ has_class nav "active" b' = false
        ∧ has_class (body m) "menu-open" b' = false
        ∧ attr tog "aria-expanded" b' = Some "false"
        ∧ style_of (body m) "overflow" b' = "".
Proof.
  intros Hn Ht Ln Lt Lb. eexists. split; [by apply closeMenu_run|].
  repeat split; apply closed_obs; try done.
  - rewrite !has_class_upd_frame by frame_side.
    by apply has_class_upd_set; [frame_side|].
  - rewrite !has_class_upd_frame by frame_side.
    apply has_class_upd_set; [frame_side|]. by apply live_upd_elem.
  - rewrite !attr_upd_frame by frame_side.
    apply attr_upd_set; [frame_side|]. by do 2 apply live_upd_elem.
  - apply style_of_upd_set; [frame_side|]. by do 4 apply live_upd_elem.
Qed.

(** C4.  On a menu whose two elements were found, each of [openMenu],
    [closeMenu] and [toggleMenu] returns normally, changes no field of the
    object other than [isOpen], and leaves [isOpen] true exactly when
    [navMenu] has class [active], exactly when [body] has class [menu-open],
    exactly when the toggle's [aria-expanded] is ["true"], and exactly when
    the body's [overflow] is ["hidden"]. *)
Theorem C4_isOpen_in_sync_with_dom (m : t) (b : browser) (nav tog : node) (op : M t unit) :
  op = openMenu ∨ op = closeMenu ∨ op = toggleMenu →
  navMenu m = Some nav → menuToggle m = Some tog →
  live nav (doc b) → live tog (doc b) → live (body m) (doc b) →
  ∃ m' b',
    op (St m b) = (Ok (), St m' b')
    ∧ m' = set_isOpen (isOpen m') m
    ∧ (isOpen m' = true ↔ has_class nav "active" b' = true)
    ∧ (isOpen m' = true ↔ has_class (body m') "menu-open" b' = true)
    ∧ (isOpen m' = true ↔ attr tog "aria-expanded" b' = Some "true")
    ∧ (isOpen m' = true ↔ style_of (body m') "overflow" b' = "hidden").
Proof.
  intros Hop Hn Ht Ln Lt Lb.
  assert (Hopen := openMenu_spec m b nav tog Hn Ht Ln Lt Lb).
  assert (Hclose := closeMenu_spec m b nav tog Hn Ht Ln Lt Lb).
  assert (op (St m b) = openMenu (St m b) ∨ op (St m b) = closeMenu (St m b)) as [->| ->].
  { destruct Hop as [->|[->| ->]]; [by left|by right|].
    unfold toggleMenu, gets, mbind, M_bind. simpl. destruct (isOpen m); auto. }
  - destruct Hopen as (b' & -> & H1 & H2 & H3 & H4).
    exists (set_isOpen true m), b'. simpl. rewrite H1, H2, H3, H4. by repeat split.
  - destruct Hclose as (b' & -> & H1 & H2 & H3 & H4).
    exists (set_isOpen false m), b'. simpl. rewrite H1, H2, H3, H4.
    repeat split; intros; congruence.
Qed.

Lemma C4_isOpen_in_sync_with_dom_witness :
  ∃ m' b',
    toggleMenu (St Samples.menu Samples.page) = (Ok (), St m' b')
    ∧ m' = set_isOpen (isOpen m') Samples.menu
    ∧ (isOpen m' = true ↔ has_class (Elem 1) "active" b' = true)
    ∧ (isOpen m' = true ↔ has_class (body m') "menu-open" b' = true)
    ∧ (isOpen m' = true ↔ attr (Elem 0) "aria-expanded" b' = Some "true")
    ∧ (isOpen m' = true ↔ style_of (body m') "overflow" b' = "hidden").
Proof.
  apply (C4_isOpen_in_sync_with_dom Samples.menu Samples.page (Elem 1) (Elem 0) toggleMenu).
  - right. right. reflexivity.
  - reflexivity.
  - reflexivity.
  - eexists. reflexivity.
  - eexists. reflexivity.
  - eexists. reflexivity.
Defined.

(** *** The resize listener *)

(** What every step other than the resize listener respects: the timer
    variable and the breakpoint stay, and no resize check is added. *)
Definition quiet (s s' : st t) : Prop :=
  resizeTimer (this s') = resizeTimer (this s)
  ∧ desktopBreakpoint (this s') = desktopBreakpoint (this s)
  ∧ pending_checks (br s') `sublist_of` pending_checks (br s).

#[local] Instance quiet_preorder : PreOrder quiet.
Proof.
  split.
  - intros s. by repeat split.
  - intros s1 s2 s3 (?&?&?) (?&?&?). repeat split; try congruence. by etrans.
Qed.





















End MenuFacts.

(** ** The theme toggle *)

Module ThemeFacts.
Import ThemeToggle.

(** C8.  [getInitialTheme] returns the saved theme when it is exactly
    ["light"] or ["dark"]; otherwise ["dark"] when [window.matchMedia]
    exists and reports a dark preference; otherwise ["light"].  It changes
    nothing. *)
Theorem C8_initial_theme_priority (x : t) (b : browser) :
  getInitialTheme (St x b)
  = (Ok (let system := if bool_decide (matchMedia b = Some true)
                       then "dark" else "light" in
         match localStorage b !! "theme" with
         | Some saved =>
             if bool_decide (saved = "light" ∨ saved = "dark") then saved else system
         | None => system
         end),
     St x b).
Proof.
  unfold getInitialTheme, getItem, browse, mbind, M_bind, mret, M_ret. simpl.
  destruct (localStorage b !! "theme") as [saved|].
  - destruct (decide (saved = "light")) as [->|Hl]; [reflexivity|].
    destruct (decide (saved = "dark")) as [->|Hd]; [reflexivity|].
    unfold LIGHT, DARK.
    rewrite (bool_decide_eq_false_2 (saved = "light")) by done.
    rewrite (bool_decide_eq_false_2 (saved = "dark")) by done.
    rewrite (bool_decide_eq_false_2 (_ ∨ _)) by tauto.
    rewrite andb_false_r. cbn. destruct (matchMedia b) as [[]|]; reflexivity.
  - cbn. destruct (matchMedia b) as [[]|]; reflexivity.
Qed.



(** *** What the rest of [setTheme] and of [toggleTheme] leaves alone *)

Definition theme_kept (b b' : browser) : Prop :=
  attr Html "data-theme" b' = attr Html "data-theme" b
  ∧ localStorage b' = localStorage b.

#[local] Instance theme_kept_framed : Framed theme_kept.
Proof.
  split; try (by intros; split).
  split; [by intros b|]. intros b1 b2 b3 [??] [??]. split; congruence.
Qed.








Lemma getCurrentTheme_run x b :
  ∃ cur, getCurrentTheme (St x b) = (Ok cur, St x b)
         ∧ cur = match attr (htmlElement x) "data-theme" b with
                 | Some s => if bool_decide (s = "") then "light" else s
                 | None => "light"
                 end.
Proof.
  unfold getCurrentTheme, gets, browse, mbind, M_bind, mret, M_ret. simpl.
  destruct (attr (htmlElement x) "data-theme" b) as [s|]; [|by eexists].
  destruct (bool_decide (s = "")); by eexists.
Qed.

(** The steps of [setTheme] after the attribute and the storage writes. *)
Definition announce (th : string) : M t unit :=
  updateMetaThemeColor th;; updateAriaAttributes;; dispatchThemeChangeEvent th.


Lemma setTheme_valid_run x b th (save : bool) :
  th = "light" ∨ th = "dark" →
  setTheme (JStr th) save (St x b)
  = announce th
      (St x (let b1 := upd_elem (setAttribute "data-theme" th) (htmlElement x) b in
             if save then upd_storage (insert "theme" th) b1 else b1)).
Proof. intros [-> | ->]; by destruct save. Qed.


End ThemeFacts.

(** ** The image loader *)

Module LoaderFacts.
Import ImageLoader.

(** *** handleImageError *)








(** *** getLoadingStats *)

Lemma querySelectorAll_nil s d :
  querySelectorAll s d = [] ↔ ∀ p, p ∈ elements d → matches s p.2 = false.
Proof.
  unfold querySelectorAll. split.
  - intros H p Hp. apply fmap_nil_inv in H.
    destruct (matches s p.2) eqn:Hm; [|done].
    by apply (filter_nil_not_elem_of _ _ p H) in Hm.
  - intros H. rewrite filter_none; [done|].
    intros p Hp. rewrite (H p Hp). done.
Qed.

Lemma no_img_no_lazy d a :
  querySelectorAll (SelTag "img") d = [] →
  querySelectorAll (SelTagAttr "img" a) d = [].
Proof.
  rewrite !querySelectorAll_nil. intros H p Hp. specialize (H p Hp).
  simpl in *. by rewrite H.
Qed.

(** C10 (as amended).  On a document without [img] elements in which no
    element carries the class [image-loaded], [getLoadingStats] returns a
    [percentage] that is NaN and [total], [lazy] and [loaded] equal to 0;
    [loading] and [errors] count the elements of any tag with the classes
    [image-loading] and [image-error], and [pending] is minus [errors]. *)
Theorem C10_stats_without_images (x : t) (b : browser) :
  querySelectorAll (SelTag "img") (doc b) = [] →
  querySelectorAll (SelClass "image-loaded") (doc b) = [] →
  ∃ st,
    getLoadingStats (St x b) = (Ok st, St x b)
    ∧ PrimFloat.is_nan (percentage st) = true
    ∧ total st = 0 ∧ lazy st = 0 ∧ loaded st = 0
    ∧ loading st = length (querySelectorAll (SelClass "image-loading") (doc b))
    ∧ errors st = length (querySelectorAll (SelClass "image-error") (doc b))
    ∧ pending st = (- Z.of_nat (errors st))%Z.
Proof.
  intros Himg Hloaded. eexists. split; [reflexivity|]. simpl.
  rewrite (no_img_no_lazy _ _ Himg), Himg. unfold CONFIG. simpl.
  rewrite Hloaded. simpl. repeat split; lia.
Qed.

Lemma C10_stats_without_images_witness :
  ∃ st,
    getLoadingStats (St initial (Samples.with_doc Samples.bare_doc))
    = (Ok st, St initial (Samples.with_doc Samples.bare_doc))
    ∧ PrimFloat.is_nan (percentage st) = true
    ∧ total st = 0 ∧ lazy st = 0 ∧ loaded st = 0
    ∧ loading st
      = length (querySelectorAll (SelClass "image-loading")
                  (doc (Samples.with_doc Samples.bare_doc)))
    ∧ errors st
      = length (querySelectorAll (SelClass "image-error")
                  (doc (Samples.with_doc Samples.bare_doc)))
    ∧ pending st = (- Z.of_nat (errors st))%Z.
Proof.
  apply (C10_stats_without_images initial (Samples.with_doc Samples.bare_doc)).
  - reflexivity.
  - reflexivity.
Defined.

(** The claim as stated fails on a document that has no [img] but has an
    element of class [image-loaded]: [loaded] is 1 and [percentage] is
    [Infinity]. *)
Lemma C10_counterexample :
  querySelectorAll (SelTag "img") (doc (Samples.with_doc Samples.stray_doc)) = []
  ∧ (getLoadingStats (St initial (Samples.with_doc Samples.stray_doc))).1
    = Ok {| total := 0; lazy := 0; loaded := 1; loading := 0; errors := 0;
            pending := -1; percentage := infinity |}
  ∧ PrimFloat.is_nan infinity = false.
Proof. repeat split; vm_compute; reflexivity. Qed.
End LoaderFacts.

(** ** Local storage *)

Module StorageFacts.

(** Every key other than ["theme"] is bound as before, or as before unbound. *)
Definition other_keys_kept (b b' : browser) : Prop :=
  ∀ k, k ≠ "theme" → localStorage b' !! k = localStorage b !! k.

#[global] Instance other_keys_kept_framed : Framed other_keys_kept.
Proof.
  split; try (by intros; intros k Hk).
  split; [by intros b k Hk|].
  intros b1 b2 b3 H12 H23 k Hk. by rewrite H23, H12.
Qed.

Ltac storage_leaf :=
  first
    [ pres preserves_act;
      [ intros ? k Hk; simpl;
        first [ reflexivity
              | apply lookup_insert_ne; congruence
              | apply lookup_delete_ne; congruence ] ]
    | pres preserves_create_element; [intros ? k Hk; reflexivity] ].

Lemma menu_operations o : preserves other_keys_kept (ResponsiveMenu.run o).
Proof.
  destruct o as [| | | | | | | |e]; [..|destruct e]; simpl;
    preserves_auto storage_leaf.
Qed.

Lemma menu_autoInit : preserves other_keys_kept ResponsiveMenu.autoInit.
Proof.
  unfold ResponsiveMenu.autoInit. preserves_auto storage_leaf.
Qed.

Lemma theme_operations o : preserves other_keys_kept (ThemeToggle.run o).
Proof. destruct o; simpl; preserves_auto storage_leaf. Qed.

Lemma loader_operations o : preserves other_keys_kept (ImageLoader.run o).
Proof. destruct o; simpl; preserves_auto storage_leaf. Qed.

Section main.
Variable component : Type.
Variable Gallery : browser → result component * browser.
Variable Lightbox : browser → result component * browser.
Variable FormValidator : string → browser → result component * browser.
Variable component_cleanup : component → browser → result unit * browser.
Variable translateY : option string → float → string.
(** The code of the three classes that are not at hand is taken not to
    touch the other keys either. *)
Hypothesis Gallery_keys : ∀ b, other_keys_kept b (Gallery b).2.
Hypothesis Lightbox_keys : ∀ b, other_keys_kept b (Lightbox b).2.
Hypothesis FormValidator_keys : ∀ id b, other_keys_kept b (FormValidator id b).2.
Hypothesis cleanup_keys : ∀ c b, other_keys_kept b (component_cleanup c b).2.

Ltac main_leaf :=
  first
    [ storage_leaf
    | pres preserves_external;
      [ intros ?;
        first [ apply Gallery_keys | apply Lightbox_keys
              | apply FormValidator_keys | apply cleanup_keys ] ] ].

Lemma main_operations o :
  preserves other_keys_kept
    (Main.run component Gallery Lightbox FormValidator component_cleanup translateY o).
Proof. destruct o; simpl; preserves_auto main_leaf. Qed.

(** C2.  Whatever method, listener or callback of the four scripts runs,
    and whether it returns or throws, every local-storage key other than
    ["theme"] is bound afterwards exactly as before: nothing but
    ["theme"] is written or removed. *)
Theorem C2_only_theme_key_is_written :
  (∀ o s k, k ≠ "theme" →
     localStorage (br (ResponsiveMenu.run o s).2) !! k = localStorage (br s) !! k)
  ∧ (∀ s k, k ≠ "theme" →
       localStorage (br (ResponsiveMenu.autoInit s).2) !! k = localStorage (br s) !! k)
  ∧ (∀ o s k, k ≠ "theme" →
       localStorage (br (ThemeToggle.run o s).2) !! k = localStorage (br s) !! k)
  ∧ (∀ o s k, k ≠ "theme" →
       localStorage (br (ImageLoader.run o s).2) !! k = localStorage (br s) !! k)
  ∧ (∀ o s k, k ≠ "theme" →
       localStorage
         (br (Main.run component Gallery Lightbox FormValidator component_cleanup
                translateY o s).2) !! k
       = localStorage (br s) !! k).
Proof.
  repeat split; intros.
  - by apply menu_operations.
  - by apply menu_autoInit.
  - by apply theme_operations.
  - by apply loader_operations.
  - by apply main_operations.
Qed.
End main.

Lemma C2_only_theme_key_is_written_witness :
  localStorage
    (br (ThemeToggle.run (ThemeToggle.SetTheme (JStr "dark") true)
           (St Samples.toggle Samples.page)).2) !! "lang"
  = localStorage Samples.page !! "lang".
Proof.
  refine (proj1 (proj2 (proj2
    (C2_only_theme_key_is_written unit (λ b, (Ok (), b)) (λ b, (Ok (), b))
       (λ _ b, (Ok (), b)) (λ _ b, (Ok (), b)) (λ _ _, "")
       _ _ _ _))) _ _ _ _).
  - intros b k Hk. reflexivity.
  - intros b k Hk. reflexivity.
  - intros id b k Hk. reflexivity.
  - intros c b k Hk. reflexivity.
  - discriminate.
Defined.
End StorageFacts.

(** ** The orchestrator *)

Module MainFacts.
Import Main.

Section app.
Variable component : Type.
Variable Gallery : browser → result component * browser.
Variable Lightbox : browser → result component * browser.
Variable FormValidator : string → browser → result component * browser.
(** The constructors of the three classes that are not at hand are taken
    to leave the [id] of every element alone. *)
Hypothesis Gallery_ids : ∀ b, ids_kept b (Gallery b).2.
Hypothesis Lightbox_ids : ∀ b, ids_kept b (Lightbox b).2.
Hypothesis FormValidator_ids : ∀ id b, ids_kept b (FormValidator id b).2.

Abbreviation t := (Main.t component).

Ltac main_ids_leaf :=
  first
    [ ids_leaf
    | pres preserves_external;
      [ intros ?;
        first [ apply Gallery_ids | apply Lightbox_ids | apply FormValidator_ids ] ] ].

(** The slots and the page name, which most steps leave alone. *)
Definition wiring (a : t) : Main.modules_t component * string :=
  (modules a, currentPage (state a)).

Definition settled (s s' : st t) : Prop :=
  ids_kept (br s) (br s') ∧ wiring (this s') = wiring (this s).

#[local] Instance settled_preorder : PreOrder settled.
Proof.
  split.
  - intros s. split; [reflexivity|done].
  - intros s1 s2 s3 [H1 H2] [H3 H4]. split; [by etrans|congruence].
Qed.

Lemma settled_intro {A} (m : M t A) :
  preserves ids_kept m → keeps wiring m → stable settled m.
Proof. intros H1 H2 s. split; [apply H1|apply H2]. Qed.

Ltac settle := apply settled_intro; [preserves_auto main_ids_leaf|keeps_auto].

Lemma log_settled args : stable settled (log component args).
Proof. settle. Qed.

Lemma images_settled :
  stable settled
    (in_loader component ImageLoader.initImageLoader;;
     criticalImages ← getCriticalImages component;
     when (bool_decide (0 < length criticalImages))
       (in_loader component (ImageLoader.preloadCriticalImages criticalImages))).
Proof. settle. Qed.

Lemma theme_new_settled :
  stable settled (new ThemeToggle.fresh ThemeToggle.constructor : M t ThemeToggle.t).
Proof. settle. Qed.

Lemma menu_new_settled :
  stable settled (new ResponsiveMenu.fresh ResponsiveMenu.constructor
                  : M t ResponsiveMenu.t).
Proof. settle. Qed.

Lemma menu_module_settled (evaluated : bool) :
  stable settled
    (when (negb evaluated)
       (modify (set_menuModuleEvaluated component true);;
        zoom window_responsiveMenu (set_window_responsiveMenu component)
          ResponsiveMenu.autoInit) : M t unit).
Proof. settle. Qed.

Lemma import_settled path : stable settled (import path : M t unit).
Proof. settle. Qed.

Lemma external_settled (f : browser → result component * browser) :
  (∀ b, ids_kept b (f b).2) → stable settled (external f : M t component).
Proof.
  intros Hf. apply settled_intro; [|keeps_auto].
  pres preserves_external. exact Hf.
Qed.

Lemma home_settled : stable settled (loadHomeModules component).
Proof. settle. Qed.
Lemma techniques_settled : stable settled (loadTechniquesModules component).
Proof. settle. Qed.
Lemma progress_settled : stable settled (loadProgressModules component).
Proof. settle. Qed.
Lemma materials_settled : stable settled (loadMaterialsModules component).
Proof. settle. Qed.
Lemma listeners_settled : stable settled (initGlobalListeners component).
Proof. settle. Qed.
Lemma applyTheme_settled th : stable settled (applyTheme component th).
Proof. settle. Qed.
Lemma init_catch_settled e : stable settled (init_catch component e).
Proof. settle. Qed.

(** *** The slots after the modules are loaded *)

Section wired.
Variable b0 : browser.
Variable page : string.

Definition has (id : string) : Prop := is_Some (getElementById id (doc b0)).

(** Every slot that is filled had its element (and its page); the
    slots flagged as decided are filled whenever they should be. *)
Definition wired (dT dM dG dL dF : bool) (s : st t) : Prop :=
  ids_kept b0 (br s)
  ∧ currentPage (state (this s)) = page
  ∧ (is_Some (themeToggle (modules (this s))) → has "themeToggle")
  ∧ (is_Some (responsiveMenu (modules (this s))) → has "menuToggle")
  ∧ (is_Some (gallery (modules (this s))) → page = "portafolio" ∧ has "galleryGrid")
  ∧ (is_Some (lightbox (modules (this s))) → page = "portafolio" ∧ has "lightbox")
  ∧ (is_Some (formValidator (modules (this s)))
     → page = "contacto" ∧ has "contactForm")
  ∧ (dT = true → has "themeToggle" → is_Some (themeToggle (modules (this s))))
  ∧ (dM = true → has "menuToggle" → is_Some (responsiveMenu (modules (this s))))
  ∧ (dG = true → page = "portafolio" → has "galleryGrid"
     → is_Some (gallery (modules (this s))))
  ∧ (dL = true → page = "portafolio" → has "lightbox"
     → is_Some (lightbox (modules (this s))))
  ∧ (dF = true → page = "contacto" → has "contactForm"
     → is_Some (formValidator (modules (this s)))).

Lemma wired_settled dT dM dG dL dF s1 s2 :
  wired dT dM dG dL dF s1 → settled s1 s2 → wired dT dM dG dL dF s2.
Proof.
  unfold wired, settled, wiring. intros (Hi & Hp & H) [Hi' [= Hm Hp']].
  rewrite Hm, Hp'. split; [by etrans|]. by split.
Qed.

Lemma wired_weaken dT dM dG dL dF s :
  wired dT dM dG dL dF s → wired false false false false false s.
Proof.
  unfold wired. intros (?&?&?&?&?&?&?&_).
  split_and!; first [assumption|intros; discriminate].
Qed.

Lemma wired_has id s dT dM dG dL dF :
  wired dT dM dG dL dF s →
  is_Some (getElementById id (doc (br s))) ↔ has id.
Proof. intros (Hi & _). unfold has. by rewrite Hi. Qed.

(** A stretch of code that leaves slots, page and ids alone. *)
Lemma post_settled {A} (m : M t A) dT dM dG dL dF s :
  stable settled m → wired dT dM dG dL dF s →
  post m s (λ _, wired dT dM dG dL dF) (wired false false false false false).
Proof.
  intros Hm Hs. unfold post. specialize (Hm s).
  destruct (m s) as [[a|e] s1]; simpl in *.
  - by eapply wired_settled.
  - eapply wired_weaken, wired_settled; [exact Hs|exact Hm].
Qed.

Ltac stretch lem H :=
  eapply post_bind; [eapply post_settled; [apply lem|exact H]|];
  clear H; intros ? ? H; simpl in H.

Lemma fill_themeToggle x dM s :
  has "themeToggle" → wired false dM false false false s →
  wired true dM false false false
    (St (upd_modules component (set_themeToggle component (Some x)) (this s)) (br s)).
Proof.
  intros Hhas (?&?&?&?&?&?&?&?&?&?&?&?). unfold wired. simpl.
  split_and!; auto; by eexists.
Qed.

Lemma fill_responsiveMenu x dT s :
  has "menuToggle" → wired dT false false false false s →
  wired dT true false false false
    (St (upd_modules component (set_responsiveMenu component (Some x)) (this s)) (br s)).
Proof.
  intros Hhas (?&?&?&?&?&?&?&?&?&?&?&?). unfold wired. simpl.
  split_and!; auto; by eexists.
Qed.

Lemma skip_themeToggle dM s :
  ¬ has "themeToggle" → wired false dM false false false s →
  wired true dM false false false s.
Proof.
  intros Hhas (?&?&?&?&?&?&?&?&?&?&?&?). unfold wired.
  split_and!; auto; intros; done.
Qed.

Lemma skip_responsiveMenu dT s :
  ¬ has "menuToggle" → wired dT false false false false s →
  wired dT true false false false s.
Proof.
  intros Hhas (?&?&?&?&?&?&?&?&?&?&?&?). unfold wired.
  split_and!; auto; intros; done.
Qed.

Lemma loadCoreModules_wired s :
  wired false false false false false s →
  post (loadCoreModules component) s
       (λ _, wired true true false false false)
       (wired false false false false false).
Proof.
  intros H. unfold loadCoreModules.
  stretch log_settled H.
  apply post_browse_bind.
  eapply post_bind.
  { eapply post_settled; [|exact H].
    apply (stable_when settled), images_settled. }
  clear H. intros ? s2 H; simpl in H.
  do 2 apply post_browse_bind. simpl. rewrite andb_true_r.
  eapply (post_bind _ _ _ (λ _, wired true false false false false)).
  { apply post_when; intros Hc.
    - apply bool_decide_eq_true in Hc. rewrite (wired_has _ _ _ _ _ _ _ H) in Hc.
      stretch import_settled H.
      eapply post_bind; [eapply post_settled; [apply theme_new_settled|exact H]|].
      clear H. intros x s5 H; simpl in H. apply post_modify. by apply fill_themeToggle.
    - apply bool_decide_eq_false in Hc. rewrite (wired_has _ _ _ _ _ _ _ H) in Hc.
      by apply skip_themeToggle. }
  clear H. intros ? s5 H; simpl in H.
  apply post_browse_bind.
  eapply (post_bind _ _ _ (λ _, wired true true false false false)).
  { apply post_when; intros Hc.
    - apply bool_decide_eq_true in Hc. rewrite (wired_has _ _ _ _ _ _ _ H) in Hc.
      stretch import_settled H.
      apply post_gets_bind.
      eapply post_bind.
      { eapply post_settled; [apply menu_module_settled|exact H]. }
      clear H. intros ? s8 H; simpl in H.
      eapply post_bind; [eapply post_settled; [apply menu_new_settled|exact H]|].
      clear H. intros x s9 H; simpl in H. apply post_modify. by apply fill_responsiveMenu.
    - apply bool_decide_eq_false in Hc. rewrite (wired_has _ _ _ _ _ _ _ H) in Hc.
      by apply skip_responsiveMenu. }
  clear H. intros ? s7 H; simpl in H.
  eapply post_mono; [eapply post_settled; [apply log_settled|exact H]|done|done].
Qed.

Lemma fill_gallery x dF s :
  page = "portafolio" → has "galleryGrid" → wired true true false false dF s →
  wired true true true false dF
    (St (upd_modules component (set_gallery component (Some x)) (this s)) (br s)).
Proof.
  intros Hp Hhas (?&?&?&?&?&?&?&?&?&?&?&?). unfold wired. simpl.
  split_and!; auto; by eexists.
Qed.

Lemma fill_lightbox x dF s :
  page = "portafolio" → has "lightbox" → wired true true true false dF s →
  wired true true true true dF
    (St (upd_modules component (set_lightbox component (Some x)) (this s)) (br s)).
Proof.
  intros Hp Hhas (?&?&?&?&?&?&?&?&?&?&?&?). unfold wired. simpl.
  split_and!; auto; by eexists.
Qed.

Lemma fill_formValidator x s :
  page = "contacto" → has "contactForm" → wired true true true true false s →
  wired true true true true true
    (St (upd_modules component (set_formValidator component (Some x)) (this s)) (br s)).
Proof.
  intros Hp Hhas (?&?&?&?&?&?&?&?&?&?&?&?). unfold wired. simpl.
  split_and!; auto; by eexists.
Qed.

Lemma skip_gallery dL dF s :
  ¬ (page = "portafolio" ∧ has "galleryGrid") → wired true true false dL dF s →
  wired true true true dL dF s.
Proof.
  intros Hhas (?&?&?&?&?&?&?&?&?&?&?&?). unfold wired.
  split_and!; auto; intros; tauto.
Qed.

Lemma skip_lightbox dG dF s :
  ¬ (page = "portafolio" ∧ has "lightbox") → wired true true dG false dF s →
  wired true true dG true dF s.
Proof.
  intros Hhas (?&?&?&?&?&?&?&?&?&?&?&?). unfold wired.
  split_and!; auto; intros; tauto.
Qed.

Lemma skip_formValidator dG dL s :
  ¬ (page = "contacto" ∧ has "contactForm") → wired true true dG dL false s →
  wired true true dG dL true s.
Proof.
  intros Hhas (?&?&?&?&?&?&?&?&?&?&?&?). unfold wired.
  split_and!; auto; intros; tauto.
Qed.

Lemma loadPortfolioModules_wired dF s :
  page = "portafolio" → wired true true false false dF s →
  post (loadPortfolioModules component Gallery Lightbox) s
       (λ _, wired true true true true dF)
       (wired false false false false false).
Proof.
  intros Hp H. unfold loadPortfolioModules.
  stretch log_settled H.
  apply post_browse_bind.
  eapply (post_bind _ _ _ (λ _, wired true true true false dF)).
  { apply post_when; intros Hc.
    - apply bool_decide_eq_true in Hc. rewrite (wired_has _ _ _ _ _ _ _ H) in Hc.
      stretch import_settled H.
      eapply post_bind;
        [eapply post_settled; [by apply external_settled|exact H]|].
      clear H. intros x s5 H; simpl in H. apply post_modify. by apply fill_gallery.
    - apply bool_decide_eq_false in Hc. rewrite (wired_has _ _ _ _ _ _ _ H) in Hc.
      apply skip_gallery; tauto. }
  clear H. intros ? s5 H; simpl in H.
  apply post_browse_bind.
  apply post_when; intros Hc.
  - apply bool_decide_eq_true in Hc. rewrite (wired_has _ _ _ _ _ _ _ H) in Hc.
    stretch import_settled H.
    eapply post_bind;
      [eapply post_settled; [by apply external_settled|exact H]|].
    clear H. intros x s6 H; simpl in H. apply post_modify. by apply fill_lightbox.
  - apply bool_decide_eq_false in Hc. rewrite (wired_has _ _ _ _ _ _ _ H) in Hc.
    apply skip_lightbox; tauto.
Qed.

Lemma loadContactModules_wired s :
  page = "contacto" → wired true true true true false s →
  post (loadContactModules component FormValidator) s
       (λ _, wired true true true true true)
       (wired false false false false false).
Proof.
  intros Hp H. unfold loadContactModules.
  stretch log_settled H.
  apply post_browse_bind.
  apply post_when; intros Hc.
  - apply bool_decide_eq_true in Hc. rewrite (wired_has _ _ _ _ _ _ _ H) in Hc.
    stretch import_settled H.
    eapply post_bind;
      [eapply post_settled; [by apply external_settled|exact H]|].
    clear H. intros x s6 H; simpl in H. apply post_modify.
    by apply fill_formValidator.
  - apply bool_decide_eq_false in Hc. rewrite (wired_has _ _ _ _ _ _ _ H) in Hc.
    apply skip_formValidator; tauto.
Qed.

Lemma wired_all s :
  wired true true false false false s →
  page ≠ "portafolio" → page ≠ "contacto" →
  wired true true true true true s.
Proof.
  intros H Hp Hc.
  apply skip_formValidator; [tauto|].
  apply skip_lightbox; [tauto|]. apply skip_gallery; [tauto|]. exact H.
Qed.

Lemma loadPageModules_wired s :
  wired true true false false false s →
  post (loadPageModules component Gallery Lightbox FormValidator) s
       (λ _, wired true true true true true)
       (wired false false false false false).
Proof.
  intros H. unfold loadPageModules.
  apply post_gets_bind.
  assert (currentPage (state (this s)) = page) as -> by apply H.
  stretch log_settled H.
  destruct (decide (page = "index")) as [Hi|Hi].
  { rewrite bool_decide_eq_true_2 by done.
    eapply post_mono; [eapply post_settled; [apply home_settled|exact H]| |done].
    intros ? s2 H2; simpl in H2. apply wired_all; [done|by rewrite Hi..]. }
  rewrite bool_decide_eq_false_2 by done.
  destruct (decide (page = "portafolio")) as [Hp|Hp].
  { rewrite bool_decide_eq_true_2 by done.
    eapply post_mono; [by apply loadPortfolioModules_wired| |done].
    intros ? s2 H2; simpl in H2. apply skip_formValidator; [|done]. rewrite Hp. by intros [? _]. }
  rewrite bool_decide_eq_false_2 by done.
  destruct (decide (page = "tecnicas")) as [Ht|Ht].
  { rewrite bool_decide_eq_true_2 by done.
    eapply post_mono; [eapply post_settled; [apply techniques_settled|exact H]| |done].
    intros ? s2 H2; simpl in H2. apply wired_all; [done|by rewrite Ht..]. }
  rewrite bool_decide_eq_false_2 by done.
  destruct (decide (page = "progreso")) as [Hg|Hg].
  { rewrite bool_decide_eq_true_2 by done.
    eapply post_mono; [eapply post_settled; [apply progress_settled|exact H]| |done].
    intros ? s2 H2; simpl in H2. apply wired_all; [done|by rewrite Hg..]. }
  rewrite bool_decide_eq_false_2 by done.
  destruct (decide (page = "contacto")) as [Hc|Hc].
  { rewrite bool_decide_eq_true_2 by done.
    apply loadContactModules_wired; [done|].
    apply skip_lightbox; [tauto|]. apply skip_gallery; [tauto|]. exact H. }
  rewrite bool_decide_eq_false_2 by done.
  destruct (decide (page = "materiales")) as [Hm|Hm].
  { rewrite bool_decide_eq_true_2 by done.
    eapply post_mono; [eapply post_settled; [apply materials_settled|exact H]| |done].
    intros ? s2 H2; simpl in H2. by apply wired_all. }
  rewrite bool_decide_eq_false_2 by done.
  eapply post_mono; [eapply post_settled; [apply log_settled|exact H]| |done].
  intros ? s2 H2; simpl in H2. by apply wired_all.
Qed.

Lemma init_try_wired s :
  wired false false false false false s →
  post (init_try component Gallery Lightbox FormValidator) s
       (λ _, wired true true true true true)
       (wired false false false false false).
Proof.
  intros H. unfold init_try.
  stretch log_settled H.
  eapply post_bind; [by apply loadCoreModules_wired|].
  clear H. intros ? s2 H; simpl in H.
  eapply post_bind; [by apply loadPageModules_wired|].
  clear H. intros ? s3 H; simpl in H.
  stretch listeners_settled H.
  apply post_gets_bind.
  stretch applyTheme_settled H.
  eapply post_settled; [|exact H].
  apply settled_intro; [preserves_auto main_ids_leaf|keeps_auto].
Qed.
End wired.

(** *** Errors in [init] *)

Lemma init_try_initialized s :
  post (init_try component Gallery Lightbox FormValidator) s
       (λ _ s', isInitialized (state (this s')) = true)
       (λ s', isInitialized (state (this s')) = isInitialized (state (this s))).
Proof.
  set (I := λ s' : st t, isInitialized (state (this s')) = isInitialized (state (this s))).
  assert (∀ {A} (m : M t A) s1,
            keeps (λ a : t, isInitialized (state a)) m → I s1 → post m s1 (λ _, I) I)
    as Hstep.
  { intros A m s1 Hm H1.
    eapply (post_stable _ I m s1 Hm); [|exact H1].
    intros s2 s3 H2 H3. unfold I in *. simpl in *. congruence. }
  assert (I s) as H by done. unfold init_try.
  eapply post_bind; [apply Hstep; [keeps_auto|exact H]|]. clear H. intros ? s1 H.
  eapply post_bind; [apply Hstep; [keeps_auto|exact H]|]. clear H. intros ? s2 H.
  eapply post_bind; [apply Hstep; [keeps_auto|exact H]|]. clear H. intros ? s3 H.
  eapply post_bind; [apply Hstep; [keeps_auto|exact H]|]. clear H. intros ? s4 H.
  apply post_gets_bind.
  eapply post_bind; [apply Hstep; [keeps_auto|exact H]|]. clear H. intros ? s5 H.
  unfold post, log, console_call, dispatchEvent, act, modify, gets, browse, when,
    mbind, M_bind, mret, M_ret. simpl.
  repeat match goal with
         | |- context [bool_decide ?P] => destruct (bool_decide P) eqn:?; simpl
         end; done.
Qed.

(** C5 (as amended).  After [init] (js/main.js), on an application object
    whose slots are null and that is not yet initialised: a filled slot
    had its element in the document [init] started on: [themeToggle] for
    the theme toggle, [menuToggle] for the menu; and, for the page
    modules, also its page: [galleryGrid] and [lightbox] on the page
    [portafolio], [contactForm] on the page [contacto].  A slot whose
    condition fails stays null.  When [init] completed ([isInitialized]
    is true: no import was rejected, no constructor threw), every slot
    whose condition holds is filled. *)
Theorem C5_slots_follow_elements_and_page (a : t) (b : browser) :
  modules a = Modules None None None None None →
  isInitialized (state a) = false →
  let page := currentPage (state a) in
  let after := init component Gallery Lightbox FormValidator (St a b) in
  let m := modules (this after.2) in
  let present id := is_Some (getElementById id (doc b)) in
  (is_Some (themeToggle m) → present "themeToggle")
  ∧ (is_Some (responsiveMenu m) → present "menuToggle")
  ∧ (is_Some (gallery m) → page = "portafolio" ∧ present "galleryGrid")
  ∧ (is_Some (lightbox m) → page = "portafolio" ∧ present "lightbox")
  ∧ (is_Some (formValidator m) → page = "contacto" ∧ present "contactForm")
  ∧ (isInitialized (state (this after.2)) = true →
       (present "themeToggle" → is_Some (themeToggle m))
       ∧ (present "menuToggle" → is_Some (responsiveMenu m))
       ∧ (page = "portafolio" → present "galleryGrid" → is_Some (gallery m))
       ∧ (page = "portafolio" → present "lightbox" → is_Some (lightbox m))
       ∧ (page = "contacto" → present "contactForm" → is_Some (formValidator m))).
Proof.
  intros Hm Hi page after m present.
  assert (wired b page false false false false false (St a b)) as H0.
  { unfold wired. simpl. rewrite Hm. simpl.
    split_and!; try done; try (by intros [? [=]]). }
  assert (P1 := init_try_wired b page _ H0).
  assert (P2 := init_try_initialized (St a b)).
  unfold post in P1, P2. subst m after. unfold init, try_catch.
  destruct (init_try component Gallery Lightbox FormValidator (St a b))
    as [[[]|e] s1].
  - simpl in *. destruct P1 as (_&_&?&?&?&?&?&?&?&?&?&?).
    split_and!; auto. intros _. split_and!; auto.
  - cbn iota beta. cbn [fst snd] in P1, P2. assert (settled s1 (init_catch component e s1).2) as Hs
      by apply init_catch_settled.
    assert (isInitialized (state (this (init_catch component e s1).2))
            = isInitialized (state (this s1))) as Hk.
    { assert (keeps (λ a : t, isInitialized (state a)) (init_catch component e)) as Hk
        by keeps_auto.
      apply Hk. }
    destruct (wired_settled b page _ _ _ _ _ _ _ P1 Hs)
      as (_&_&?&?&?&?&?&_).
    subst present. unfold has in *.
    split_and!; auto. rewrite Hk, P2. simpl. rewrite Hi. discriminate.
Qed.

End app.

Lemma C5_slots_follow_elements_and_page_witness :
  is_Some (themeToggle
             (modules (this (Samples.app_init (St Samples.app Samples.page)).2)))
  ∧ is_Some (responsiveMenu
               (modules (this (Samples.app_init (St Samples.app Samples.page)).2))).
Proof.
  destruct (C5_slots_follow_elements_and_page unit Samples.no_component
              Samples.no_component (λ _, Samples.no_component)
              (λ b id, eq_refl) (λ b id, eq_refl) (λ _ b id, eq_refl)
              Samples.app Samples.page eq_refl eq_refl)
    as (_ & _ & _ & _ & _ & H).
  destruct H as (H1 & H2 & _); [vm_compute; reflexivity|].
  split; [apply H1|apply H2]; eexists; vm_compute; reflexivity.
Defined.

(** The claim as stated fails for the page modules: on the home page with
    an element [galleryGrid] in the document, [init] completes and the
    gallery slot is still null. *)
Lemma C5_counterexample :
  is_Some (getElementById "galleryGrid" (doc Samples.home))
  ∧ (Samples.app_main (St (fresh unit) Samples.home)).1 = Ok ()
  ∧ isInitialized
      (state (this (Samples.app_main (St (fresh unit) Samples.home)).2)) = true
  ∧ gallery (modules (this (Samples.app_main (St (fresh unit) Samples.home)).2)) = None.
Proof. split; [by eexists|]. repeat split; vm_compute; reflexivity. Qed.

End MainFacts.

(** * Further properties of the scripts *)

(** ** ResponsiveMenu.js *)

Module MenuExtra.
Import ResponsiveMenu MenuFacts.

Section sync.
Variables nav tog : node.

(** The object holds the two elements, and the flag agrees with the four
    conventions of the document. *)
Definition synced (s : st t) : Prop :=
  navMenu (this s) = Some nav ∧ menuToggle (this s) = Some tog
  ∧ body (this s) = Body
  ∧ live nav (doc (br s)) ∧ live tog (doc (br s))
  ∧ has_class nav "active" (br s) = isOpen (this s)
  ∧ has_class Body "menu-open" (br s) = isOpen (this s)
  ∧ (attr tog "aria-expanded" (br s) = Some "true" ↔ isOpen (this s) = true)
  ∧ (style_of Body "overflow" (br s) = "hidden" ↔ isOpen (this s) = true).

Lemma synced_same_doc m b b' : synced (St m b) → doc b' = doc b → synced (St m b').
Proof.
  unfold synced, has_class, attr, style_of, elem. simpl. by intros H ->.
Qed.

Lemma synced_fields m m' b :
  synced (St m b) →
  navMenu m' = navMenu m → menuToggle m' = menuToggle m → body m' = body m →
  isOpen m' = isOpen m →
  synced (St m' b).
Proof. unfold synced. simpl. by intros H -> -> -> ->. Qed.

Lemma opened_live n bd b : live n (doc b) → live n (doc (opened nav tog bd b)).
Proof.
  intros H. apply (opened_obs nav tog bd b (λ b', live n (doc b'))); try done.
  by do 5 apply live_upd_elem.
Qed.

Lemma closed_live n bd b : live n (doc b) → live n (doc (closed nav tog bd b)).
Proof.
  intros H. apply (closed_obs nav tog bd b (λ b', live n (doc b'))); try done.
  by do 5 apply live_upd_elem.
Qed.

Lemma openMenu_synced : maintains synced openMenu.
Proof.
  intros [m b] (Hn & Ht & Hb & Ln & Lt & _). simpl in *.
  assert (live (body m) (doc b)) as Lb by (rewrite Hb; by eexists).
  destruct (openMenu_spec m b nav tog Hn Ht Ln Lt Lb) as (b' & Hrun & H1 & H2 & H3 & H4).
  assert (b' = opened nav tog (body m) b) as Hb'.
  { rewrite (openMenu_run m b nav tog Hn Ht) in Hrun. by injection Hrun. }
  rewrite Hrun. simpl. rewrite Hb in *.
  unfold synced. simpl. rewrite H1, H2, H3, H4.
  split_and!; try done; subst b'; by apply opened_live.
Qed.

Lemma closeMenu_synced : maintains synced closeMenu.
Proof.
  intros [m b] (Hn & Ht & Hb & Ln & Lt & _). simpl in *.
  assert (live (body m) (doc b)) as Lb by (rewrite Hb; by eexists).
  destruct (closeMenu_spec m b nav tog Hn Ht Ln Lt Lb) as (b' & Hrun & H1 & H2 & H3 & H4).
  assert (b' = closed nav tog (body m) b) as Hb'.
  { rewrite (closeMenu_run m b nav tog Hn Ht) in Hrun. by injection Hrun. }
  rewrite Hrun. simpl. rewrite Hb in *.
  unfold synced. simpl. rewrite H1, H2, H3, H4.
  split_and!; try done; subst b'; by apply closed_live.
Qed.

Ltac synced_leaf :=
  first
    [ apply openMenu_synced
    | apply closeMenu_synced
    | apply maintains_act; intros [m b] H; simpl;
      first [ by apply (synced_same_doc m b)
            | apply (synced_same_doc m b); [exact H|by apply same_doc_clearTimeout] ]
    | apply maintains_modify; intros [[] b] H; simpl;
      by apply (synced_fields _ _ _ H)
    | match goal with
      | |- maintains _ (set_timeout _ _) =>
          intros [m b] H; by apply (synced_same_doc m b)
      end ].

Lemma handle_synced e : maintains synced (handle e).
Proof. destruct e; simpl; maintains_auto synced_leaf. Qed.

Lemma after_one_synced h s : synced s → synced (after_one s h).
Proof.
  destruct h as [e|w|dt]; simpl.
  - apply handle_synced.
  - destruct s as [m b]. intros H. by apply (synced_same_doc m b).
  - destruct s as [m b]. intros H. by apply (synced_same_doc m b).
Qed.

Lemma after_all_synced hs s : synced s → synced (after_all hs s).
Proof.
  revert s. induction hs as [|h hs IH]; intros s Hs; [done|].
  simpl. apply IH. by apply after_one_synced.
Qed.
End sync.

Lemma constructor_found b nav tog :
  getElementById "menuToggle" (doc b) = Some tog →
  getElementById "navMenu" (doc b) = Some nav →
  constructor (St fresh b)
  = (Ok (), St (Menu (Some tog) (Some nav) Body false 1024 None true)
               (upd_console
                  (λ c, c ++ [(Log, ["✅ ResponsiveMenu inicializado correctamente"])]) b)).
Proof.
  intros Ht Hn.
  unfold constructor, init, console_call, act, modify, gets, browse, deref,
    mbind, M_bind, mret, M_ret. simpl. by rewrite Ht, Hn.
Qed.

(** X1.  On a page whose markup starts with the menu closed, whatever
    sequence of clicks, key presses, resizes, timers and direct calls of
    openMenu, closeMenu and toggleMenu follows the constructor, [isOpen]
    agrees at every moment with the class [active] of the menu, the class
    [menu-open] of the body, [aria-expanded] of the button and the
    [overflow] of the body. *)
Theorem X1_isOpen_in_sync_at_all_times
    (b : browser) (nav tog : node) (hs : list happening) :
  getElementById "menuToggle" (doc b) = Some tog →
  getElementById "navMenu" (doc b) = Some nav →
  has_class nav "active" b = false →
  has_class Body "menu-open" b = false →
  attr tog "aria-expanded" b ≠ Some "true" →
  style_of Body "overflow" b ≠ "hidden" →
  ∀ s, s = after_all hs (constructor (St fresh b)).2 →
  (isOpen (this s) = true ↔ has_class nav "active" (br s) = true)
  ∧ (isOpen (this s) = true ↔ has_class Body "menu-open" (br s) = true)
  ∧ (isOpen (this s) = true ↔ attr tog "aria-expanded" (br s) = Some "true")
  ∧ (isOpen (this s) = true ↔ style_of Body "overflow" (br s) = "hidden").
Proof.
  intros Ht Hn H1 H2 H3 H4 s ->.
  assert (synced nav tog (constructor (St fresh b)).2) as H0.
  { rewrite (constructor_found b nav tog Ht Hn). unfold synced. simpl.
    split_and!; try done;
      first [ by apply (getElementById_live "navMenu")
            | by apply (getElementById_live "menuToggle")
            | split; [done|discriminate] ]. }
  destruct (after_all_synced nav tog hs _ H0) as (_&_&_&_&_&A&B&C&D).
  rewrite A, B. by split_and!.
Qed.

Lemma X1_isOpen_in_sync_at_all_times_witness :
  (isOpen (this (after_all
                   [Event EToggleClick; Event EResize; Wait 150; Event (ETimer 1)]
                   Samples.menu_state)) = true
     ↔ has_class (Elem 1) "active"
         (br (after_all
                [Event EToggleClick; Event EResize; Wait 150; Event (ETimer 1)]
                Samples.menu_state)) = true)
  ∧ isOpen (this (after_all
                    [Event EToggleClick; Event EResize; Wait 150; Event (ETimer 1)]
                    Samples.menu_state)) = false.
Proof.
  split; [|vm_compute; reflexivity].
  refine (proj1 (X1_isOpen_in_sync_at_all_times Samples.page (Elem 1) (Elem 0)
            [Event EToggleClick; Event EResize; Wait 150; Event (ETimer 1)]
            _ _ _ _ _ _ _ eq_refl)).
  - reflexivity.
  - reflexivity.
  - reflexivity.
  - reflexivity.
  - discriminate.
  - discriminate.
Defined.

(** X2.  When either element is missing the constructor only warns: the
    document and the timers are as before, the menu is closed, and no
    listener is registered, so that clicks, key presses and resizes leave
    the object and the browser exactly as they are. *)
Theorem X2_constructor_without_elements (b : browser) :
  getElementById "menuToggle" (doc b) = None
  ∨ getElementById "navMenu" (doc b) = None →
  ∃ m b',
    constructor (St fresh b) = (Ok (), St m b')
    ∧ console b'
      = console b
        ++ [(Warn, ["ResponsiveMenu: Elementos requeridos no encontrados (menuToggle o navMenu)"])]
    ∧ doc b' = doc b ∧ timers b' = timers b
    ∧ isOpen m = false ∧ listening m = false
    ∧ ∀ e, (∀ id, e ≠ ETimer id) → e ≠ ECallOpen → e ≠ ECallClose → e ≠ ECallToggle →
           handle e (St m b') = (Ok (), St m b').
Proof.
  intros Hmiss.
  assert (bool_decide (getElementById "menuToggle" (doc b) = None)
          || bool_decide (getElementById "navMenu" (doc b) = None) = true) as Hc.
  { apply orb_true_iff. destruct Hmiss as [H|H]; [left|right];
      by apply bool_decide_eq_true. }
  eexists _, _. split.
  { unfold constructor, browse, modify, mbind, M_bind. simpl. rewrite Hc. reflexivity. }
  split_and!; try done.
  intros e He1 He2 He3 He4. destruct e; try done. by destruct (He1 id).
Qed.

Lemma X2_constructor_without_elements_witness :
  ∃ m b',
    constructor (St fresh (Samples.with_doc Samples.bare_doc)) = (Ok (), St m b')
    ∧ console b'
      = console (Samples.with_doc Samples.bare_doc)
        ++ [(Warn, ["ResponsiveMenu: Elementos requeridos no encontrados (menuToggle o navMenu)"])]
    ∧ doc b' = doc (Samples.with_doc Samples.bare_doc)
    ∧ timers b' = timers (Samples.with_doc Samples.bare_doc)
    ∧ isOpen m = false ∧ listening m = false
    ∧ ∀ e, (∀ id, e ≠ ETimer id) → e ≠ ECallOpen → e ≠ ECallClose → e ≠ ECallToggle →
           handle e (St m b') = (Ok (), St m b').
Proof.
  apply (X2_constructor_without_elements (Samples.with_doc Samples.bare_doc)).
  left. reflexivity.
Defined.

(** X3.  The focus trap changes nothing but the focused element.  It moves
    the focus only while the menu is open and the key is Tab, and then only
    to a focusable element inside the menu: from the last one to the first
    on Tab, from the first one to the last on Shift+Tab. *)
Theorem X3_focus_trap_wraps_around (s : st t) (key : string) (shift : bool) :
  let s' := (onTrapKeydown key shift s).2 in
  this s' = this s
  ∧ doc (br s') = doc (br s)
  ∧ (activeElement (br s') ≠ activeElement (br s) →
       isOpen (this s) = true ∧ key = "Tab"
       ∧ ∃ nav n, navMenu (this s) = Some nav
                  ∧ activeElement (br s') = Some n
                  ∧ n ∈ querySelectorAll_in nav SelFocusable (doc (br s)))
  ∧ (∀ nav first rest,
       isOpen (this s) = true → key = "Tab" → navMenu (this s) = Some nav →
       querySelectorAll_in nav SelFocusable (doc (br s)) = first :: rest →
       (shift = false → activeElement (br s) = last (first :: rest) →
          activeElement (br s') = Some first)
       ∧ (shift = true → activeElement (br s) = Some first →
            activeElement (br s') = last (first :: rest))).
Proof.
  destruct s as [m b]. cbv zeta.
  unfold onTrapKeydown, gets, browse, deref, act, mbind, M_bind, mret, M_ret, throw.
  simpl.
  destruct (isOpen m) eqn:Ho; simpl.
  2:{ split_and!; try done; try (intros; discriminate). }
  destruct (decide (key = "Tab")) as [->|Hk].
  2:{ rewrite (bool_decide_eq_true_2 (key ≠ "Tab")) by done. simpl.
      split_and!; try done; try (intros; congruence). }
  rewrite (bool_decide_eq_false_2 ("Tab" ≠ "Tab")) by (intros H; by apply H).
  simpl.
  destruct (navMenu m) as [nav|] eqn:Hn; simpl.
  2:{ split_and!; try done. }
  destruct (querySelectorAll_in nav SelFocusable (doc b)) as [|f l] eqn:Hq; simpl.
  { split_and!; try done. intros nav' f' l' _ _ [= <-]. by rewrite Hq. }
  assert (∃ z, last (f :: l) = Some z ∧ z ∈ f :: l) as (z & Hz & Hzin).
  { destruct (last (f :: l)) as [z|] eqn:Hl.
    - exists z. split; [done|]. apply last_Some in Hl as [l' ->].
      apply elem_of_app. right. left.
    - by apply last_None in Hl. }
  rewrite Hz. simpl.
  destruct shift; simpl.
  - destruct (decide (activeElement b = Some f)) as [Ha|Ha].
    + rewrite bool_decide_eq_true_2 by done. simpl.
      split_and!; try done.
      * intros _. split_and!; try done. exists nav, z. split_and!; try done.
        by rewrite Hq.
      * intros nav' f' l' _ _ [= <-] Hq'; rewrite Hq in Hq';
        injection Hq' as <- <-. split; [discriminate|].
        intros _ _. by rewrite Hz.
    + rewrite bool_decide_eq_false_2 by done. simpl.
      split_and!; try done.
      intros nav' f' l' _ _ [= <-] Hq'; rewrite Hq in Hq';
        injection Hq' as <- <-. split; [discriminate|done].
  - destruct (decide (activeElement b = Some z)) as [Ha|Ha].
    + rewrite bool_decide_eq_true_2 by done. simpl.
      split_and!; try done.
      * intros _. split_and!; try done. exists nav, f. split_and!; try done.
        rewrite Hq. left.
      * intros nav' f' l' _ _ [= <-] Hq'; rewrite Hq in Hq';
        injection Hq' as <- <-. split; [done|discriminate].
    + rewrite bool_decide_eq_false_2 by done. simpl.
      split_and!; try done.
      intros nav' f' l' _ _ [= <-] Hq'; rewrite Hq in Hq';
        injection Hq' as <- <-. split; [|discriminate].
      intros _ Hact. rewrite Hz in Hact. done.
Qed.


(** X5.  [destroy] closes an open menu but removes no listener: the object
    goes on reacting, and the next click on the button opens the menu
    again. *)
Theorem X5_destroy_keeps_listeners (m : t) (b : browser) (nav tog : node) :
  navMenu m = Some nav → menuToggle m = Some tog → body m = Body →
  live nav (doc b) → live tog (doc b) →
  isOpen m = true → listening m = true →
  ∀ s1, s1 = (destroy (St m b)).2 →
  isOpen (this s1) = false
  ∧ has_class nav "active" (br s1) = false
  ∧ listening (this s1) = true
  ∧ isOpen (this (handle EToggleClick s1).2) = true
  ∧ has_class nav "active" (br (handle EToggleClick s1).2) = true.
Proof.
  intros Hn Ht Hb Ln Lt Ho Hl s1 ->.
  assert (live (body m) (doc b)) as Lb by (rewrite Hb; by eexists).
  destruct (closeMenu_spec m b nav tog Hn Ht Ln Lt Lb) as (b' & Hrun & H1 & _).
  assert (b' = closed nav tog (body m) b) as Hb'.
  { rewrite (closeMenu_run m b nav tog Hn Ht) in Hrun. by injection Hrun. }
  assert (destroy (St m b)
          = (Ok (), St (set_isOpen false m)
                       (upd_console (λ c, c ++ [(Log, ["🗑️ ResponsiveMenu destruido"])]) b')))
    as Hd.
  { unfold destroy, gets, mbind, M_bind. simpl. rewrite Ho. simpl.
    unfold mbind, M_bind. rewrite Hrun. reflexivity. }
  assert (∀ b2, handle EToggleClick (St (set_isOpen false m) b2)
                = openMenu (St (set_isOpen false m) b2)) as Hh.
  { intros b2. unfold handle, run_callback, toggleMenu, gets, when, mbind, M_bind.
    simpl. rewrite Hl. reflexivity. }
  rewrite Hd. cbn [snd]. rewrite Hh. cbn [this br].
  set (b2 := upd_console _ b').
  assert (live nav (doc b2)) as Ln2 by (subst b2 b'; by apply closed_live).
  assert (live tog (doc b2)) as Lt2 by (subst b2 b'; by apply closed_live).
  assert (live (body (set_isOpen false m)) (doc b2)) as Lb2
    by (simpl; rewrite Hb; by eexists).
  destruct (openMenu_spec (set_isOpen false m) b2 nav tog Hn Ht Ln2 Lt2 Lb2)
    as (b3 & -> & H3 & _).
  split_and!; done.
Qed.

Lemma X5_destroy_keeps_listeners_witness :
  isOpen (this (destroy (St (set_isOpen true Samples.menu) Samples.page)).2) = false
  ∧ has_class (Elem 1) "active"
      (br (destroy (St (set_isOpen true Samples.menu) Samples.page)).2) = false
  ∧ listening (this (destroy (St (set_isOpen true Samples.menu) Samples.page)).2) = true
  ∧ isOpen (this (handle EToggleClick
                    (destroy (St (set_isOpen true Samples.menu) Samples.page)).2).2) = true
  ∧ has_class (Elem 1) "active"
      (br (handle EToggleClick
             (destroy (St (set_isOpen true Samples.menu) Samples.page)).2).2) = true.
Proof.
  apply (X5_destroy_keeps_listeners (set_isOpen true Samples.menu) Samples.page
           (Elem 1) (Elem 0)); try reflexivity.
  - eexists. reflexivity.
  - eexists. reflexivity.
Defined.
End MenuExtra.
(** ** The theme toggle: what the methods leave behind *)

Module ThemeExtra.
Import ThemeToggle ThemeFacts.

Lemma attr_upd_storage n k g b : attr n k (upd_storage g b) = attr n k b.
Proof. reflexivity. Qed.
Lemma attr_upd_dispatched n k g b : attr n k (upd_dispatched g b) = attr n k b.
Proof. reflexivity. Qed.
Lemma attr_upd_console n k g b : attr n k (upd_console g b) = attr n k b.
Proof. reflexivity. Qed.
Lemma attr_upd_frames n k g b : attr n k (upd_frames g b) = attr n k b.
Proof. reflexivity. Qed.

(** The element [updateMetaThemeColor] creates when the page has no
    [meta name=theme-color]. *)
Definition new_meta : element :=
  Element "meta" (Some Head) {["name" := "theme-color"]} [] ∅ "".

(** The object and the browser once [this.metaThemeColor] is set. *)
Definition meta_ready (x : t) (b : browser) : t * browser :=
  match metaThemeColor x with
  | Some _ => (x, b)
  | None => (set_metaThemeColor (Some (Elem (length (others (doc b))))) x,
             upd_doc (λ _, (append_element new_meta (doc b)).2) b)
  end.

Definition colour (th : string) : string := default "undefined" (themeColors th).

Lemma updateMetaThemeColor_run x b th :
  ∃ m, metaThemeColor (meta_ready x b).1 = Some m
       ∧ updateMetaThemeColor th (St x b)
         = (Ok (), St (meta_ready x b).1
                      (upd_elem (setAttribute "content" (colour th)) m (meta_ready x b).2)).
Proof.
  unfold updateMetaThemeColor, meta_ready.
  destruct x as [tb he [m|] l w]; simpl; eexists; split; reflexivity.
Qed.

Lemma meta_ready_fields x b :
  toggleButton (meta_ready x b).1 = toggleButton x
  ∧ htmlElement (meta_ready x b).1 = htmlElement x
  ∧ listening (meta_ready x b).1 = listening x
  ∧ watching (meta_ready x b).1 = watching x
  ∧ localStorage (meta_ready x b).2 = localStorage b
  ∧ dispatched (meta_ready x b).2 = dispatched b
  ∧ console (meta_ready x b).2 = console b
  ∧ timers (meta_ready x b).2 = timers b
  ∧ frames (meta_ready x b).2 = frames b
  ∧ clock (meta_ready x b).2 = clock b
  ∧ matchMedia (meta_ready x b).2 = matchMedia b.
Proof. unfold meta_ready. by destruct (metaThemeColor x). Qed.

Lemma meta_ready_elem x b n :
  live n (doc b) → elem n (meta_ready x b).2 = elem n b.
Proof.
  intros Hn. unfold meta_ready. destruct (metaThemeColor x); [done|].
  by apply elem_append.
Qed.

Lemma meta_ready_live x b n : live n (doc b) → live n (doc (meta_ready x b).2).
Proof.
  intros Hn. unfold live. change (lookup_node n (doc ?b)) with (elem n b).
  by rewrite meta_ready_elem.
Qed.

Lemma meta_ready_attr x b n k :
  live n (doc b) → attr n k (meta_ready x b).2 = attr n k b.
Proof. intros Hn. unfold attr. by rewrite meta_ready_elem. Qed.

Lemma meta_ready_meta_live x b m :
  (∀ m0, metaThemeColor x = Some m0 → live m0 (doc b)) →
  metaThemeColor (meta_ready x b).1 = Some m → live m (doc (meta_ready x b).2).
Proof.
  intros Hl. unfold meta_ready. destruct (metaThemeColor x) as [m0|] eqn:Hm; simpl.
  - rewrite Hm. intros [= <-]. by apply Hl.
  - intros [= <-]. unfold live. simpl.
    rewrite lookup_app_r by done. rewrite Nat.sub_diag. by eexists.
Qed.

(** The three writes of [updateAriaAttributes] for a current theme. *)
Definition label_of (cur : string) : string :=
  if bool_decide (cur = "light") then "Cambiar a modo oscuro" else "Cambiar a modo claro".

Definition pressed_of (cur : string) : string :=
  if bool_decide (cur = "dark") then "true" else "false".

Definition labelled (cur : string) (btn : node) (b : browser) : browser :=
  upd_elem (setAttribute "title" (label_of cur)) btn
    (upd_elem (setAttribute "aria-pressed" (pressed_of cur)) btn
       (upd_elem (setAttribute "aria-label" (label_of cur)) btn b)).

Lemma updateAriaAttributes_run x b btn :
  toggleButton x = Some btn →
  ∃ cur, getCurrentTheme (St x b) = (Ok cur, St x b)
         ∧ updateAriaAttributes (St x b) = (Ok (), St x (labelled cur btn b)).
Proof.
  intros Hb. destruct (getCurrentTheme_run x b) as (cur & Hrun & _).
  exists cur. split; [done|].
  unfold updateAriaAttributes. unfold mbind at 1, M_bind at 1. rewrite Hrun.
  unfold gets, deref, act, mbind, M_bind, mret, M_ret. simpl. rewrite Hb. simpl.
  unfold labelled, label_of, pressed_of, LIGHT, DARK.
  by destruct (bool_decide (cur = "dark")).
Qed.

Lemma labelled_fields cur btn b :
  localStorage (labelled cur btn b) = localStorage b
  ∧ dispatched (labelled cur btn b) = dispatched b
  ∧ console (labelled cur btn b) = console b
  ∧ timers (labelled cur btn b) = timers b
  ∧ frames (labelled cur btn b) = frames b
  ∧ clock (labelled cur btn b) = clock b
  ∧ matchMedia (labelled cur btn b) = matchMedia b
  ∧ length (others (doc (labelled cur btn b))) = length (others (doc b)).
Proof.
  split_and!; try done. unfold labelled, upd_elem. simpl.
  destruct btn; simpl; try done. by rewrite !length_alter.
Qed.

Lemma labelled_attr cur btn b n k :
  k ≠ "title" → k ≠ "aria-pressed" → k ≠ "aria-label" →
  attr n k (labelled cur btn b) = attr n k b.
Proof.
  intros H1 H2 H3. unfold labelled.
  rewrite !attr_upd_frame; [done|..]; intros e; unfold getAttribute; simpl;
    by rewrite lookup_insert_ne.
Qed.

Lemma labelled_live cur btn b n : live n (doc b) → live n (doc (labelled cur btn b)).
Proof. intros Hn. unfold labelled. by do 3 apply live_upd_elem. Qed.

Lemma labelled_aria cur btn b :
  live btn (doc b) →
  attr btn "aria-label" (labelled cur btn b) = Some (label_of cur)
  ∧ attr btn "aria-pressed" (labelled cur btn b) = Some (pressed_of cur)
  ∧ attr btn "title" (labelled cur btn b) = Some (label_of cur).
Proof.
  intros Hl. unfold labelled. split_and!.
  - rewrite !attr_upd_frame by frame_side. apply attr_upd_set; [frame_side|done].
  - rewrite attr_upd_frame by frame_side.
    apply attr_upd_set; [frame_side|by apply live_upd_elem].
  - apply attr_upd_set; [frame_side|by do 2 apply live_upd_elem].
Qed.

(** The browser a valid [setTheme] leaves. *)
Definition themed (th : string) (save : bool) (x : t) (btn : node) (b : browser)
  : t * browser :=
  let b1 := upd_elem (setAttribute "data-theme" th) (htmlElement x) b in
  let b2 := if save then upd_storage (insert "theme" th) b1 else b1 in
  let x3 := (meta_ready x b2).1 in
  let b3 := (meta_ready x b2).2 in
  let b4 := upd_elem (setAttribute "content" (colour th))
              (match metaThemeColor x3 with Some m => m | None => Html end) b3 in
  let b5 := labelled th btn b4 in
  (x3, upd_dispatched
         (λ l, l ++ [CustomEvent "themeChanged" None (DThemeChanged th (clock b))]) b5).

Lemma setTheme_run x b th save btn :
  th = "light" ∨ th = "dark" →
  htmlElement x = Html → toggleButton x = Some btn →
  setTheme (JStr th) save (St x b)
  = (Ok (), St (themed th save x btn b).1 (themed th save x btn b).2).
Proof.
  intros Hth Hh Hb. rewrite (setTheme_valid_run x b th save Hth).
  set (b2 := if save then _ else _).
  unfold announce. unfold mbind at 1, M_bind at 1.
  destruct (updateMetaThemeColor_run x b2 th) as (m & Hm & ->).
  destruct (meta_ready_fields x b2)
    as (Hf1 & Hf2 & _ & _ & _ & _ & _ & _ & _ & Hclk & _).
  set (b4 := upd_elem _ m _).
  assert (attr Html "data-theme" b4 = Some th) as Hcur.
  { unfold b4. rewrite attr_upd_frame by frame_side.
    rewrite meta_ready_attr by (by eexists).
    unfold b2. rewrite Hh.
    assert (attr Html "data-theme" (upd_elem (setAttribute "data-theme" th) Html b)
            = Some th) as H0 by (apply attr_upd_set; [frame_side|by eexists]).
    by destruct save. }
  unfold mbind at 1, M_bind at 1.
  destruct (updateAriaAttributes_run (meta_ready x b2).1 b4 btn) as (cur & Hc & ->);
    [by rewrite Hf1|].
  destruct (getCurrentTheme_run (meta_ready x b2).1 b4) as (cur' & Hc' & Hcur').
  rewrite Hc in Hc'. injection Hc' as <-.
  rewrite Hf2, Hh, Hcur in Hcur'.
  assert (cur = th) as ->.
  { rewrite Hcur'. destruct Hth as [-> | ->]; reflexivity. }
  unfold dispatchThemeChangeEvent, dispatchEvent, browse, act, mbind, M_bind. simpl.
  unfold themed. simpl. fold b2. rewrite Hm. simpl. fold b4.
  rewrite Hclk. replace (clock b2) with (clock b); [done|].
  unfold b2. by destruct save.
Qed.

(** What holds after a valid [setTheme] on an instance with its button. *)
Record setTheme_result (th : string) (save : bool) (x : t) (b : browser) (btn : node)
    (x' : t) (b' : browser) (m : node) : Prop := {
  sr_theme : attr Html "data-theme" b' = Some th;
  sr_storage : localStorage b' = (if save then <["theme" := th]> (localStorage b)
                                  else localStorage b);
  sr_meta : metaThemeColor x' = Some m;
  sr_meta_kept : ∀ m0, metaThemeColor x = Some m0 → m = m0;
  sr_meta_live : live m (doc b');
  sr_content : attr m "content" b' = Some (colour th);
  sr_pressed : attr btn "aria-pressed" b' = Some (pressed_of th);
  sr_label : attr btn "aria-label" b' = Some (label_of th);
  sr_title : attr btn "title" b' = Some (label_of th);
  sr_dispatched :
    dispatched b'
    = dispatched b ++ [CustomEvent "themeChanged" None (DThemeChanged th (clock b))];
  sr_console : console b' = console b;
  sr_timers : timers b' = timers b;
  sr_frames : frames b' = frames b;
  sr_matchMedia : matchMedia b' = matchMedia b;
  sr_clock : clock b' = clock b;
  sr_nextTimer : nextTimer b' = nextTimer b;
  sr_button : toggleButton x' = Some btn;
  sr_html : htmlElement x' = Html;
  sr_listening : listening x' = listening x;
  sr_watching : watching x' = watching x;
  sr_live : ∀ n, live n (doc b) → live n (doc b');
  sr_size : length (others (doc b'))
            = length (others (doc b)) + (match metaThemeColor x with Some _ => 0 | None => 1 end);
  sr_class : ∀ n c, live n (doc b) → has_class n c b' = has_class n c b
}.

Lemma setTheme_post (x : t) (b : browser) (th : string) (save : bool) (btn : node) :
  th = "light" ∨ th = "dark" →
  htmlElement x = Html → toggleButton x = Some btn → live btn (doc b) →
  (∀ m, metaThemeColor x = Some m → live m (doc b)) →
  ∃ x' b' m,
    setTheme (JStr th) save (St x b) = (Ok (), St x' b')
    ∧ setTheme_result th save x b btn x' b' m.
Proof.
  intros Hth Hh Hb Hl Hm.
  pose proof (setTheme_run x b th save btn Hth Hh Hb) as Hrun. revert Hrun.
  unfold themed; cbn [fst snd]. rewrite Hh.
  remember (upd_elem (setAttribute "data-theme" th) Html b) as b1 eqn:E1.
  assert (attr Html "data-theme" b1 = Some th) as A1.
  { rewrite E1. apply attr_upd_set; [frame_side|by eexists]. }
  assert (∀ n, live n (doc b) → live n (doc b1)) as L1.
  { intros n Hn. rewrite E1. by apply live_upd_elem. }
  assert (∀ n c, has_class n c b1 = has_class n c b) as C1.
  { intros n c. rewrite E1. by rewrite has_class_upd_frame by frame_side. }
  assert (length (others (doc b1)) = length (others (doc b))) as N1.
  { by rewrite E1. }
  assert (localStorage b1 = localStorage b ∧ dispatched b1 = dispatched b
          ∧ console b1 = console b ∧ timers b1 = timers b ∧ frames b1 = frames b
          ∧ matchMedia b1 = matchMedia b ∧ clock b1 = clock b
          ∧ nextTimer b1 = nextTimer b) as F1.
  { by rewrite E1. }
  clear E1.
  remember (if save then upd_storage (insert "theme" th) b1 else b1) as b2 eqn:E2.
  assert (doc b2 = doc b1) as D2 by (rewrite E2; by destruct save).
  assert (localStorage b2 = (if save then <["theme" := th]> (localStorage b)
                             else localStorage b)
          ∧ dispatched b2 = dispatched b
          ∧ console b2 = console b ∧ timers b2 = timers b ∧ frames b2 = frames b
          ∧ matchMedia b2 = matchMedia b ∧ clock b2 = clock b
          ∧ nextTimer b2 = nextTimer b) as F2.
  { destruct F1 as (? & ? & ? & ? & ? & ? & ? & ?).
    rewrite E2. destruct save; simpl; split_and!; congruence. }
  assert (attr Html "data-theme" b2 = Some th) as A2.
  { rewrite E2. by destruct save. }
  assert (∀ n c, has_class n c b2 = has_class n c b) as C2.
  { intros n c. rewrite <- C1, E2. by destruct save. }
  clear E2 F1.
  destruct (updateMetaThemeColor_run x b2 th) as (m & Hmeta & _).
  assert (live m (doc (meta_ready x b2).2)) as Hlm.
  { apply (meta_ready_meta_live x b2 m); [|done]. intros m0 H0.
    unfold live. rewrite D2. by apply L1, Hm. }
  assert (∀ m0, metaThemeColor x = Some m0 → m = m0) as Hkept.
  { intros m0 H0. revert Hmeta. unfold meta_ready. rewrite H0. simpl. rewrite H0.
    congruence. }
  assert (length (others (doc (meta_ready x b2).2))
          = length (others (doc b))
            + (match metaThemeColor x with Some _ => 0 | None => 1 end)) as N3.
  { rewrite <- N1, <- D2. unfold meta_ready.
    destruct (metaThemeColor x); simpl; [lia|]. by rewrite length_app. }
  pose proof (meta_ready_fields x b2)
    as (Hf1 & Hf2 & Hf3 & Hf4 & Hst & Hdi & Hco & Hti & Hfr & Hclk & Hmm).
  assert (nextTimer (meta_ready x b2).2 = nextTimer b2) as Hnt.
  { unfold meta_ready. by destruct (metaThemeColor x). }
  pose proof (meta_ready_attr x b2) as A3.
  pose proof (meta_ready_elem x b2) as E3.
  pose proof (meta_ready_live x b2) as L3.
  rewrite Hmeta. cbn beta iota.
  remember (meta_ready x b2).1 as x3 eqn:Ex3.
  remember (meta_ready x b2).2 as b3 eqn:Eb3.
  clear Ex3 Eb3.
  remember (upd_elem (setAttribute "content" (colour th)) m b3) as b4 eqn:E4.
  assert (attr Html "data-theme" b4 = Some th) as A4.
  { rewrite E4, attr_upd_frame by frame_side. rewrite A3; [done|by eexists]. }
  assert (attr m "content" b4 = Some (colour th)) as K4.
  { rewrite E4. by apply attr_upd_set; [frame_side|]. }
  assert (∀ n, live n (doc b) → live n (doc b4)) as L4.
  { intros n Hn. rewrite E4. apply live_upd_elem, L3. unfold live. rewrite D2.
    by apply L1. }
  assert (live m (doc b4)) as Lm4 by (rewrite E4; by apply live_upd_elem).
  assert (∀ n c, live n (doc b) → has_class n c b4 = has_class n c b) as C4.
  { intros n c Hn. rewrite <- C2, E4. rewrite has_class_upd_frame by frame_side.
    unfold has_class. rewrite E3; [done|]. unfold live. rewrite D2. by apply L1. }
  assert (length (others (doc b4)) = length (others (doc b3))) as N4.
  { rewrite E4. unfold upd_elem. destruct m; simpl; try done. by rewrite length_alter. }
  assert (localStorage b4 = localStorage b3 ∧ dispatched b4 = dispatched b3
          ∧ console b4 = console b3 ∧ timers b4 = timers b3 ∧ frames b4 = frames b3
          ∧ matchMedia b4 = matchMedia b3 ∧ clock b4 = clock b3
          ∧ nextTimer b4 = nextTimer b3) as F4.
  { by rewrite E4. }
  clear E4.
  pose proof (labelled_aria th btn b4 (L4 btn Hl)) as (Ha1 & Ha2 & Ha3).
  pose proof (labelled_fields th btn b4)
    as (Hs5 & Hd5 & Hc5 & Ht5 & Hfr5 & Hclk5 & Hmm5 & Hlen5).
  assert (nextTimer (labelled th btn b4) = nextTimer b4) as Hnt5 by done.
  pose proof (labelled_attr th btn b4) as A5.
  pose proof (labelled_live th btn b4) as L5.
  assert (∀ n c, has_class n c (labelled th btn b4) = has_class n c b4) as C5.
  { intros n c. unfold labelled. by rewrite !has_class_upd_frame by frame_side. }
  remember (labelled th btn b4) as b5 eqn:E5. clear E5.
  destruct F2 as (G1 & G2 & G3 & G4 & G5 & G6 & G7 & G8).
  destruct F4 as (J1 & J2 & J3 & J4 & J5 & J6 & J7 & J8).
  intros Hrun. eexists _, _, m. split; [exact Hrun|]. clear Hrun.
  split.
  - rewrite attr_upd_dispatched, A5 by done. exact A4.
  - change (localStorage b5 = if save then <["theme":=th]> (localStorage b)
                              else localStorage b). congruence.
  - done.
  - done.
  - by apply L5.
  - rewrite attr_upd_dispatched, A5 by done. exact K4.
  - by rewrite attr_upd_dispatched.
  - by rewrite attr_upd_dispatched.
  - by rewrite attr_upd_dispatched.
  - change (dispatched b5 ++ [CustomEvent "themeChanged" None (DThemeChanged th (clock b))]
            = dispatched b
              ++ [CustomEvent "themeChanged" None (DThemeChanged th (clock b))]).
    f_equal. congruence.
  - change (console b5 = console b). congruence.
  - change (timers b5 = timers b). congruence.
  - change (frames b5 = frames b). congruence.
  - change (matchMedia b5 = matchMedia b). congruence.
  - change (clock b5 = clock b). congruence.
  - change (nextTimer b5 = nextTimer b). congruence.
  - by rewrite Hf1.
  - by rewrite Hf2.
  - done.
  - done.
  - intros n Hn. by apply L5, L4.
  - change (length (others (doc b5))
            = length (others (doc b))
              + match metaThemeColor x with Some _ => 0 | None => 1 end).
    congruence.
  - intros n c Hn. change (has_class n c b5 = has_class n c b).
    rewrite C5. by apply C4.
Qed.

(** X6.  A valid [setTheme] on an instance with its button returns
    normally and leaves everything in agreement with the new theme:
    [data-theme] on the document element, the key ["theme"] of local
    storage when saving was asked for (storage is untouched otherwise),
    the [content] of the theme-colour meta tag, the button's label, title
    and [aria-pressed], and one [themeChanged] event carrying the theme and
    the current time. *)
Theorem X6_setTheme_applies_everywhere
    (x : t) (b : browser) (th : string) (save : bool) (btn : node) :
  th = "light" ∨ th = "dark" →
  htmlElement x = Html → toggleButton x = Some btn → live btn (doc b) →
  (∀ m, metaThemeColor x = Some m → live m (doc b)) →
  ∃ x' b' m,
    setTheme (JStr th) save (St x b) = (Ok (), St x' b')
    ∧ attr Html "data-theme" b' = Some th
    ∧ localStorage b' = (if save then <["theme" := th]> (localStorage b)
                         else localStorage b)
    ∧ metaThemeColor x' = Some m
    ∧ attr m "content" b' = Some (if bool_decide (th = "light") then "#FEFEFE"
                                  else "#1A1A1A")
    ∧ attr btn "aria-pressed" b' = Some (if bool_decide (th = "dark") then "true"
                                         else "false")
    ∧ attr btn "aria-label" b' = Some (if bool_decide (th = "light")
                                       then "Cambiar a modo oscuro"
                                       else "Cambiar a modo claro")
    ∧ attr btn "title" b' = attr btn "aria-label" b'
    ∧ dispatched b'
      = dispatched b ++ [CustomEvent "themeChanged" None (DThemeChanged th (clock b))]
    ∧ console b' = console b ∧ timers b' = timers b.
Proof.
  intros Hth Hh Hb Hl Hm.
  destruct (setTheme_post x b th save btn Hth Hh Hb Hl Hm) as (x' & b' & m & Hrun & R).
  exists x', b', m. destruct R. split_and!; try done.
  - rewrite sr_content0. unfold colour. by destruct Hth as [-> | ->].
  - congruence.
Qed.

Lemma X6_setTheme_applies_everywhere_witness :
  ∃ x' b' m,
    setTheme (JStr "dark") true (St Samples.toggle Samples.page) = (Ok (), St x' b')
    ∧ attr Html "data-theme" b' = Some "dark"
    ∧ localStorage b' = (if true then <["theme" := "dark"]> (localStorage Samples.page)
                         else localStorage Samples.page)
    ∧ metaThemeColor x' = Some m
    ∧ attr m "content" b' = Some (if bool_decide ("dark" = "light") then "#FEFEFE"
                                  else "#1A1A1A")
    ∧ attr (Elem 4) "aria-pressed" b'
      = Some (if bool_decide ("dark" = "dark") then "true" else "false")
    ∧ attr (Elem 4) "aria-label" b' = Some (if bool_decide ("dark" = "light")
                                            then "Cambiar a modo oscuro"
                                            else "Cambiar a modo claro")
    ∧ attr (Elem 4) "title" b' = attr (Elem 4) "aria-label" b'
    ∧ dispatched b'
      = dispatched Samples.page
        ++ [CustomEvent "themeChanged" None (DThemeChanged "dark" (clock Samples.page))]
    ∧ console b' = console Samples.page ∧ timers b' = timers Samples.page.
Proof.
  apply (X6_setTheme_applies_everywhere Samples.toggle Samples.page "dark" true (Elem 4)).
  - right. reflexivity.
  - reflexivity.
  - reflexivity.
  - eexists. reflexivity.
  - intros m H. discriminate H.
Defined.

(** *** Toggling *)

Definition flipped (cur : string) : string :=
  if bool_decide (cur = "light") then "dark" else "light".

Lemma flipped_valid cur : flipped cur = "light" ∨ flipped cur = "dark".
Proof. unfold flipped. case_bool_decide; auto. Qed.

Lemma animateButton_run x b btn :
  toggleButton x = Some btn →
  animateButton (St x b)
  = (Ok (), St x (setTimeout (CbRemoveClass btn "theme-toggle-active") 300
                    (upd_elem (classList_add "theme-toggle-active") btn b)).2).
Proof.
  intros Hb. unfold animateButton, gets, deref, act, set_timeout, mbind, M_bind,
    mret, M_ret. simpl. by rewrite Hb.
Qed.

(** What holds after [toggleTheme], besides the result of its [setTheme]. *)
Record toggled (x : t) (b : browser) (btn : node) (cur : string)
    (x' : t) (b' : browser) : Prop := {
  tg_theme : attr Html "data-theme" b' = Some (flipped cur);
  tg_storage : localStorage b' = <["theme" := flipped cur]> (localStorage b);
  tg_pressed : attr btn "aria-pressed" b' = Some (pressed_of (flipped cur));
  tg_label : attr btn "aria-label" b' = Some (label_of (flipped cur));
  tg_dispatched :
    dispatched b'
    = dispatched b
      ++ [CustomEvent "themeChanged" None (DThemeChanged (flipped cur) (clock b))];
  tg_class : has_class btn "theme-toggle-active" b' = true;
  tg_timers :
    timers b'
    = timers b ++ [Timer (nextTimer b) (clock b + 300)
                     (CbRemoveClass btn "theme-toggle-active")];
  tg_console :
    console b'
    = console b ++ [(Log, ["🔄 Tema cambiado: " +:+ cur +:+ " → " +:+ flipped cur])];
  tg_clock : clock b' = clock b;
  tg_button : toggleButton x' = Some btn;
  tg_html : htmlElement x' = Html;
  tg_live : ∀ n, live n (doc b) → live n (doc b');
  tg_meta_live : ∀ m, metaThemeColor x' = Some m → live m (doc b');
  tg_size : length (others (doc b'))
            = length (others (doc b))
              + (match metaThemeColor x with Some _ => 0 | None => 1 end);
  tg_meta : is_Some (metaThemeColor x')
}.

Lemma toggleTheme_post (x : t) (b : browser) (btn : node) :
  htmlElement x = Html → toggleButton x = Some btn → live btn (doc b) →
  (∀ m, metaThemeColor x = Some m → live m (doc b)) →
  ∃ cur x' b',
    getCurrentTheme (St x b) = (Ok cur, St x b)
    ∧ toggleTheme (St x b) = (Ok (), St x' b')
    ∧ toggled x b btn cur x' b'.
Proof.
  intros Hh Hb Hl Hm.
  destruct (getCurrentTheme_run x b) as (cur & Hcur & _).
  destruct (setTheme_post x b (flipped cur) true btn (flipped_valid cur) Hh Hb Hl Hm)
    as (x1 & b1 & m & Hset & R).
  destruct R.
  pose proof (animateButton_run x1 b1 btn sr_button0) as Hanim.
  remember (upd_elem (classList_add "theme-toggle-active") btn b1) as b2 eqn:E2.
  assert (has_class btn "theme-toggle-active" b2 = true) as C2.
  { rewrite E2. apply has_class_upd_set; [frame_side|]. by apply sr_live0. }
  assert (∀ n k, attr n k b2 = attr n k b1) as A2.
  { intros n k. rewrite E2. by rewrite attr_upd_frame by frame_side. }
  assert (∀ n, live n (doc b1) → live n (doc b2)) as L2.
  { intros n Hn. rewrite E2. by apply live_upd_elem. }
  assert (length (others (doc b2)) = length (others (doc b1))) as N2.
  { rewrite E2. unfold upd_elem. destruct btn; simpl; try done.
    by rewrite length_alter. }
  assert (localStorage b2 = localStorage b1 ∧ dispatched b2 = dispatched b1
          ∧ console b2 = console b1 ∧ timers b2 = timers b1
          ∧ clock b2 = clock b1 ∧ nextTimer b2 = nextTimer b1)
    as (F1 & F2 & F3 & F4 & F5 & F6) by (by rewrite E2).
  clear E2.
  exists cur, x1.
  eexists. split; [done|]. split.
  { unfold toggleTheme. unfold mbind at 1, M_bind at 1. rewrite Hcur.
    fold (flipped cur). unfold mbind at 1, M_bind at 1. unfold LIGHT, DARK.
    fold (flipped cur). rewrite Hset.
    unfold mbind at 1, M_bind at 1. rewrite Hanim. reflexivity. }
  split.
  - change (attr Html "data-theme" b2 = Some (flipped cur)). by rewrite A2.
  - change (localStorage b2 = <["theme":=flipped cur]> (localStorage b)). congruence.
  - change (attr btn "aria-pressed" b2 = Some (pressed_of (flipped cur))).
    by rewrite A2.
  - change (attr btn "aria-label" b2 = Some (label_of (flipped cur))). by rewrite A2.
  - change (dispatched b2 = dispatched b
             ++ [CustomEvent "themeChanged" None (DThemeChanged (flipped cur) (clock b))]).
    congruence.
  - exact C2.
  - change (timers b2 ++ [Timer (nextTimer b2) (clock b2 + 300)
                            (CbRemoveClass btn "theme-toggle-active")]
            = timers b ++ [Timer (nextTimer b) (clock b + 300)
                             (CbRemoveClass btn "theme-toggle-active")]).
    congruence.
  - change (console b2 ++ [(Log, ["🔄 Tema cambiado: " +:+ cur +:+ " → " +:+ flipped cur])]
            = console b
              ++ [(Log, ["🔄 Tema cambiado: " +:+ cur +:+ " → " +:+ flipped cur])]).
    congruence.
  - change (clock b2 = clock b). congruence.
  - done.
  - done.
  - intros n Hn. by apply L2, sr_live0.
  - intros m0 H0. apply L2. rewrite sr_meta0 in H0. by injection H0 as <-.
  - change (length (others (doc b2))
            = length (others (doc b))
              + match metaThemeColor x with Some _ => 0 | None => 1 end).
    congruence.
  - by eexists.
Qed.

(** X7.  Toggling twice gives back the theme one started from: in
    [data-theme], under the storage key, and in [aria-pressed] of the
    button; the two [themeChanged] events announce the other theme and then
    the original one. *)
Theorem X7_toggle_twice_restores (x : t) (b : browser) (btn : node) (cur : string) :
  htmlElement x = Html → toggleButton x = Some btn → live btn (doc b) →
  (∀ m, metaThemeColor x = Some m → live m (doc b)) →
  (getCurrentTheme (St x b)).1 = Ok cur →
  cur = "light" ∨ cur = "dark" →
  ∃ x2 b2,
    (toggleTheme;; toggleTheme) (St x b) = (Ok (), St x2 b2)
    ∧ attr Html "data-theme" b2 = Some cur
    ∧ localStorage b2 !! "theme" = Some cur
    ∧ attr btn "aria-pressed" b2
      = Some (if bool_decide (cur = "dark") then "true" else "false")
    ∧ ev_detail <$> drop (length (dispatched b)) (dispatched b2)
      = [DThemeChanged (if bool_decide (cur = "light") then "dark" else "light")
           (clock b);
         DThemeChanged cur (clock b)].
Proof.
  intros Hh Hb Hl Hm Hcur Hv.
  destruct (toggleTheme_post x b btn Hh Hb Hl Hm) as (cur1 & x1 & b1 & Hc1 & Hr1 & T1).
  rewrite Hc1 in Hcur. injection Hcur as ->.
  destruct T1.
  destruct (toggleTheme_post x1 b1 btn tg_html0 tg_button0 (tg_live0 btn Hl)
              tg_meta_live0) as (cur2 & x2 & b2 & Hc2 & Hr2 & T2).
  assert (cur2 = flipped cur) as ->.
  { destruct (getCurrentTheme_run x1 b1) as (c & Hc & Hval).
    rewrite Hc in Hc2. injection Hc2 as <-.
    rewrite tg_html0, tg_theme0 in Hval. rewrite Hval.
    unfold flipped. by repeat case_bool_decide. }
  assert (flipped (flipped cur) = cur) as Hback.
  { unfold flipped. destruct Hv as [-> | ->]; reflexivity. }
  destruct T2. rewrite Hback in *.
  exists x2, b2. split_and!.
  - unfold mbind, M_bind. by rewrite Hr1.
  - done.
  - rewrite tg_storage1. apply lookup_insert_eq.
  - done.
  - rewrite tg_dispatched1, tg_dispatched0, tg_clock0.
    rewrite <- app_assoc. by rewrite drop_app_length.
Qed.

Lemma X7_toggle_twice_restores_witness :
  ∃ x2 b2,
    (toggleTheme;; toggleTheme) (St Samples.toggle Samples.page) = (Ok (), St x2 b2)
    ∧ attr Html "data-theme" b2 = Some "light"
    ∧ localStorage b2 !! "theme" = Some "light"
    ∧ attr (Elem 4) "aria-pressed" b2
      = Some (if bool_decide ("light" = "dark") then "true" else "false")
    ∧ ev_detail <$> drop (length (dispatched Samples.page)) (dispatched b2)
      = [DThemeChanged (if bool_decide ("light" = "light") then "dark" else "light")
           (clock Samples.page);
         DThemeChanged "light" (clock Samples.page)].
Proof.
  apply (X7_toggle_twice_restores Samples.toggle Samples.page (Elem 4) "light").
  - reflexivity.
  - reflexivity.
  - eexists. reflexivity.
  - intros m H. discriminate H.
  - reflexivity.
  - left. reflexivity.
Defined.

(** X8.  The theme-colour meta tag is created at most once: the first
    valid [setTheme] adds one element when the instance has no meta tag and
    none when it has one; it is remembered, and a second call reuses it,
    adds nothing, and sets its [content] to the colour of the new theme. *)
Theorem X8_meta_tag_created_once
    (x : t) (b : browser) (btn : node) (th1 th2 : string) (save1 save2 : bool) :
  th1 = "light" ∨ th1 = "dark" → th2 = "light" ∨ th2 = "dark" →
  htmlElement x = Html → toggleButton x = Some btn → live btn (doc b) →
  (∀ m, metaThemeColor x = Some m → live m (doc b)) →
  ∃ x1 b1 x2 b2 m,
    setTheme (JStr th1) save1 (St x b) = (Ok (), St x1 b1)
    ∧ setTheme (JStr th2) save2 (St x1 b1) = (Ok (), St x2 b2)
    ∧ length (others (doc b1))
      = length (others (doc b))
        + (match metaThemeColor x with Some _ => 0 | None => 1 end)
    ∧ length (others (doc b2)) = length (others (doc b1))
    ∧ metaThemeColor x1 = Some m ∧ metaThemeColor x2 = Some m
    ∧ (∀ m0, metaThemeColor x = Some m0 → m = m0)
    ∧ attr m "content" b2 = Some (if bool_decide (th2 = "light") then "#FEFEFE"
                                  else "#1A1A1A").
Proof.
  intros H1 H2 Hh Hb Hl Hm.
  destruct (setTheme_post x b th1 save1 btn H1 Hh Hb Hl Hm)
    as (x1 & b1 & m & Hr1 & R1).
  destruct R1.
  assert (∀ m0, metaThemeColor x1 = Some m0 → live m0 (doc b1)) as Hm1.
  { intros m0 H0. rewrite sr_meta0 in H0. by injection H0 as <-. }
  destruct (setTheme_post x1 b1 th2 save2 btn H2 sr_html0 sr_button0
              (sr_live0 btn Hl) Hm1) as (x2 & b2 & m2 & Hr2 & R2).
  destruct R2.
  assert (m2 = m) as -> by (by apply sr_meta_kept1).
  exists x1, b1, x2, b2, m. split_and!; try done.
  - rewrite sr_size1, sr_meta0. lia.
  - rewrite sr_content1. unfold colour. by destruct H2 as [-> | ->].
Qed.

Lemma X8_meta_tag_created_once_witness :
  ∃ x1 b1 x2 b2 m,
    setTheme (JStr "dark") true (St Samples.toggle Samples.page) = (Ok (), St x1 b1)
    ∧ setTheme (JStr "light") false (St x1 b1) = (Ok (), St x2 b2)
    ∧ length (others (doc b1))
      = length (others (doc Samples.page))
        + (match metaThemeColor Samples.toggle with Some _ => 0 | None => 1 end)
    ∧ length (others (doc b2)) = length (others (doc b1))
    ∧ metaThemeColor x1 = Some m ∧ metaThemeColor x2 = Some m
    ∧ (∀ m0, metaThemeColor Samples.toggle = Some m0 → m = m0)
    ∧ attr m "content" b2 = Some (if bool_decide ("light" = "light") then "#FEFEFE"
                                  else "#1A1A1A").
Proof.
  apply (X8_meta_tag_created_once Samples.toggle Samples.page (Elem 4)
           "dark" "light" true false).
  - right. reflexivity.
  - left. reflexivity.
  - reflexivity.
  - reflexivity.
  - eexists. reflexivity.
  - intros m H. discriminate H.
Defined.

(** *** The system preference *)

#[local] Arguments setTheme : simpl never.

Definition system_theme (dark : bool) : string := if dark then "dark" else "light".

Lemma system_theme_valid dark : system_theme dark = "light" ∨ system_theme dark = "dark".
Proof. destruct dark; auto. Qed.

Lemma getInitialTheme_run (x : t) (b : browser) :
  ∃ th, getInitialTheme (St x b) = (Ok th, St x b)
        ∧ (th = "light" ∨ th = "dark")
        ∧ (localStorage b !! "theme" = None →
           th = system_theme (bool_decide (matchMedia b = Some true))).
Proof.
  unfold getInitialTheme, getItem, browse, mbind, M_bind, mret, M_ret. simpl.
  destruct (localStorage b !! "theme") as [saved|].
  - destruct (decide (saved = "light")) as [->|Hl];
      [simpl; eexists; split_and!; [reflexivity|by left|done]|].
    destruct (decide (saved = "dark")) as [->|Hd];
      [simpl; eexists; split_and!; [reflexivity|by right|done]|].
    unfold LIGHT, DARK.
    rewrite (bool_decide_eq_false_2 (saved = "light")) by done.
    rewrite (bool_decide_eq_false_2 (saved = "dark")) by done.
    rewrite andb_false_r. simpl.
    destruct (matchMedia b) as [[]|]; simpl; eexists;
      (split_and!; [reflexivity| |done]); auto.
  - simpl. destruct (matchMedia b) as [[]|]; simpl; eexists;
      (split_and!; [reflexivity| |done]); auto.
Qed.

(** X9.  [resetToSystemPreference] forgets the saved theme and applies the
    system's one without saving it, so that the next page load follows the
    system again.  Where [window.matchMedia] does not exist it throws a
    [TypeError], after the saved theme has been removed and before anything
    else has changed. *)
Theorem X9_reset_follows_system (x : t) (b : browser) (btn : node) :
  htmlElement x = Html → toggleButton x = Some btn → live btn (doc b) →
  (∀ m, metaThemeColor x = Some m → live m (doc b)) →
  (∀ dark, matchMedia b = Some dark →
     ∃ x' b',
       resetToSystemPreference (St x b) = (Ok (), St x' b')
       ∧ attr Html "data-theme" b' = Some (if dark then "dark" else "light")
       ∧ localStorage b' = delete "theme" (localStorage b)
       ∧ (getInitialTheme (St x' b')).1 = Ok (if dark then "dark" else "light"))
  ∧ (matchMedia b = None →
       resetToSystemPreference (St x b)
       = (Throw (TypeError "window.matchMedia is not a function"),
          St x (upd_storage (delete "theme") b))).
Proof.
  intros Hh Hb Hl Hm. split.
  - intros dark Hmm.
    set (b0 := upd_storage (delete "theme") b).
    destruct (setTheme_post x b0 (system_theme dark) false btn
                (system_theme_valid dark) Hh Hb Hl Hm) as (x' & b' & m & Hrun & R).
    destruct R.
    assert (system_theme dark = if dark then DARK else LIGHT) as Hsys0
      by (by destruct dark).
    rewrite Hsys0 in Hrun.
    eexists x', _. split.
    { unfold resetToSystemPreference, removeItem, act, browse, mbind, M_bind. simpl.
      rewrite Hmm. fold b0. rewrite Hrun. reflexivity. }
    assert (localStorage b' = delete "theme" (localStorage b)) as Hst by done.
    split_and!.
    + change (attr Html "data-theme" b' = Some (system_theme dark)). done.
    + done.
    + match goal with
      | |- (getInitialTheme (St ?a ?bb)).1 = _ =>
          destruct (getInitialTheme_run a bb) as (th & Hth & _ & Hsys);
          assert (matchMedia bb = Some dark) as Hmm'
            by (trans (matchMedia b'); [done|by rewrite sr_matchMedia0]);
          assert (localStorage bb !! "theme" = None) as Hno
            by (trans (localStorage b' !! "theme");
                [done|rewrite Hst; apply lookup_delete_eq])
      end.
      rewrite Hth. simpl. f_equal. rewrite (Hsys Hno), Hmm'. by destruct dark.
  - intros Hmm.
    unfold resetToSystemPreference, removeItem, act, browse, mbind, M_bind. simpl.
    by rewrite Hmm.
Qed.

Lemma X9_reset_follows_system_witness :
  (∀ dark, matchMedia Samples.page = Some dark →
     ∃ x' b',
       resetToSystemPreference (St Samples.toggle Samples.page) = (Ok (), St x' b')
       ∧ attr Html "data-theme" b' = Some (if dark then "dark" else "light")
       ∧ localStorage b' = delete "theme" (localStorage Samples.page)
       ∧ (getInitialTheme (St x' b')).1 = Ok (if dark then "dark" else "light"))
  ∧ (matchMedia Samples.page = None →
       resetToSystemPreference (St Samples.toggle Samples.page)
       = (Throw (TypeError "window.matchMedia is not a function"),
          St Samples.toggle (upd_storage (delete "theme") Samples.page))).
Proof.
  apply (X9_reset_follows_system Samples.toggle Samples.page (Elem 4)).
  - reflexivity.
  - reflexivity.
  - eexists. reflexivity.
  - intros m H. discriminate H.
Defined.

(** X10.  A change of the system preference is followed only while no
    theme is saved; following it saves the theme, so every later change of
    the system preference is ignored. *)
Theorem X10_system_change_followed_once
    (x : t) (b : browser) (btn : node) (dark : bool) :
  htmlElement x = Html → toggleButton x = Some btn → live btn (doc b) →
  (∀ m, metaThemeColor x = Some m → live m (doc b)) →
  (localStorage b !! "theme" = None →
     ∃ x' b',
       onSystemPreferenceChange dark (St x b) = (Ok (), St x' b')
       ∧ attr Html "data-theme" b' = Some (if dark then "dark" else "light")
       ∧ localStorage b' !! "theme" = Some (if dark then "dark" else "light")
       ∧ ∀ dark', onSystemPreferenceChange dark' (St x' b') = (Ok (), St x' b'))
  ∧ (∀ saved, localStorage b !! "theme" = Some saved → saved ≠ "" →
       onSystemPreferenceChange dark (St x b) = (Ok (), St x b)).
Proof.
  intros Hh Hb Hl Hm. split.
  - intros Hnone.
    destruct (setTheme_post x b (system_theme dark) true btn
                (system_theme_valid dark) Hh Hb Hl Hm) as (x' & b' & m & Hrun & R).
    destruct R.
    assert (localStorage b' !! "theme" = Some (system_theme dark)) as Hsaved.
    { rewrite sr_storage0. apply lookup_insert_eq. }
    assert (system_theme dark = if dark then DARK else LIGHT) as Hsys0
      by (by destruct dark).
    rewrite Hsys0 in Hrun.
    eexists x', _. split.
    { unfold onSystemPreferenceChange, getItem, browse. unfold mbind at 1, M_bind at 1.
      simpl. rewrite Hnone. simpl.
      unfold mbind, M_bind. rewrite Hrun. reflexivity. }
    replace (if dark then DARK else LIGHT) with (system_theme dark)
      by (by destruct dark).
    split_and!.
    + change (attr Html "data-theme" b' = Some (system_theme dark)). done.
    + exact Hsaved.
    + intros dark'.
      unfold onSystemPreferenceChange, getItem, browse. unfold mbind at 1, M_bind at 1.
      simpl. rewrite Hsaved. by destruct dark.
  - intros saved Hs Hne.
    unfold onSystemPreferenceChange, getItem, browse. unfold mbind at 1, M_bind at 1.
    simpl. rewrite Hs. simpl. by rewrite bool_decide_eq_false_2.
Qed.

Lemma X10_system_change_followed_once_witness :
  (localStorage Samples.page !! "theme" = None →
     ∃ x' b',
       onSystemPreferenceChange true (St Samples.toggle Samples.page) = (Ok (), St x' b')
       ∧ attr Html "data-theme" b' = Some (if true then "dark" else "light")
       ∧ localStorage b' !! "theme" = Some (if true then "dark" else "light")
       ∧ ∀ dark', onSystemPreferenceChange dark' (St x' b') = (Ok (), St x' b'))
  ∧ (∀ saved, localStorage Samples.page !! "theme" = Some saved → saved ≠ "" →
       onSystemPreferenceChange true (St Samples.toggle Samples.page)
       = (Ok (), St Samples.toggle Samples.page)).
Proof.
  apply (X10_system_change_followed_once Samples.toggle Samples.page (Elem 4) true).
  - reflexivity.
  - reflexivity.
  - eexists. reflexivity.
  - intros m H. discriminate H.
Defined.

(** *** The constructor *)






(** X12.  On an instance without its button a valid [setTheme] throws a
    [TypeError] once it reaches the button's attributes: by then the theme
    is already in [data-theme] and, when asked for, in local storage, but no
    [themeChanged] event has been dispatched. *)
Theorem X12_setTheme_without_button
    (x : t) (b : browser) (th : string) (save : bool) :
  th = "light" ∨ th = "dark" →
  htmlElement x = Html → toggleButton x = None →
  ∃ x' b',
    setTheme (JStr th) save (St x b)
    = (Throw (TypeError "Cannot read properties of null: setAttribute"), St x' b')
    ∧ attr Html "data-theme" b' = Some th
    ∧ localStorage b' = (if save then <["theme" := th]> (localStorage b)
                         else localStorage b)
    ∧ dispatched b' = dispatched b.
Proof.
  intros Hth Hh Hb.
  rewrite (setTheme_valid_run x b th save Hth), Hh.
  remember (upd_elem (setAttribute "data-theme" th) Html b) as b1 eqn:E1.
  assert (attr Html "data-theme" b1 = Some th) as A1.
  { rewrite E1. apply attr_upd_set; [frame_side|by eexists]. }
  assert (localStorage b1 = localStorage b ∧ dispatched b1 = dispatched b)
    as (S1 & D1) by (by rewrite E1).
  clear E1.
  remember (if save then upd_storage (insert "theme" th) b1 else b1) as b2 eqn:E2.
  assert (attr Html "data-theme" b2 = Some th) as A2 by (rewrite E2; by destruct save).
  assert (localStorage b2 = (if save then <["theme" := th]> (localStorage b)
                             else localStorage b) ∧ dispatched b2 = dispatched b)
    as (S2 & D2).
  { rewrite E2. destruct save; simpl; split; congruence. }
  clear E2.
  destruct (updateMetaThemeColor_run x b2 th) as (m & Hmeta & Hrun).
  pose proof (meta_ready_fields x b2)
    as (Hf1 & _ & _ & _ & Hst & Hdi & _).
  pose proof (meta_ready_attr x b2 Html "data-theme") as A3.
  remember (meta_ready x b2).1 as x3 eqn:Ex3.
  remember (meta_ready x b2).2 as b3 eqn:Eb3.
  clear Ex3 Eb3.
  remember (upd_elem (setAttribute "content" (colour th)) m b3) as b4 eqn:E4.
  assert (attr Html "data-theme" b4 = Some th) as A4.
  { rewrite E4, attr_upd_frame by frame_side. rewrite A3; [done|by eexists]. }
  assert (localStorage b4 = localStorage b3 ∧ dispatched b4 = dispatched b3)
    as (S4 & D4) by (by rewrite E4).
  clear E4.
  exists x3, b4. split.
  { unfold announce. unfold mbind at 1, M_bind at 1. rewrite Hrun.
    unfold mbind at 1, M_bind at 1.
    destruct (getCurrentTheme_run x3 b4) as (cur & Hcur & _).
    unfold updateAriaAttributes. unfold mbind at 1, M_bind at 1. rewrite Hcur.
    unfold gets, deref, mbind, M_bind. simpl. rewrite Hf1, Hb. reflexivity. }
  split_and!; congruence.
Qed.

Lemma X12_setTheme_without_button_witness :
  ∃ x' b',
    setTheme (JStr "dark") true (St fresh Samples.page)
    = (Throw (TypeError "Cannot read properties of null: setAttribute"), St x' b')
    ∧ attr Html "data-theme" b' = Some "dark"
    ∧ localStorage b' = (if true then <["theme" := "dark"]> (localStorage Samples.page)
                         else localStorage Samples.page)
    ∧ dispatched b' = dispatched Samples.page.
Proof.
  apply (X12_setTheme_without_button fresh Samples.page "dark" true).
  - right. reflexivity.
  - reflexivity.
  - reflexivity.
Defined.
End ThemeExtra.
(** ** The image loader: invariants and whole runs *)

Module LoaderExtra.
Import ImageLoader.

(** The module's state after a sequence of calls of its functions and of
    the callbacks it registered, in any order. *)
Definition after (ops : list operation) (s : st t) : st t :=
  foldl (λ s o, (run o s).2) s ops.

(** *** The retry counters *)

Definition counters_bounded (s : st t) : Prop :=
  ∀ img r, retryMap (this s) !! img = Some r → 1 ≤ r ≤ 3.

Ltac counters_leaf :=
  idtac;
  match goal with
  | |- maintains _ (act _) => by intros ? ?
  | |- maintains _ (console_call _ _) => by intros ? ?
  | |- maintains _ (dispatchEvent _) => by intros ? ?
  | |- maintains _ (set_timeout _ _) => by intros ? ?
  | |- maintains _ (create_element _) => by intros ? ?
  | |- maintains _ (modify (set_imageObserver _)) => by intros ? ?
  | |- maintains _ (modify (λ x, set_imageObserver _ x)) => by intros ? ?
  | |- maintains _ (modify (set_retryMap (delete _))) =>
      let s := fresh "s" in let Hs := fresh "Hs" in
      let i := fresh "i" in let r := fresh "r" in let H := fresh "H" in
      intros s Hs i r H; simpl in H;
      apply lookup_delete_Some in H as [_ H]; by apply (Hs i r)
  | |- maintains _ (modify (set_retryMap (λ _, ∅))) =>
      let s := fresh "s" in let Hs := fresh "Hs" in
      let i := fresh "i" in let r := fresh "r" in let H := fresh "H" in
      intros s Hs i r H; simpl in H; by rewrite lookup_empty in H
  end.

Lemma handleImageError_bounded img src :
  maintains counters_bounded (handleImageError img src).
Proof.
  unfold handleImageError.
  apply maintains_bind; [apply maintains_gets|]. intros r.
  case_bool_decide as Hr.
  - apply maintains_bind.
    + intros s Hs i r' H. simpl in H.
      destruct (decide (img = i)) as [->|Hne].
      * rewrite lookup_insert_eq in H. injection H as <-. simpl in Hr. lia.
      * rewrite lookup_insert_ne in H by done. by apply (Hs i r').
    + maintains_auto counters_leaf.
  - maintains_auto counters_leaf.
Qed.

Lemma loadImage_bounded img : maintains counters_bounded (loadImage img).
Proof. unfold loadImage. maintains_auto counters_leaf. Qed.

Lemma handleImageLoaded_bounded img src srcset :
  maintains counters_bounded (handleImageLoaded img src srcset).
Proof. unfold handleImageLoaded. maintains_auto counters_leaf. Qed.

Lemma initImageLoader_bounded : maintains counters_bounded initImageLoader.
Proof. unfold initImageLoader. maintains_auto counters_leaf. Qed.

Lemma run_bounded o : maintains counters_bounded (run o).
Proof.
  destruct o; cbn [run].
  - apply initImageLoader_bounded.
  - unfold observeImages. maintains_auto counters_leaf.
  - unfold handleIntersection.
    apply maintains_for_each. intros e. apply maintains_when.
    apply maintains_bind; [apply loadImage_bounded|]. intros _. by intros ? ?.
  - apply loadImage_bounded.
  - apply handleImageLoaded_bounded.
  - apply handleImageError_bounded.
  - unfold loadAllImagesImmediately. maintains_auto counters_leaf.
  - unfold preloadCriticalImages. maintains_auto counters_leaf.
  - unfold loadImagesInContainer.
    apply maintains_bind; [apply maintains_browse|]. intros [c|].
    + apply maintains_bind; [apply maintains_browse|]. intros l.
      apply maintains_bind; [|intros _; counters_leaf].
      apply maintains_for_each. apply loadImage_bounded.
    + counters_leaf.
  - unfold updateImageWithFade. maintains_auto counters_leaf.
  - apply maintains_bind; [|intros ?; apply maintains_ret].
    unfold getLoadingStats.
    repeat (apply maintains_bind; [apply maintains_browse|intros ?]).
    apply maintains_ret.
  - unfold cleanup. maintains_auto counters_leaf.
  - apply initImageLoader_bounded.
  - unfold autoInit.
    apply maintains_bind; [apply maintains_browse|]. intros rs.
    apply maintains_if; [apply maintains_ret|apply initImageLoader_bounded].
  - unfold complete.
    apply maintains_bind; [apply maintains_browse|]. intros ls.
    destruct (ls !! i) as [l|]; [|apply maintains_ret].
    apply maintains_bind; [counters_leaf|]. intros _.
    destruct ok; [apply handleImageLoaded_bounded|apply handleImageError_bounded].
  - unfold fire.
    apply maintains_bind; [apply maintains_browse|]. intros ts.
    destruct (list_find _ ts) as [[? tm]|]; [|apply maintains_ret].
    apply maintains_bind; [counters_leaf|]. intros _.
    apply maintains_bind; [counters_leaf|]. intros _.
    destruct (timer_cb tm); simpl; try apply maintains_ret;
      [apply loadImage_bounded|counters_leaf].
Qed.

Lemma after_bounded ops s : counters_bounded s → counters_bounded (after ops s).
Proof.
  revert s. induction ops as [|o ops IH]; intros s Hs; [done|].
  simpl. apply IH. by apply run_bounded.
Qed.

(** X13.  Whatever functions of the module are called and whatever
    callbacks run, in any order and with any arguments, every counter in
    the retry map stays between 1 and 3: no image is ever scheduled for a
    fourth retry. *)
Theorem X13_retry_counters_stay_bounded
    (b : browser) (ops : list operation) (img : node) (r : nat) :
  retryMap (this (after ops (St initial b))) !! img = Some r → 1 ≤ r ≤ 3.
Proof.
  apply (after_bounded ops (St initial b)).
  intros i r' H. simpl in H. by rewrite lookup_empty in H.
Qed.

Lemma X13_retry_counters_stay_bounded_witness :
  retryMap (this (after [LoadImage (Elem 5); Complete 0 false]
                    (St initial Samples.page))) !! Elem 5 = Some 1
  ∧ 1 ≤ 1 ≤ 3.
Proof.
  split; [reflexivity|].
  apply (X13_retry_counters_stay_bounded Samples.page
           [LoadImage (Elem 5); Complete 0 false] (Elem 5) 1).
  reflexivity.
Defined.

(** *** One image, from [loadImage] to the outcome of the load *)

Lemma loadImage_run x b img s :
  attr img "data-src" b = Some s → s ≠ "" →
  loadImage img (St x b)
  = (Ok (), St x (upd_loads (λ l, l ++ [PendingLoad img s (attr img "data-srcset" b)])
                    (upd_elem (classList_add "image-loading") img
                       (upd_elem (classList_remove "lazy-placeholder") img b)))).
Proof.
  intros Hs Hne. unfold loadImage, browse, act, mbind, M_bind. cbn [this br].
  rewrite Hs. cbn [nonempty]. by rewrite bool_decide_eq_false_2.
Qed.

Lemma loadImage_skip x b img :
  nonempty (attr img "data-src" b) = false →
  loadImage img (St x b)
  = (Ok (), St x (upd_console
                    (λ c, c ++ [(Warn, ["Imagen sin data-src:";
                                        "[object HTMLImageElement]"])]) b)).
Proof.
  intros Hs. unfold loadImage, browse, console_call, act, mbind, M_bind.
  cbn [this br]. destruct (attr img "data-src" b); [|done]. by rewrite Hs.
Qed.

Lemma delete_last {A} (l : list A) (a : A) : delete (length l) (l ++ [a]) = l.
Proof. induction l as [|y l IH]; [done|]. simpl. by rewrite IH. Qed.

(** The browser [handleImageLoaded] leaves. *)
Definition shown (img : node) (src : string) (srcset : option string) (b : browser)
  : browser :=
  let b1 := upd_elem (setAttribute "src" src) img b in
  let b2 := if nonempty srcset
            then upd_elem (setAttribute "srcset" (default "" srcset)) img b1 else b1 in
  let b3 := if nonempty (attr img "data-alt" b2)
            then upd_elem (setAttribute "alt" (default "" (attr img "data-alt" b2))) img b2
            else b2 in
  let b4 := upd_elem (classList_remove "image-loading") img b3 in
  let b5 := upd_elem (classList_add "image-loaded") img b4 in
  let b6 := upd_elem (removeAttribute "data-src") img b5 in
  let b7 := upd_elem (removeAttribute "data-srcset") img b6 in
  upd_console (λ c, c ++ [(Log, ["✅ Imagen cargada:"; src])])
    (upd_dispatched
       (λ l, l ++ [CustomEvent "imageLoaded" (Some img) (DImageLoaded src srcset)]) b7).

Lemma handleImageLoaded_run x b img src srcset :
  handleImageLoaded img src srcset (St x b)
  = (Ok (), St (set_retryMap (delete img) x) (shown img src srcset b)).
Proof.
  unfold handleImageLoaded, shown, when, browse, act, modify, dispatchEvent,
    console_call, mbind, M_bind, mret, M_ret. cbn [this br].
  destruct (nonempty srcset); cbn [this br];
    match goal with
    | |- context [nonempty (attr img "data-alt" ?b0)] =>
        destruct (nonempty (attr img "data-alt" b0))
    end; reflexivity.
Qed.

Lemma shown_facts img src srcset b :
  live img (doc b) →
  attr img "src" (shown img src srcset b) = Some src
  ∧ has_class img "image-loaded" (shown img src srcset b) = true
  ∧ has_class img "image-loading" (shown img src srcset b) = false
  ∧ attr img "data-src" (shown img src srcset b) = None
  ∧ attr img "data-srcset" (shown img src srcset b) = None
  ∧ (∀ c, c ≠ "image-loaded" → c ≠ "image-loading" →
          has_class img c (shown img src srcset b) = has_class img c b)
  ∧ loads (shown img src srcset b) = loads b
  ∧ timers (shown img src srcset b) = timers b
  ∧ dispatched (shown img src srcset b)
    = dispatched b ++ [CustomEvent "imageLoaded" (Some img) (DImageLoaded src srcset)].
Proof.
  intros Hl. unfold shown.
  remember (upd_elem (setAttribute "src" src) img b) as b1 eqn:E1.
  assert (attr img "src" b1 = Some src) as A1
    by (rewrite E1; by apply attr_upd_set; [frame_side|]).
  assert (live img (doc b1)) as L1 by (rewrite E1; by apply live_upd_elem).
  assert (∀ c, has_class img c b1 = has_class img c b) as C1
    by (intros c; rewrite E1; by rewrite has_class_upd_frame by frame_side).
  assert (loads b1 = loads b ∧ timers b1 = timers b ∧ dispatched b1 = dispatched b)
    as (F1 & G1 & H1) by (by rewrite E1).
  clear E1.
  remember (if nonempty srcset
            then upd_elem (setAttribute "srcset" (default "" srcset)) img b1 else b1)
    as b2 eqn:E2.
  assert (attr img "src" b2 = Some src) as A2.
  { rewrite E2. destruct (nonempty srcset); [|done].
    by rewrite attr_upd_frame by frame_side. }
  assert (live img (doc b2)) as L2.
  { rewrite E2. destruct (nonempty srcset); [|done]. by apply live_upd_elem. }
  assert (∀ c, has_class img c b2 = has_class img c b) as C2.
  { intros c. rewrite <- C1, E2. destruct (nonempty srcset); [|done].
    by rewrite has_class_upd_frame by frame_side. }
  assert (loads b2 = loads b ∧ timers b2 = timers b ∧ dispatched b2 = dispatched b)
    as (F2 & G2 & H2).
  { rewrite E2. by destruct (nonempty srcset). }
  clear E2 A1 L1 C1 F1 G1 H1.
  remember (if nonempty (attr img "data-alt" b2)
            then upd_elem (setAttribute "alt" (default "" (attr img "data-alt" b2)))
                   img b2
            else b2) as b3 eqn:E3.
  assert (attr img "src" b3 = Some src) as A3.
  { rewrite E3. destruct (nonempty _); [|done].
    by rewrite attr_upd_frame by frame_side. }
  assert (live img (doc b3)) as L3.
  { rewrite E3. destruct (nonempty _); [|done]. by apply live_upd_elem. }
  assert (∀ c, has_class img c b3 = has_class img c b) as C3.
  { intros c. rewrite <- C2, E3. destruct (nonempty _); [|done].
    by rewrite has_class_upd_frame by frame_side. }
  assert (loads b3 = loads b ∧ timers b3 = timers b ∧ dispatched b3 = dispatched b)
    as (F3 & G3 & H3).
  { rewrite E3. by destruct (nonempty _). }
  clear E3 A2 L2 C2 F2 G2 H2.
  remember (upd_elem (classList_remove "image-loading") img b3) as b4 eqn:E4.
  assert (attr img "src" b4 = Some src) as A4
    by (rewrite E4; by rewrite attr_upd_frame by frame_side).
  assert (live img (doc b4)) as L4 by (rewrite E4; by apply live_upd_elem).
  assert (has_class img "image-loading" b4 = false) as R4
    by (rewrite E4; by apply has_class_upd_set; [frame_side|]).
  assert (∀ c, c ≠ "image-loading" → has_class img c b4 = has_class img c b) as C4.
  { intros c Hc. rewrite <- C3, E4. unfold has_class. rewrite elem_upd_elem.
    rewrite decide_True by done. destruct (elem img b3); [|done]. simpl.
    rewrite contains_class_remove. by rewrite bool_decide_eq_true_2. }
  assert (loads b4 = loads b ∧ timers b4 = timers b ∧ dispatched b4 = dispatched b)
    as (F4 & G4 & H4) by (by rewrite E4).
  clear E4 A3 L3 C3 F3 G3 H3.
  remember (upd_elem (classList_add "image-loaded") img b4) as b5 eqn:E5.
  assert (attr img "src" b5 = Some src) as A5
    by (rewrite E5; by rewrite attr_upd_frame by frame_side).
  assert (live img (doc b5)) as L5 by (rewrite E5; by apply live_upd_elem).
  assert (has_class img "image-loaded" b5 = true) as R5
    by (rewrite E5; by apply has_class_upd_set; [frame_side|]).
  assert (∀ c, c ≠ "image-loaded" → has_class img c b5 = has_class img c b4) as C5.
  { intros c Hc. rewrite E5. unfold has_class. rewrite elem_upd_elem.
    rewrite decide_True by done. destruct (elem img b4); [|done]. simpl.
    rewrite contains_class_add. by rewrite bool_decide_eq_false_2. }
  assert (loads b5 = loads b ∧ timers b5 = timers b ∧ dispatched b5 = dispatched b)
    as (F5 & G5 & H5) by (by rewrite E5).
  clear E5 A4 L4.
  remember (upd_elem (removeAttribute "data-src") img b5) as b6 eqn:E6.
  assert (attr img "src" b6 = Some src) as A6
    by (rewrite E6; by rewrite attr_upd_frame by frame_side).
  assert (attr img "data-src" b6 = None) as D6
    by (rewrite E6; by apply attr_upd_set; [frame_side|]).
  assert (live img (doc b6)) as L6 by (rewrite E6; by apply live_upd_elem).
  assert (∀ c, has_class img c b6 = has_class img c b5) as C6
    by (intros c; rewrite E6; by rewrite has_class_upd_frame by frame_side).
  assert (loads b6 = loads b ∧ timers b6 = timers b ∧ dispatched b6 = dispatched b)
    as (F6 & G6 & H6) by (by rewrite E6).
  clear E6 A5 L5.
  remember (upd_elem (removeAttribute "data-srcset") img b6) as b7 eqn:E7.
  assert (attr img "src" b7 = Some src) as A7
    by (rewrite E7; by rewrite attr_upd_frame by frame_side).
  assert (attr img "data-src" b7 = None) as D7
    by (rewrite E7; by rewrite attr_upd_frame by frame_side).
  assert (attr img "data-srcset" b7 = None) as S7
    by (rewrite E7; by apply attr_upd_set; [frame_side|]).
  assert (∀ c, has_class img c b7 = has_class img c b6) as C7
    by (intros c; rewrite E7; by rewrite has_class_upd_frame by frame_side).
  assert (loads b7 = loads b ∧ timers b7 = timers b ∧ dispatched b7 = dispatched b)
    as (F7 & G7 & H7) by (by rewrite E7).
  clear E7.
  split_and!.
  - exact A7.
  - change (has_class img "image-loaded" b7 = true). by rewrite C7, C6.
  - change (has_class img "image-loading" b7 = false). rewrite C7, C6, C5; done.
  - exact D7.
  - exact S7.
  - intros c Hc1 Hc2. change (has_class img c b7 = has_class img c b).
    rewrite C7, C6, C5, C4; done.
  - exact F7.
  - exact G7.
  - change (dispatched b7 ++ [CustomEvent "imageLoaded" (Some img)
                                (DImageLoaded src srcset)]
            = dispatched b ++ [CustomEvent "imageLoaded" (Some img)
                                 (DImageLoaded src srcset)]).
    by rewrite H7.
Qed.

(** X14.  An image with a non-empty [data-src] whose load succeeds ends
    with that address in [src], marked [image-loaded] and no longer
    [image-loading] or [lazy-placeholder], without [data-src] and
    [data-srcset], and without a retry counter; one [imageLoaded] event is
    dispatched on it.  A later [loadImage] of the same image starts no
    load: it only warns. *)
Theorem X14_loaded_image_is_done
    (x : t) (b : browser) (img : node) (s : string) :
  live img (doc b) → attr img "data-src" b = Some s → s ≠ "" →
  ∃ x' b',
    (loadImage img;; complete (length (loads b)) true) (St x b) = (Ok (), St x' b')
    ∧ attr img "src" b' = Some s
    ∧ has_class img "image-loaded" b' = true
    ∧ has_class img "image-loading" b' = false
    ∧ has_class img "lazy-placeholder" b' = false
    ∧ attr img "data-src" b' = None ∧ attr img "data-srcset" b' = None
    ∧ retryMap x' !! img = None
    ∧ loads b' = loads b
    ∧ dispatched b'
      = dispatched b ++ [CustomEvent "imageLoaded" (Some img)
                           (DImageLoaded s (attr img "data-srcset" b))]
    ∧ ∃ b'', loadImage img (St x' b') = (Ok (), St x' b'')
             ∧ loads b'' = loads b ∧ doc b'' = doc b' ∧ timers b'' = timers b.
Proof.
  intros Hl Hs Hne.
  pose proof (loadImage_run x b img s Hs Hne) as Hload.
  set (srcset := attr img "data-srcset" b) in *.
  remember (upd_elem (classList_add "image-loading") img
              (upd_elem (classList_remove "lazy-placeholder") img b)) as b1 eqn:E1.
  assert (live img (doc b1)) as L1 by (rewrite E1; by do 2 apply live_upd_elem).
  assert (has_class img "lazy-placeholder" b1 = false) as P1.
  { rewrite E1. unfold has_class. rewrite !elem_upd_elem, !decide_True by done.
    destruct (elem img b); [|done]. simpl.
    rewrite contains_class_add, contains_class_remove. reflexivity. }
  assert (loads b1 = loads b ∧ timers b1 = timers b ∧ dispatched b1 = dispatched b)
    as (F1 & G1 & H1) by (by rewrite E1).
  clear E1.
  remember (upd_loads (delete (length (loads b)))
              (upd_loads (λ l, l ++ [PendingLoad img s srcset]) b1)) as b2 eqn:E2.
  assert (loads b2 = loads b) as F2.
  { rewrite E2. cbn [loads upd_loads]. rewrite F1. apply delete_last. }
  assert (live img (doc b2)) as L2 by (by rewrite E2).
  assert (has_class img "lazy-placeholder" b2 = false) as P2 by (by rewrite E2).
  assert (timers b2 = timers b ∧ dispatched b2 = dispatched b) as (G2 & H2)
    by (by rewrite E2).
  assert (complete (length (loads b)) true
            (St x (upd_loads (λ l, l ++ [PendingLoad img s srcset]) b1))
          = handleImageLoaded img s srcset (St x b2)) as Hcomp.
  { unfold complete, browse, act. unfold mbind at 1, M_bind at 1. cbn [this br loads upd_loads].
    rewrite F1, lookup_app_r, Nat.sub_diag by done. cbn [lookup list_lookup].
    unfold mbind, M_bind. cbn [this br pl_img pl_src pl_srcset]. by rewrite E2. }
  clear E2.
  pose proof (shown_facts img s srcset b2 L2)
    as (A & C1 & C2 & D1 & D2 & C3 & F3 & G3 & H3).
  remember (shown img s srcset b2) as b3 eqn:E3.
  exists (set_retryMap (delete img) x), b3. split_and!; try done.
  - unfold mbind, M_bind. rewrite Hload, Hcomp, handleImageLoaded_run.
    by rewrite E3.
  - rewrite C3; done.
  - simpl. apply lookup_delete_eq.
  - congruence.
  - congruence.
  - eexists. split; [apply loadImage_skip; by rewrite D1|]. split_and!; try done.
    + change (loads b3 = loads b). congruence.
    + change (timers b3 = timers b). congruence.
Qed.

Lemma X14_loaded_image_is_done_witness :
  ∃ x' b',
    (loadImage (Elem 5);; complete (length (loads Samples.page)) true)
      (St initial Samples.page) = (Ok (), St x' b')
    ∧ attr (Elem 5) "src" b' = Some "a.jpg"
    ∧ has_class (Elem 5) "image-loaded" b' = true
    ∧ has_class (Elem 5) "image-loading" b' = false
    ∧ has_class (Elem 5) "lazy-placeholder" b' = false
    ∧ attr (Elem 5) "data-src" b' = None ∧ attr (Elem 5) "data-srcset" b' = None
    ∧ retryMap x' !! Elem 5 = None
    ∧ loads b' = loads Samples.page
    ∧ dispatched b'
      = dispatched Samples.page
        ++ [CustomEvent "imageLoaded" (Some (Elem 5))
              (DImageLoaded "a.jpg" (attr (Elem 5) "data-srcset" Samples.page))]
    ∧ ∃ b'', loadImage (Elem 5) (St x' b') = (Ok (), St x' b'')
             ∧ loads b'' = loads Samples.page ∧ doc b'' = doc b'
             ∧ timers b'' = timers Samples.page.
Proof.
  apply (X14_loaded_image_is_done initial Samples.page (Elem 5) "a.jpg").
  - eexists. reflexivity.
  - reflexivity.
  - discriminate.
Defined.

(** *** Loading everything at once *)

Lemma elements_of_lookup n e d : lookup_node n d = Some e → (n, e) ∈ elements d.
Proof.
  intros H. apply list_elem_of_lookup.
  destruct n as [| | |j]; simpl in H.
  - exists 0. rewrite elements_lookup. by injection H as <-.
  - exists 1. rewrite elements_lookup. by injection H as <-.
  - exists 2. rewrite elements_lookup. by injection H as <-.
  - exists (S (S (S j))). rewrite elements_lookup. by rewrite H.
Qed.

Lemma upd_elem_compose f g n b : upd_elem f n (upd_elem g n b) = upd_elem (f ∘ g) n b.
Proof.
  unfold upd_elem, upd_doc. simpl. f_equal.
  destruct n; simpl; try done. f_equal. by rewrite list_alter_alter_eq.
Qed.

(** What the loop of [loadAllImagesImmediately] does to one image, given
    the two values it has read from it. *)
Definition unlazy (src srcset : option string) (e : element) : element :=
  removeAttribute "data-srcset"
    (removeAttribute "data-src"
       ((if nonempty srcset then setAttribute "srcset" (default "" srcset) else id)
          ((if nonempty src then setAttribute "src" (default "" src) else id) e))).

Definition unlazy_step (img : node) : M t unit :=
  src ← browse (attr img "data-src");
  srcset ← browse (attr img "data-srcset");
  when (nonempty src) (act (upd_elem (setAttribute "src" (default "" src)) img));;
  when (nonempty srcset)
    (act (upd_elem (setAttribute "srcset" (default "" srcset)) img));;
  act (upd_elem (removeAttribute "data-src") img);;
  act (upd_elem (removeAttribute "data-srcset") img).

Lemma unlazy_step_run img x b :
  unlazy_step img (St x b)
  = (Ok (), St x (upd_elem (unlazy (attr img "data-src" b) (attr img "data-srcset" b))
                    img b)).
Proof.
  unfold unlazy_step, unlazy, when, browse, act, mbind, M_bind, mret, M_ret.
  cbn [this br].
  destruct (nonempty (attr img "data-src" b)),
           (nonempty (attr img "data-srcset" b)); cbn [this br];
    rewrite ?upd_elem_compose; reflexivity.
Qed.

Lemma unlazy_data_src src srcset e : getAttribute "data-src" (unlazy src srcset e) = None.
Proof.
  unfold unlazy. destruct (nonempty srcset), (nonempty src);
    cbv [id]; autorewrite with elem_rw; reflexivity.
Qed.

Lemma unlazy_tag src srcset e : tag (unlazy src srcset e) = tag e.
Proof. unfold unlazy. by destruct (nonempty srcset), (nonempty src). Qed.

Lemma unlazy_src s srcset e :
  s ≠ "" → getAttribute "src" (unlazy (Some s) srcset e) = Some s.
Proof.
  intros Hs. unfold unlazy. cbn [nonempty]. rewrite bool_decide_eq_false_2 by done.
  cbn [negb]. destruct (nonempty srcset);
    cbv [id default from_option]; autorewrite with elem_rw; reflexivity.
Qed.

Lemma unlazy_src_kept srcset e :
  getAttribute "src" (unlazy None srcset e) = getAttribute "src" e.
Proof.
  unfold unlazy. cbn [nonempty]. destruct (nonempty srcset);
    cbv [id]; autorewrite with elem_rw; reflexivity.
Qed.

(** The state of the store after the loop over [l], relative to the one
    before it. *)
Record unlazied (l : list node) (b b' : browser) : Prop := {
  ul_done : ∀ n, n ∈ l → attr n "data-src" b' = None;
  ul_others : ∀ n, n ∉ l → elem n b' = elem n b;
  ul_none : ∀ n, attr n "data-src" b = None →
                 attr n "data-src" b' = None ∧ attr n "src" b' = attr n "src" b;
  ul_src : ∀ n s, n ∈ l → attr n "data-src" b = Some s → s ≠ "" →
                  attr n "src" b' = Some s;
  ul_tag : ∀ n, tag <$> elem n b' = tag <$> elem n b;
  ul_rest : loads b' = loads b ∧ timers b' = timers b ∧ console b' = console b
            ∧ dispatched b' = dispatched b ∧ localStorage b' = localStorage b
}.

Lemma unlazy_loop l x b :
  ∃ b', for_each l unlazy_step (St x b) = (Ok (), St x b') ∧ unlazied l b b'.
Proof.
  revert b. induction l as [|img l IH]; intros b.
  - exists b. split; [done|]. split.
    + intros n H. by apply elem_of_nil in H.
    + done.
    + by intros n H.
    + intros n s H. by apply elem_of_nil in H.
    + done.
    + done.
  - set (b1 := upd_elem (unlazy (attr img "data-src" b) (attr img "data-srcset" b))
                 img b).
    assert (attr img "data-src" b1 = None) as A1.
    { unfold b1, attr. rewrite elem_upd_elem, decide_True by done.
      destruct (elem img b); [|done]. simpl. apply unlazy_data_src. }
    assert (∀ n, n ≠ img → elem n b1 = elem n b) as B1.
    { intros n Hn. unfold b1. by rewrite elem_upd_elem, decide_False. }
    assert (∀ n, attr n "data-src" b = None →
              attr n "data-src" b1 = None ∧ attr n "src" b1 = attr n "src" b) as C1.
    { intros n Hn. destruct (decide (n = img)) as [->|Hne].
      - split; [done|]. unfold b1. rewrite Hn. unfold attr.
        rewrite elem_upd_elem, decide_True by done.
        destruct (elem img b); [|done]. simpl. apply unlazy_src_kept.
      - unfold attr. rewrite (B1 n Hne). split; [exact Hn|done]. }
    assert (∀ s, attr img "data-src" b = Some s → s ≠ "" → attr img "src" b1 = Some s)
      as D1.
    { intros s Hs Hne. unfold b1. rewrite Hs. unfold attr in *.
      rewrite elem_upd_elem, decide_True by done.
      destruct (elem img b); [|done]. simpl. by apply unlazy_src. }
    assert (∀ n, tag <$> elem n b1 = tag <$> elem n b) as E1.
    { intros n. unfold b1. rewrite elem_upd_elem. case_decide; [|done].
      destruct (elem n b) as [e|]; [|done].
      change (Some (tag (unlazy (attr img "data-src" b) (attr img "data-srcset" b) e))
              = Some (tag e)).
      by rewrite unlazy_tag. }
    assert (loads b1 = loads b ∧ timers b1 = timers b ∧ console b1 = console b
            ∧ dispatched b1 = dispatched b ∧ localStorage b1 = localStorage b) as F1
      by done.
    destruct (IH b1) as (b' & Hrun & R). destruct R.
    exists b'. split.
    { cbn [for_each]. unfold mbind, M_bind. rewrite unlazy_step_run. fold b1.
      exact Hrun. }
    split.
    + intros n [->|Hin]%elem_of_cons; [|by apply ul_done0].
      by apply ul_none0.
    + intros n Hn. apply not_elem_of_cons in Hn as [Hne Hn].
      rewrite ul_others0 by done. by apply B1.
    + intros n Hn. destruct (C1 n Hn) as [H1 H2].
      destruct (ul_none0 n H1) as [H3 H4]. split; [done|congruence].
    + intros n s Hin Hs Hne. destruct (decide (n = img)) as [->|Hni].
      * destruct (ul_none0 img A1) as [_ ->]. by apply D1.
      * apply elem_of_cons in Hin as [?|Hin]; [done|].
        apply ul_src0; try done. unfold attr. rewrite (B1 n Hni). exact Hs.
    + intros n. by rewrite ul_tag0.
    + destruct F1 as (? & ? & ? & ? & ?), ul_rest0 as (? & ? & ? & ? & ?).
      split_and!; congruence.
Qed.

(** X15.  [loadAllImagesImmediately] leaves no lazy image behind: after
    it no [img] has a [data-src], every image that had a non-empty
    [data-src] has it as its [src], elements that were not lazy images are
    untouched, and no load is started by the loader itself. *)
Theorem X15_load_all_leaves_no_lazy_image (x : t) (b : browser) :
  ∃ b',
    loadAllImagesImmediately (St x b) = (Ok (), St x b')
    ∧ querySelectorAll (SelTagAttr "img" "data-src") (doc b') = []
    ∧ (∀ n s, n ∈ querySelectorAll (SelTagAttr "img" "data-src") (doc b) →
              attr n "data-src" b = Some s → s ≠ "" → attr n "src" b' = Some s)
    ∧ (∀ n, n ∉ querySelectorAll (SelTagAttr "img" "data-src") (doc b) →
            elem n b' = elem n b)
    ∧ (∀ n, n ∈ querySelectorAll (SelTag "img") (doc b')
            ↔ n ∈ querySelectorAll (SelTag "img") (doc b))
    ∧ loads b' = loads b ∧ timers b' = timers b.
Proof.
  set (L := querySelectorAll (SelTagAttr "img" "data-src") (doc b)).
  destruct (unlazy_loop L x b) as (b' & Hrun & R). destruct R.
  destruct ul_rest0 as (Hlo & Hti & _).
  eexists. split.
  { unfold loadAllImagesImmediately, browse. unfold mbind at 1, M_bind at 1.
    cbn [this br]. fold L.
    change (for_each L _) with (for_each L unlazy_step).
    unfold mbind, M_bind. rewrite Hrun. reflexivity. }
  split_and!; try done.
  - change (querySelectorAll (SelTagAttr "img" "data-src") (doc b') = []).
    apply elem_of_nil_inv. intros n Hn.
    pose proof Hn as Hn'.
    apply querySelectorAll_elem in Hn as (e & He & _ & Hm).
    simpl in Hm. apply andb_true_iff in Hm as [Ht Ha].
    apply bool_decide_eq_true in Ht. apply bool_decide_eq_true in Ha.
    assert (attr n "data-src" b' = attrs e !! "data-src") as Hattr.
    { unfold attr, elem. by rewrite He. }
    destruct (decide (n ∈ L)) as [Hin|Hout].
    + rewrite (ul_done0 n Hin) in Hattr. rewrite <- Hattr in Ha. by destruct Ha.
    + apply Hout. apply querySelectorAll_elem. exists e.
      assert (lookup_node n (doc b) = Some e) as Hb.
      { change (elem n b = Some e). rewrite <- (ul_others0 n Hout). exact He. }
      split_and!; [done|by apply elements_of_lookup|].
      simpl. by rewrite !bool_decide_eq_true_2.
  - intros n.
    change (n ∈ querySelectorAll (SelTag "img") (doc b')
            ↔ n ∈ querySelectorAll (SelTag "img") (doc b)).
    rewrite !querySelectorAll_elem. specialize (ul_tag0 n). unfold elem in ul_tag0.
    split.
    + intros (e & He & _ & Hm). rewrite He in ul_tag0. simpl in ul_tag0.
      destruct (lookup_node n (doc b)) as [e0|] eqn:H0; [|done].
      exists e0. split_and!; [done|by apply elements_of_lookup|].
      simpl in *. injection ul_tag0 as Ht. by rewrite <- Ht.
    + intros (e & He & _ & Hm). rewrite He in ul_tag0. simpl in ul_tag0.
      destruct (lookup_node n (doc b')) as [e0|] eqn:H0; [|done].
      exists e0. split_and!; [done|by apply elements_of_lookup|].
      simpl in *. injection ul_tag0 as Ht. by rewrite Ht.
Qed.

(** *** Preloading *)

(** The element [preloadCriticalImages] adds for one address. *)
Definition preload_link (url : string) : element :=
  Element "link" (Some Head)
    (<["href" := url]> (<["as" := "image"]> {["rel" := "preload"]})) [] ∅ "".

Definition with_links (urls : list string) (b : browser) : browser :=
  upd_doc (λ d, Document (html d) (head d) (body d)
                  (others d ++ (preload_link <$> urls))) b.

Lemma preload_loop urls x b :
  (for_each urls (λ url, _ ← create_element (preload_link url); mret ()) : M t unit)
    (St x b)
  = (Ok (), St x (with_links urls b)).
Proof.
  revert b. induction urls as [|url urls IH]; intros b.
  - simpl. unfold mret, M_ret, with_links, upd_doc. simpl. rewrite app_nil_r.
    by destruct b as [[] ?].
  - cbn [for_each]. unfold mbind at 1, M_bind at 1.
    unfold mbind at 1, M_bind at 1. unfold create_element at 1. cbn [this br].
    unfold append_element. cbn [fst snd]. unfold mret at 1, M_ret at 1.
    rewrite IH. do 2 f_equal. unfold with_links, upd_doc. simpl.
    by rewrite <- app_assoc.
Qed.

(** X16.  [preloadCriticalImages] appends one [link rel=preload as=image]
    under the head for each address, in the order given, with the address
    as [href], and logs once; it leaves every element that was there as it
    was.  For the empty list it does nothing, not even log. *)
Theorem X16_preload_adds_one_link_per_address
    (x : t) (b : browser) (urls : list string) :
  ∃ b',
    preloadCriticalImages urls (St x b) = (Ok (), St x b')
    ∧ others (doc b') = others (doc b) ++ (preload_link <$> urls)
    ∧ (∀ n, live n (doc b) → elem n b' = elem n b)
    ∧ (∀ i url, urls !! i = Some url →
         attr (Elem (length (others (doc b)) + i)) "href" b' = Some url
         ∧ attr (Elem (length (others (doc b)) + i)) "rel" b' = Some "preload"
         ∧ attr (Elem (length (others (doc b)) + i)) "as" b' = Some "image")
    ∧ console b'
      = console b
        ++ (match urls with
            | [] => []
            | _ => [(Log, ["⚡ Precargadas " +:+ pretty (length urls)
                             +:+ " imágenes críticas"])]
            end)
    ∧ loads b' = loads b.
Proof.
  assert (∀ i url, urls !! i = Some url →
            elem (Elem (length (others (doc b)) + i)) (with_links urls b)
            = Some (preload_link url)) as Hnew.
  { intros i url Hi. unfold elem, with_links. simpl.
    rewrite lookup_app_r by lia.
    replace (length (others (doc b)) + i - length (others (doc b))) with i by lia.
    by rewrite list_lookup_fmap, Hi. }
  assert (∀ n, live n (doc b) → elem n (with_links urls b) = elem n b) as Hold.
  { intros n [e He]. destruct n; try done. unfold elem, with_links in *. simpl in *.
    by rewrite lookup_app_l by (by eapply lookup_lt_Some). }
  destruct urls as [|url urls].
  - exists b. split_and!; try done.
    + simpl. by rewrite app_nil_r.
    + simpl. by rewrite app_nil_r.
  - eexists. split.
    { unfold preloadCriticalImages. unfold mbind, M_bind. rewrite preload_loop.
      reflexivity. }
    split_and!; try done.
    intros i u Hi. pose proof (Hnew i u Hi) as He.
    split_and!; unfold attr; cbn [br]; rewrite elem_upd_console, He; reflexivity.
Qed.

(** *** Observing *)

(** What the loop of [observeImages] does to one image. *)
Definition marked (img : node) (b : browser) : browser :=
  let b0 := upd_elem (classList_add "lazy-placeholder") img b in
  if nonempty (attr img "alt" b0) then b0
  else upd_elem (setAttribute "alt" "Imagen cargando...") img b0.

Definition observe_step (img : node) : M t unit :=
  act (upd_elem (classList_add (placeholderClass CONFIG)) img);;
  alt ← browse (attr img "alt");
  when (negb (nonempty alt))
    (act (upd_elem (setAttribute "alt" "Imagen cargando...") img));;
  obs ← gets imageObserver;
  match obs with
  | Some l => modify (set_imageObserver (Some (l ++ [img])))
  | None => throw (TypeError "Cannot read properties of null: observe")
  end.

Lemma observe_step_run img x b l0 :
  imageObserver x = Some l0 →
  observe_step img (St x b)
  = (Ok (), St (set_imageObserver (Some (l0 ++ [img])) x) (marked img b)).
Proof.
  intros Hx. unfold observe_step, marked, when, act, browse, gets, modify,
    mbind, M_bind, mret, M_ret. cbn [this br placeholderClass CONFIG].
  destruct (nonempty _); cbn [negb this br]; by rewrite Hx.
Qed.

Record observed (l : list node) (b b' : browser) : Prop := {
  ob_marked : ∀ n, n ∈ l → live n (doc b) →
                   has_class n "lazy-placeholder" b' = true
                   ∧ nonempty (attr n "alt" b') = true;
  ob_others : ∀ n, n ∉ l → elem n b' = elem n b;
  ob_class : ∀ n, has_class n "lazy-placeholder" b = true →
                  has_class n "lazy-placeholder" b' = true;
  ob_alt : ∀ n, nonempty (attr n "alt" b) = true → attr n "alt" b' = attr n "alt" b;
  ob_noalt : ∀ n, n ∈ l → live n (doc b) → nonempty (attr n "alt" b) = false →
                  attr n "alt" b' = Some "Imagen cargando...";
  ob_lazy : querySelectorAll (SelTagAttr "img" "data-src") (doc b')
            = querySelectorAll (SelTagAttr "img" "data-src") (doc b);
  ob_live : ∀ n, live n (doc b) → live n (doc b');
  ob_rest : loads b' = loads b ∧ timers b' = timers b ∧ dispatched b' = dispatched b
            ∧ console b' = console b
}.

Lemma marked_observed img b : observed [img] b (marked img b).
Proof.
  unfold marked.
  remember (upd_elem (classList_add "lazy-placeholder") img b) as b0 eqn:E0.
  assert (live img (doc b) → has_class img "lazy-placeholder" b0 = true) as C0.
  { intros Hl. rewrite E0. by apply has_class_upd_set; [frame_side|]. }
  assert (∀ n, n ≠ img → elem n b0 = elem n b) as B0.
  { intros n Hn. rewrite E0. by rewrite elem_upd_elem, decide_False. }
  assert (∀ n, has_class n "lazy-placeholder" b = true →
            has_class n "lazy-placeholder" b0 = true) as M0.
  { intros n Hn. rewrite E0. unfold has_class in *. rewrite elem_upd_elem.
    case_decide; [|done]. destruct (elem n b); [|done]. simpl in *.
    rewrite contains_class_add. by rewrite Hn, orb_true_r. }
  assert (∀ n k, attr n k b0 = attr n k b) as A0.
  { intros n k. rewrite E0. by rewrite attr_upd_frame by frame_side. }
  assert (querySelectorAll (SelTagAttr "img" "data-src") (doc b0)
          = querySelectorAll (SelTagAttr "img" "data-src") (doc b)) as Q0.
  { rewrite E0. apply querySelectorAll_alter. intros e. simpl.
    unfold classList_add. by destruct (contains_class _ e). }
  assert (∀ n, live n (doc b) → live n (doc b0)) as L0.
  { intros n Hn. rewrite E0. by apply live_upd_elem. }
  assert (loads b0 = loads b ∧ timers b0 = timers b ∧ dispatched b0 = dispatched b
          ∧ console b0 = console b) as F0 by (by rewrite E0).
  clear E0.
  destruct (nonempty (attr img "alt" b0)) eqn:Halt.
  - split.
    + intros n ->%list_elem_of_singleton Hl. split; [by apply C0|done].
    + intros n Hn. apply B0. intros ->. apply Hn. left.
    + done.
    + intros n _. apply A0.
    + intros n ->%list_elem_of_singleton Hl Hno. rewrite A0 in Halt. congruence.
    + done.
    + done.
    + done.
  - split.
    + intros n ->%list_elem_of_singleton Hl. split.
      * rewrite has_class_upd_frame by frame_side. by apply C0.
      * rewrite (attr_upd_set img "alt" _ _ (Some "Imagen cargando..."));
          [done|frame_side|by apply L0].
    + intros n Hn. rewrite elem_upd_elem, decide_False; [apply B0|];
        intros ->; apply Hn; left.
    + intros n Hn. rewrite has_class_upd_frame by frame_side. by apply M0.
    + intros n Hn. destruct (decide (n = img)) as [->|Hne].
      * rewrite A0 in Halt. congruence.
      * unfold attr. rewrite elem_upd_elem, decide_False by done.
        by rewrite (B0 n Hne).
    + intros n ->%list_elem_of_singleton Hl _.
      apply attr_upd_set; [frame_side|by apply L0].
    + rewrite <- Q0. apply querySelectorAll_alter. intros e. simpl.
      by rewrite lookup_insert_ne.
    + intros n Hn. by apply live_upd_elem, L0.
    + done.
Qed.

Lemma observe_loop l x b l0 :
  imageObserver x = Some l0 →
  ∃ b', for_each l observe_step (St x b)
        = (Ok (), St (set_imageObserver (Some (l0 ++ l)) x) b')
        ∧ observed l b b'.
Proof.
  revert x b l0. induction l as [|img l IH]; intros x b l0 Hx.
  - exists b. split.
    + simpl. unfold mret, M_ret. rewrite app_nil_r. do 2 f_equal.
      destruct x. simpl in *. by rewrite Hx.
    + split; try done; intros n H; by apply elem_of_nil in H.
  - pose proof (marked_observed img b) as R1. destruct R1.
    destruct (IH (set_imageObserver (Some (l0 ++ [img])) x) (marked img b)
                (l0 ++ [img]) eq_refl) as (b' & Hrun & R).
    destruct R.
    exists b'. split.
    { cbn [for_each]. unfold mbind, M_bind. rewrite (observe_step_run img x b l0 Hx).
      rewrite Hrun. do 2 f_equal. unfold set_imageObserver. simpl.
      by rewrite <- app_assoc. }
    split.
    + intros n Hin Hl. destruct (decide (n ∈ l)) as [Hl'|Hl'].
      * apply ob_marked1; [done|by apply ob_live0].
      * apply elem_of_cons in Hin as [->|?]; [|done].
        destruct (ob_marked0 img) as [H1 H2]; [left|done|].
        split; [by apply ob_class1|]. by rewrite ob_alt1.
    + intros n Hn. apply not_elem_of_cons in Hn as [Hne Hn].
      rewrite ob_others1 by done. apply ob_others0.
      by intros ->%list_elem_of_singleton.
    + intros n Hn. by apply ob_class1, ob_class0.
    + intros n Hn. rewrite ob_alt1; [by apply ob_alt0|].
      by rewrite ob_alt0.
    + intros n Hin Hl Hno. destruct (decide (n = img)) as [->|Hne].
      * rewrite ob_alt1; rewrite (ob_noalt0 img); try done; left.
      * apply elem_of_cons in Hin as [?|Hin]; [done|].
        assert (elem n (marked img b) = elem n b) as He.
        { apply ob_others0. by intros ->%list_elem_of_singleton. }
        apply ob_noalt1; [done|by apply ob_live0|].
        unfold attr. by rewrite He.
    + congruence.
    + intros n Hn. by apply ob_live1, ob_live0.
    + destruct ob_rest0 as (? & ? & ? & ?), ob_rest1 as (? & ? & ? & ?).
      split_and!; congruence.
Qed.

(** X17.  Where [IntersectionObserver] exists, [initImageLoader] observes
    exactly the lazy images of the page, in document order; each of them
    gets the class [lazy-placeholder] and, when it has no [alt] text, the
    text ["Imagen cargando..."], while an [alt] it has is kept.  No load is
    started, no element stops or starts being a lazy image, and nothing
    else in the document changes. *)
Theorem X17_init_observes_the_lazy_images (x : t) (b : browser) :
  hasIntersectionObserver b = true →
  ∃ x' b',
    initImageLoader (St x b) = (Ok (), St x' b')
    ∧ imageObserver x' = Some (querySelectorAll (SelTagAttr "img" "data-src") (doc b))
    ∧ retryMap x' = retryMap x
    ∧ (∀ n, n ∈ querySelectorAll (SelTagAttr "img" "data-src") (doc b) →
            has_class n "lazy-placeholder" b' = true
            ∧ nonempty (attr n "alt" b') = true
            ∧ (nonempty (attr n "alt" b) = true → attr n "alt" b' = attr n "alt" b)
            ∧ (nonempty (attr n "alt" b) = false →
               attr n "alt" b' = Some "Imagen cargando..."))
    ∧ querySelectorAll (SelTagAttr "img" "data-src") (doc b')
      = querySelectorAll (SelTagAttr "img" "data-src") (doc b)
    ∧ (∀ n, n ∉ querySelectorAll (SelTagAttr "img" "data-src") (doc b) →
            elem n b' = elem n b)
    ∧ loads b' = loads b.
Proof.
  intros Hio.
  set (L := querySelectorAll (SelTagAttr "img" "data-src") (doc b)).
  destruct (observe_loop L (set_imageObserver (Some []) x) b [] eq_refl)
    as (b' & Hrun & R).
  destruct R. destruct ob_rest0 as (Hlo & _).
  eexists _, _. split.
  { unfold initImageLoader, browse. unfold mbind at 1, M_bind at 1. cbn [this br].
    rewrite Hio. cbn [negb]. unfold modify at 1. unfold mbind at 1, M_bind at 1.
    cbn [this br]. unfold observeImages, browse.
    unfold mbind at 1, M_bind at 1. unfold mbind at 1, M_bind at 1.
    unfold mbind at 1, M_bind at 1. cbn [this br]. fold L.
    change (for_each L _) with (for_each L observe_step).
    rewrite Hrun. reflexivity. }
  split_and!; try done.
  intros n Hn.
  assert (live n (doc b)) as Hl by (by apply (querySelectorAll_live _ _ _ Hn)).
  destruct (ob_marked0 n Hn Hl) as [H1 H2].
  change (has_class n "lazy-placeholder" b' = true
          ∧ nonempty (attr n "alt" b') = true
          ∧ (nonempty (attr n "alt" b) = true → attr n "alt" b' = attr n "alt" b)
          ∧ (nonempty (attr n "alt" b) = false →
             attr n "alt" b' = Some "Imagen cargando...")).
  split_and!; try done.
  - apply ob_alt0.
  - by apply ob_noalt0.
Qed.

Lemma X17_init_observes_the_lazy_images_witness :
  ∃ x' b',
    initImageLoader (St initial Samples.page) = (Ok (), St x' b')
    ∧ imageObserver x'
      = Some (querySelectorAll (SelTagAttr "img" "data-src") (doc Samples.page))
    ∧ retryMap x' = retryMap initial
    ∧ (∀ n, n ∈ querySelectorAll (SelTagAttr "img" "data-src") (doc Samples.page) →
            has_class n "lazy-placeholder" b' = true
            ∧ nonempty (attr n "alt" b') = true
            ∧ (nonempty (attr n "alt" Samples.page) = true →
               attr n "alt" b' = attr n "alt" Samples.page)
            ∧ (nonempty (attr n "alt" Samples.page) = false →
               attr n "alt" b' = Some "Imagen cargando..."))
    ∧ querySelectorAll (SelTagAttr "img" "data-src") (doc b')
      = querySelectorAll (SelTagAttr "img" "data-src") (doc Samples.page)
    ∧ (∀ n, n ∉ querySelectorAll (SelTagAttr "img" "data-src") (doc Samples.page) →
            elem n b' = elem n Samples.page)
    ∧ loads b' = loads Samples.page.
Proof.
  apply (X17_init_observes_the_lazy_images initial Samples.page).
  reflexivity.
Defined.
End LoaderExtra.
(** ** The orchestrator: themes, page names and listeners *)

Module MainExtra.
Import Main.

(** *** The page name *)

Fixpoint avoids (c : ascii) (s : string) : Prop :=
  match s with
  | EmptyString => True
  | String c' r => c' ≠ c ∧ avoids c r
  end.

Lemma append_cons c s r : String c s +:+ r = String c (s +:+ r).
Proof. reflexivity. Qed.

Lemma append_one acc c r : (acc +:+ String c "") +:+ r = acc +:+ String c r.
Proof.
  induction acc as [|c' acc IH]; [done|]. rewrite !append_cons. by rewrite IH.
Qed.

Lemma append_empty acc : acc +:+ "" = acc.
Proof. induction acc as [|c acc IH]; [done|]. rewrite append_cons. by rewrite IH. Qed.

Lemma last_segment_plain acc name :
  avoids "/" name → last_segment acc name = acc +:+ name.
Proof.
  revert acc. induction name as [|c r IH]; intros acc Hn; cbn [last_segment].
  - by rewrite append_empty.
  - destruct Hn as [Hc Hr]. rewrite bool_decide_eq_false_2 by done.
    rewrite IH by done. apply append_one.
Qed.

Lemma last_segment_after_slash acc dir name :
  avoids "/" name → last_segment acc (dir +:+ String "/" name) = name.
Proof.
  intros Hn. revert acc. induction dir as [|c r IH]; intros acc.
  - change ("" +:+ String "/" name) with (String "/" name). cbn [last_segment].
    rewrite bool_decide_eq_true_2 by done. by rewrite last_segment_plain.
  - rewrite append_cons. cbn [last_segment]. case_bool_decide; apply IH.
Qed.

Lemma remove_first_unfold pat s :
  remove_first pat s
  = if String.prefix pat s
    then String.substring (String.length pat) (String.length s - String.length pat) s
    else match s with
         | EmptyString => EmptyString
         | String c r => String c (remove_first pat r)
         end.
Proof. by destruct s. Qed.

Lemma remove_first_suffix name :
  avoids "." name → remove_first ".html" (name +:+ ".html") = name.
Proof.
  induction name as [|c r IH]; intros Hn; [done|].
  destruct Hn as [Hc Hr].
  rewrite append_cons, remove_first_unfold.
  assert (String.prefix ".html" (String c (r +:+ ".html")) = false) as ->.
  { cbn [String.prefix]. destruct (Ascii.ascii_dec "." c) as [<-|?]; [done|reflexivity]. }
  by rewrite IH.
Qed.

Section app.
Variable component : Type.
Variable Gallery : browser → result component * browser.
Variable Lightbox : browser → result component * browser.
Variable FormValidator : string → browser → result component * browser.

Abbreviation t := (Main.t component).

(** X18.  The page name is the file name of the address without its
    [.html]: for a path that ends in [/name.html], where [name] is not
    empty and has no slash and no dot, [getCurrentPage] returns [name];
    for a path that ends in a slash it returns ["index"].  It changes
    nothing. *)
Theorem X18_page_name_is_the_file_name
    (a : t) (b : browser) (dir file name : string) :
  avoids "/" name → avoids "." name →
  file = "" ∨ (name ≠ "" ∧ file = name +:+ ".html") →
  pathname b = dir +:+ "/" +:+ file →
  getCurrentPage component (St a b)
  = (Ok (if bool_decide (file = "") then "index" else name), St a b).
Proof.
  intros Hs Hd Hfile Hp.
  unfold getCurrentPage, browse, mbind, M_bind, mret, M_ret.
  cbn [this br]. rewrite Hp.
  change ("/" +:+ file) with (String "/" file).
  destruct Hfile as [->|[Hne ->]].
  - by rewrite last_segment_after_slash.
  - rewrite last_segment_after_slash.
    + rewrite remove_first_suffix by done.
      rewrite (bool_decide_eq_false_2 (name = "")) by done.
      rewrite bool_decide_eq_false_2; [done|]. by destruct name.
    + clear -Hs. induction name as [|c r IH]; [by repeat split|].
      destruct Hs as [Hc Hr]. split; [done|by apply IH].
Qed.

(** *** The theme [init] applies *)

Lemma debug_upd_console g b : debug (APP_CONFIG (upd_console g b)) = debug (APP_CONFIG b).
Proof. reflexivity. Qed.
Lemma debug_upd_elem f n b : debug (APP_CONFIG (upd_elem f n b)) = debug (APP_CONFIG b).
Proof. reflexivity. Qed.

Definition chosen (a : t) : string * bool := (theme (state a), isInitialized (state a)).

Lemma init_try_theme s :
  post (init_try component Gallery Lightbox FormValidator) s
       (λ _ s', attr Html "data-theme" (br s') = Some (theme (state (this s)))
                ∧ theme (state (this s')) = theme (state (this s)))
       (λ s', isInitialized (state (this s')) = isInitialized (state (this s))).
Proof.
  set (I := λ s' : st t, chosen (this s') = chosen (this s)).
  assert (∀ {A} (m : M t A) s1, keeps chosen m → I s1 → post m s1 (λ _, I) I)
    as Hstep.
  { intros A m s1 Hm H1.
    eapply (post_stable _ I m s1 Hm); [|exact H1].
    intros s2 s3 H2 H3. unfold I in *. simpl in *. congruence. }
  assert (∀ s1, I s1 →
            isInitialized (state (this s1)) = isInitialized (state (this s))) as Hinit.
  { intros s1 H1. unfold I, chosen in H1. congruence. }
  assert (I s) as H by done. unfold init_try.
  eapply post_mono; [|intros ? ? H0; exact H0|apply Hinit].
  eapply post_bind; [apply Hstep; [keeps_auto|exact H]|]. clear H. intros ? s1 H.
  eapply post_bind; [apply Hstep; [keeps_auto|exact H]|]. clear H. intros ? s2 H.
  eapply post_bind; [apply Hstep; [keeps_auto|exact H]|]. clear H. intros ? s3 H.
  eapply post_bind; [apply Hstep; [keeps_auto|exact H]|]. clear H. intros ? s4 H.
  apply post_gets_bind.
  assert (theme (state (this s4)) = theme (state (this s))) as Hth.
  { unfold I, chosen in H. congruence. }
  rewrite Hth. clear H Hth Hstep Hinit.
  destruct s4 as [a4 b4].
  unfold post, applyTheme, log, console_call, dispatchEvent, act, modify, gets,
    browse, when, mbind, M_bind, mret, M_ret. cbn [this br].
  assert (attr Html "data-theme"
            (upd_elem (setAttribute "data-theme" (theme (state (this s)))) Html b4)
          = Some (theme (state (this s)))) as Hset.
  { apply attr_upd_set; [frame_side|by eexists]. }
  remember (debug (APP_CONFIG b4)) as d eqn:Hd.
  rewrite ?debug_upd_console, ?debug_upd_elem, <- ?Hd.
  destruct d; cbn [this br];
    rewrite ?debug_upd_console, ?debug_upd_elem, <- ?Hd; cbn [this br];
    (split; [exact Hset|by destruct a4 as [[] ?]]).
Qed.

(** X19.  When the constructor's [init] completes, [data-theme] on the
    document element is the theme the constructor read at its start: the
    saved value when there is a non-empty one, whatever it is, and
    ["light"] otherwise.  The theme the theme toggle applied while the
    core modules were loaded, for instance the system's dark preference,
    is overwritten. *)
Theorem X19_init_applies_the_saved_theme_or_light (a : t) (b : browser) :
  let s' := (constructor component Gallery Lightbox FormValidator (St a b)).2 in
  isInitialized (state (this s')) = true →
  attr Html "data-theme" (br s')
  = Some (match localStorage b !! "theme" with
          | Some saved => if bool_decide (saved = "") then "light" else saved
          | None => "light"
          end)
  ∧ theme (state (this s')) = default "light" (attr Html "data-theme" (br s')).
Proof.
  intros s'.
  set (th := match localStorage b !! "theme" with
             | Some saved => if bool_decide (saved = "") then "light" else saved
             | None => "light"
             end).
  destruct (getCurrentPage component (St a b)) as [r s0] eqn:Hpage.
  assert (r = Ok (let page := remove_first ".html" (last_segment "" (pathname b)) in
                  if bool_decide (page = "") then "index" else page)
          ∧ s0 = St a b) as [-> ->].
  { unfold getCurrentPage, browse, mbind, M_bind, mret, M_ret in Hpage.
    cbn [this br] in Hpage. by injection Hpage as <- <-. }
  set (page := let page := remove_first ".html" (last_segment "" (pathname b)) in
               if bool_decide (page = "") then "index" else page) in *.
  set (a1 := upd_modules component (λ _, Modules None None None None None)
               (upd_state component (λ _, State false page th false) a)).
  assert (constructor component Gallery Lightbox FormValidator (St a b)
          = (if bool_decide (readyState b = "loading")
             then modify (set_waitingForDOM component true)
             else init component Gallery Lightbox FormValidator) (St a1 b)) as Hc.
  { unfold constructor. unfold mbind at 1, M_bind at 1. rewrite Hpage.
    unfold browse, modify, mbind, M_bind. cbn [this br].
    replace (if ImageLoader.nonempty (localStorage b !! "theme")
             then default "" (localStorage b !! "theme") else "light") with th.
    - reflexivity.
    - unfold th. destruct (localStorage b !! "theme") as [sv|]; [|done].
      simpl. by destruct (bool_decide (sv = "")). }
  subst s'. rewrite Hc. clear Hc Hpage.
  case_bool_decide as Hrs; [by intros ?|].
  pose proof (init_try_theme (St a1 b)) as Hpost. unfold post in Hpost.
  unfold init, try_catch.
  destruct (init_try component Gallery Lightbox FormValidator (St a1 b))
    as [[[]|e] s1].
  - intros _. destruct Hpost as [H1 H2]. cbn [snd]. rewrite H1.
    split; [done|]. by rewrite H2.
  - intros Hi. exfalso. simpl in Hpost.
    assert (keeps (λ x : t, isInitialized (state x)) (init_catch component e)) as Hk
      by keeps_auto.
    specialize (Hk s1). cbn [snd] in Hi. rewrite Hk, Hpost in Hi. done.
Qed.

(** *** Accordions *)

(** X20.  A click on an accordion button flips its [aria-expanded],
    shows its content when it was collapsed and hides it when it was
    expanded, and relabels the button; a second click gives back the
    first state.  A button without a previous sibling throws a
    [TypeError] after its [aria-expanded] has already been flipped. *)
Theorem X20_accordion_click_toggles (a : t) (b : browser) (button content : node) :
  live button (doc b) → live content (doc b) →
  let expanded := bool_decide (attr button "aria-expanded" b = Some "true") in
  (∃ b1 b2,
     onAccordionClick component button (Some content) (St a b) = (Ok (), St a b1)
     ∧ attr button "aria-expanded" b1 = Some (if expanded then "false" else "true")
     ∧ style_of content "display" b1 = (if expanded then "none" else "block")
     ∧ innerHTML <$> elem button b1
       = Some (if expanded then "Ver Tutorial Completo" else "Ocultar Tutorial")
     ∧ onAccordionClick component button (Some content) (St a b1) = (Ok (), St a b2)
     ∧ attr button "aria-expanded" b2 = Some (if expanded then "true" else "false")
     ∧ style_of content "display" b2 = (if expanded then "block" else "none")
     ∧ innerHTML <$> elem button b2
       = Some (if expanded then "Ocultar Tutorial" else "Ver Tutorial Completo"))
  ∧ (∃ b1,
       onAccordionClick component button None (St a b)
       = (Throw (TypeError "Cannot read properties of null: style"), St a b1)
       ∧ attr button "aria-expanded" b1 = Some (if expanded then "false" else "true")).
Proof.
  intros Hb Hc expanded.
  assert (∀ (b0 : browser) (ex : bool),
            live button (doc b0) → live content (doc b0) →
            bool_decide (attr button "aria-expanded" b0 = Some "true") = ex →
            ∃ b1,
              onAccordionClick component button (Some content) (St a b0)
              = (Ok (), St a b1)
              ∧ attr button "aria-expanded" b1 = Some (if ex then "false" else "true")
              ∧ style_of content "display" b1 = (if ex then "none" else "block")
              ∧ innerHTML <$> elem button b1
                = Some (if ex then "Ver Tutorial Completo" else "Ocultar Tutorial")
              ∧ live button (doc b1) ∧ live content (doc b1)) as Hclick.
  { intros b0 ex Lb Lc Hex.
    eexists. split.
    { unfold onAccordionClick, browse, act, deref, mbind, M_bind, mret, M_ret.
      cbn [this br]. rewrite Hex. reflexivity. }
    remember (upd_elem (setAttribute "aria-expanded" (to_string (JBool (negb ex))))
                button b0) as b1 eqn:E1.
    assert (attr button "aria-expanded" b1 = Some (if ex then "false" else "true"))
      as A1.
    { rewrite E1. rewrite (attr_upd_set button "aria-expanded" _ _
                             (Some (to_string (JBool (negb ex)))));
        [by destruct ex|frame_side|done]. }
    assert (live button (doc b1) ∧ live content (doc b1)) as [Lb1 Lc1].
    { rewrite E1. split; by apply live_upd_elem. }
    clear E1.
    remember (upd_elem (style_set "display" (if ex then "none" else "block"))
                content b1) as b2 eqn:E2.
    assert (attr button "aria-expanded" b2 = Some (if ex then "false" else "true"))
      as A2.
    { rewrite E2. by rewrite attr_upd_frame by frame_side. }
    assert (style_of content "display" b2 = (if ex then "none" else "block")) as S2.
    { rewrite E2. apply style_of_upd_set; [|done]. intros e.
      rewrite style_get_style_set. by rewrite decide_True. }
    assert (live button (doc b2) ∧ live content (doc b2)) as [Lb2 Lc2].
    { rewrite E2. split; by apply live_upd_elem. }
    clear E2.
    split_and!.
    - by rewrite attr_upd_frame by (by intros e).
    - by rewrite style_of_upd_frame by (by intros e).
    - rewrite elem_upd_elem, decide_True by done.
      unfold elem. destruct Lb2 as [e ->]. by destruct ex.
    - by apply live_upd_elem.
    - by apply live_upd_elem. }
  split.
  - destruct (Hclick b expanded Hb Hc eq_refl) as (b1 & R1 & A1 & S1 & T1 & Lb1 & Lc1).
    assert (bool_decide (attr button "aria-expanded" b1 = Some "true") = negb expanded)
      as Hex1.
    { rewrite A1. by destruct expanded. }
    destruct (Hclick b1 (negb expanded) Lb1 Lc1 Hex1)
      as (b2 & R2 & A2 & S2 & T2 & _).
    exists b1, b2. split_and!; try done.
    + rewrite A2. by destruct expanded.
    + rewrite S2. by destruct expanded.
    + rewrite T2. by destruct expanded.
  - eexists. split.
    { unfold onAccordionClick, browse, act, deref, throw, mbind, M_bind.
      cbn [this br]. reflexivity. }
    fold expanded.
    rewrite (attr_upd_set button "aria-expanded" _ _
               (Some (to_string (JBool (negb expanded)))));
      [by destruct expanded|frame_side|done].
Qed.

(** *** A document that is still loading *)

(** X21.  While the document is loading, the module's code leaves the
    browser exactly as it is: nothing is logged, no element is touched,
    no module is loaded; the application only records its state and waits
    for [DOMContentLoaded], at which both the image loader and [init]
    run. *)
Theorem X21_init_waits_for_the_document (b : browser) :
  readyState b = "loading" →
  ∃ a',
    main component Gallery Lightbox FormValidator (St (fresh component) b)
    = (Ok (), St a' b)
    ∧ waitingForDOM a' = true
    ∧ isInitialized (state a') = false
    ∧ modules a' = Modules None None None None None
    ∧ loader a' = ImageLoader.initial
    ∧ onDOMContentLoaded component Gallery Lightbox FormValidator (St a' b)
      = (in_loader component ImageLoader.initImageLoader;;
         init component Gallery Lightbox FormValidator) (St a' b).
Proof.
  intros Hrs. eexists. split.
  { unfold main, in_loader, zoom, ImageLoader.autoInit, constructor, getCurrentPage,
      browse, modify, mbind, M_bind, mret, M_ret. cbn [this br].
    rewrite Hrs. rewrite bool_decide_eq_true_2 by done. cbn [this br].
    rewrite bool_decide_eq_true_2 by done. reflexivity. }
  split_and!; try done.
  match goal with |- _ ?s0 = _ => set (s := s0) end.
  assert (keeps (waitingForDOM (component:=component))
            (in_loader component ImageLoader.initImageLoader)) as Hk
    by (unfold in_loader; keeps_auto).
  specialize (Hk s).
  unfold onDOMContentLoaded, ImageLoader.onDOMContentLoaded, mbind, M_bind.
  destruct (in_loader component ImageLoader.initImageLoader s) as [[[]|e] s1];
    [|done].
  unfold gets. cbn [snd] in Hk. rewrite Hk. reflexivity.
Qed.

(** *** The second copy of main.js *)

(** X22.  [loadCoreModules] of the second copy of main.js never creates
    the responsive menu: the application's slot, [window.responsiveMenu]
    and the record that ResponsiveMenu.js has been evaluated are as
    before, whether it returns or throws. *)
Theorem X22_second_copy_never_creates_the_menu (s : st t) :
  let s' := (loadCoreModules_part_003 component s).2 in
  responsiveMenu (modules (this s')) = responsiveMenu (modules (this s))
  ∧ window_responsiveMenu (this s') = window_responsiveMenu (this s)
  ∧ menuModuleEvaluated (this s') = menuModuleEvaluated (this s).
Proof.
  assert (keeps (λ x : t, (responsiveMenu (modules x), window_responsiveMenu x,
                           menuModuleEvaluated x))
            (loadCoreModules_part_003 component)) as Hk.
  { unfold loadCoreModules_part_003. keeps_auto. }
  specialize (Hk s). simpl in Hk. injection Hk as H1 H2 H3. by split_and!.
Qed.
End app.

Lemma X18_page_name_is_the_file_name_witness :
  getCurrentPage unit (St Samples.app Samples.page)
  = (Ok (if bool_decide ("portafolio.html" = "") then "index" else "portafolio"),
     St Samples.app Samples.page).
Proof.
  apply (X18_page_name_is_the_file_name unit Samples.app Samples.page
           "" "portafolio.html" "portafolio").
  - simpl. repeat split; discriminate.
  - simpl. repeat split; discriminate.
  - right. split; [discriminate|reflexivity].
  - reflexivity.
Defined.

Lemma X19_init_applies_the_saved_theme_or_light_witness :
  isInitialized
    (state (this (constructor unit Samples.no_component Samples.no_component
                    (λ _, Samples.no_component)
                    (St (fresh unit) Samples.page)).2)) = true
  ∧ attr Html "data-theme"
      (br (constructor unit Samples.no_component Samples.no_component
             (λ _, Samples.no_component) (St (fresh unit) Samples.page)).2)
    = Some "light"
  ∧ theme (state (this (constructor unit Samples.no_component Samples.no_component
                          (λ _, Samples.no_component)
                          (St (fresh unit) Samples.page)).2))
    = "light".
Proof.
  assert (isInitialized
            (state (this (constructor unit Samples.no_component Samples.no_component
                            (λ _, Samples.no_component)
                            (St (fresh unit) Samples.page)).2)) = true) as Hi
    by (vm_compute; reflexivity).
  split; [exact Hi|].
  destruct (X19_init_applies_the_saved_theme_or_light unit Samples.no_component
              Samples.no_component (λ _, Samples.no_component)
              (fresh unit) Samples.page Hi) as [H1 H2].
  split; [exact H1|]. rewrite H2, H1. reflexivity.
Defined.

Lemma X20_accordion_click_toggles_witness :
  (∃ b1 b2,
     onAccordionClick unit (Elem 4) (Some (Elem 3)) (St Samples.app Samples.page)
     = (Ok (), St Samples.app b1)
     ∧ attr (Elem 4) "aria-expanded" b1 = Some "true"
     ∧ style_of (Elem 3) "display" b1 = "block"
     ∧ innerHTML <$> elem (Elem 4) b1 = Some "Ocultar Tutorial"
     ∧ onAccordionClick unit (Elem 4) (Some (Elem 3)) (St Samples.app b1)
       = (Ok (), St Samples.app b2)
     ∧ attr (Elem 4) "aria-expanded" b2 = Some "false"
     ∧ style_of (Elem 3) "display" b2 = "none"
     ∧ innerHTML <$> elem (Elem 4) b2 = Some "Ver Tutorial Completo")
  ∧ (∃ b1,
       onAccordionClick unit (Elem 4) None (St Samples.app Samples.page)
       = (Throw (TypeError "Cannot read properties of null: style"), St Samples.app b1)
       ∧ attr (Elem 4) "aria-expanded" b1 = Some "true").
Proof.
  apply (X20_accordion_click_toggles unit Samples.app Samples.page (Elem 4) (Elem 3)).
  - eexists. reflexivity.
  - eexists. reflexivity.
Defined.

(** The sample page while its document is still being parsed. *)
Definition loading_page : browser := {|
  doc := Samples.page_doc;
  localStorage := ∅;
  console := [];
  dispatched := [];
  timers := [];
  nextTimer := 0;
  clock := 0;
  frames := [];
  loads := [];
  activeElement := None;
  innerWidth := 1280;
  matchMedia := Some true;
  hasIntersectionObserver := true;
  hostname := "localhost";
  pathname := "/portafolio.html";
  resolvable := ["./components/ThemeToggle.js"; "./components/ResponsiveMenu.js"];
  readyState := "loading"
|}.

Lemma X21_init_waits_for_the_document_witness :
  ∃ a',
    main unit Samples.no_component Samples.no_component (λ _, Samples.no_component)
      (St (fresh unit) loading_page)
    = (Ok (), St a' loading_page)
    ∧ waitingForDOM a' = true
    ∧ isInitialized (state a') = false
    ∧ modules a' = Modules None None None None None
    ∧ loader a' = ImageLoader.initial
    ∧ onDOMContentLoaded unit Samples.no_component Samples.no_component
        (λ _, Samples.no_component) (St a' loading_page)
      = (in_loader unit ImageLoader.initImageLoader;;
         init unit Samples.no_component Samples.no_component
           (λ _, Samples.no_component)) (St a' loading_page).
Proof.
  apply (X21_init_waits_for_the_document unit Samples.no_component
           Samples.no_component (λ _, Samples.no_component) loading_page).
  reflexivity.
Defined.
End MainExtra.
